(** * ShoreSquad: the state / render / event-sync loop of [js/app.js]

    A shallow embedding of the browser front-end's application state
    ([appState]), its render functions, its interaction handlers and its
    weather provider, followed by the properties stated for them. The file
    [js/app.js] holds two revisions of the program, one after the other; the
    embedding follows the later one (from line 441 on), which fetches the NEA
    forecast and has [nextCleanupParticipants].

    Conventions of the embedding:
    - a JavaScript number that holds a counter, a temperature or a clock
      reading is an integer of [Z]; a property that may be [undefined] is an
      [option]; the result of arithmetic on such a property is a [number],
      which has [NaN];
    - geographic coordinates are rationals; no rendered text depends on them;
    - the page's elements looked up by [document.getElementById] exist (the
      HTML page is not part of [js/app.js]); what the program writes to
      [innerHTML] or [textContent] is kept per element as a string of bytes
      (UTF-8, as in the source file);
    - Leaflet ([L]) is an external library: a map is the record of its view
      and of the layers added to it, and every layer object carries the stamp
      that gives it its identity;
    - [prompt], [Date.now], [new Date], [fetch] and the geolocation callback
      are inputs of the handler that consumes them;
    - a function of the program is a computation [JS A] over the page: it may
      change the state and then either return or throw. *)

From Stdlib Require Import ZArith QArith String Ascii DecimalString DecimalPos DecimalZ.
From stdpp Require Import base tactics option list strings.

Local Open Scope Z_scope.
Local Open Scope string_scope.

(** ** JavaScript values and template strings *)

(** The double quote character, and the line feed written [\n] in a template. *)
Definition dq : string := String (ascii_of_nat 34) EmptyString.
Definition nl : string := String (ascii_of_nat 10) EmptyString.

(** A template literal: its fixed pieces and its interpolated values, joined. *)
Definition tpl (parts : list string) : string := foldr String.append EmptyString parts.

(** [Array.prototype.join('')] on an array of strings. *)
Definition join (parts : list string) : string := tpl parts.

(** [${n}] for an integer-valued number. *)
Definition show_Z (z : Z) : string := NilZero.string_of_int (Z.to_int z).

(** [${s}] for a string property that may be [undefined]. *)
Definition show_str (s : option string) : string := default "undefined" s.

(** [${n}] for a numeric property that may be [undefined]. *)
Definition show_num (n : option Z) : string :=
  match n with Some z => show_Z z | None => "undefined" end.

(** The result of arithmetic. *)
Inductive number := Num (z : Z) | NaN.

Definition show_number (n : number) : string :=
  match n with Num z => show_Z z | NaN => "NaN" end.

(** [a + b] on two numeric properties: [undefined] makes the sum [NaN].
    The sum, and the rounding and printing after it, are the exact ones on
    integers; the code's, on doubles, are the same for readings up to 2^52
    in size. *)
Definition js_add (a b : option Z) : number :=
  match a, b with
  | Some x, Some y => Num (x + y)
  | _, _ => NaN
  end.

(** [Math.round(s / 2)]: halves round towards positive infinity. *)
Definition Math_round_half (s : number) : number :=
  match s with Num z => Num ((z + 1) / 2) | NaN => NaN end.

(** [n - k]. *)
Definition js_sub (n : number) (k : Z) : number :=
  match n with Num z => Num (z - k) | NaN => NaN end.

(** [a > k] for a numeric property: [undefined > k] is [false]. *)
Definition js_gt (a : option Z) (k : Z) : bool :=
  match a with Some x => (k <? x)%Z | None => false end.

(** [!s] for the result of [prompt]: [null] (cancelled) and the empty string
    are falsy. *)
Definition falsy (s : option string) : bool :=
  match s with
  | None => true
  | Some EmptyString => true
  | Some (String _ _) => false
  end.

(** Is [needle] found in [hay]? *)
Fixpoint includes (needle hay : string) : bool :=
  String.prefix needle hay ||
  match hay with
  | EmptyString => false
  | String _ rest => includes needle rest
  end.

(** ** Data model *)

Record LatLng := { lat : Q; lng : Q }.

Module CrewMember.
Record t := {
  id : Z;
  name : string;
  avatar : string;
  cleanups : Z;
  itemsCollected : Z;
}.
End CrewMember.

(** A cleanup event. Seeded events carry [time] and [description]; events
    made by [createEventMarker] carry [creator] instead. *)
Module Event.
Record t := {
  id : string;
  name : string;
  lat : Q;
  lng : Q;
  date : string;
  time : option string;
  participants : Z;
  description : option string;
  creator : option string;
}.

(** [event.participants += 1] *)
Definition join (e : t) : t :=
  {| id := id e; name := name e; lat := lat e; lng := lng e; date := date e;
     time := time e; participants := participants e + 1;
     description := description e; creator := creator e |}.
End Event.

(** A Leaflet marker: [L.marker([lat, lng], {title})] with its bound popup. *)
Module Marker.
Record t := {
  stamp : nat;
  position : LatLng;
  title : string;
  popup : string;
}.

(** What a marker shows, apart from the identity of the object. *)
Definition content (m : t) : LatLng * string * string :=
  (position m, title m, popup m).
End Marker.

Record TileLayer := {
  tile_stamp : nat;
  urlTemplate : string;
  attribution : string;
  maxZoom : Z;
}.

(** A Leaflet map: its view and the layers on it, in the order added. *)
Module LMap.
Record t := {
  center : LatLng;
  zoom : Z;
  tiles : list TileLayer;
  layers : list Marker.t;
}.

Definition getCenter (m : t) : LatLng := center m.

Definition setView (c : LatLng) (z : Z) (m : t) : t :=
  {| center := c; zoom := z; tiles := tiles m; layers := layers m |}.

Definition addTile (l : TileLayer) (m : t) : t :=
  {| center := center m; zoom := zoom m; tiles := tiles m ++ [l]; layers := layers m |}.

(** [marker.addTo(map)] *)
Definition addLayer (l : Marker.t) (m : t) : t :=
  {| center := center m; zoom := zoom m; tiles := tiles m; layers := layers m ++ [l] |}.

(** [map.removeLayer(marker)]: the layer that is this object leaves the map. *)
Definition removeLayer (l : Marker.t) (m : t) : t :=
  {| center := center m; zoom := zoom m; tiles := tiles m;
     layers := filter (fun x => Marker.stamp x <> Marker.stamp l) (layers m) |}.
End LMap.

Module config.
Definition mapTileLayer : string := "https://{s}.tile.openstreetmap.org/{z}/{x}/{y}.png".
Definition mapAttribution : string := "&copy; OpenStreetMap contributors".
Definition defaultLocation : LatLng := {| lat := 40.7128; lng := -74.0060 |}.
Definition neaForecastApi : string :=
  "https://api.data.gov.sg/v1/environment/4-day-weather-forecast".
End config.

(** [appState], the single mutable record the handlers share. *)
Module appState.
Record t := {
  map : option LMap.t;
  userLocation : option LatLng;
  crews : list CrewMember.t;
  events : list Event.t;
  markers : list Marker.t;
  userMarker : option Marker.t;
  nextCleanupParticipants : Z;
}.

(** [let appState = { map: null, ..., nextCleanupParticipants: 0 }] *)
Definition init : t :=
  {| map := None; userLocation := None; crews := []; events := [];
     markers := []; userMarker := None; nextCleanupParticipants := 0 |}.

Definition set_map (v : option LMap.t) (s : t) : t :=
  {| map := v; userLocation := userLocation s; crews := crews s; events := events s;
     markers := markers s; userMarker := userMarker s;
     nextCleanupParticipants := nextCleanupParticipants s |}.
Definition set_userLocation (v : option LatLng) (s : t) : t :=
  {| map := map s; userLocation := v; crews := crews s; events := events s;
     markers := markers s; userMarker := userMarker s;
     nextCleanupParticipants := nextCleanupParticipants s |}.
Definition set_crews (v : list CrewMember.t) (s : t) : t :=
  {| map := map s; userLocation := userLocation s; crews := v; events := events s;
     markers := markers s; userMarker := userMarker s;
     nextCleanupParticipants := nextCleanupParticipants s |}.
Definition set_events (v : list Event.t) (s : t) : t :=
  {| map := map s; userLocation := userLocation s; crews := crews s; events := v;
     markers := markers s; userMarker := userMarker s;
     nextCleanupParticipants := nextCleanupParticipants s |}.
Definition set_markers (v : list Marker.t) (s : t) : t :=
  {| map := map s; userLocation := userLocation s; crews := crews s; events := events s;
     markers := v; userMarker := userMarker s;
     nextCleanupParticipants := nextCleanupParticipants s |}.
Definition set_userMarker (v : option Marker.t) (s : t) : t :=
  {| map := map s; userLocation := userLocation s; crews := crews s; events := events s;
     markers := markers s; userMarker := v;
     nextCleanupParticipants := nextCleanupParticipants s |}.
Definition set_nextCleanupParticipants (v : Z) (s : t) : t :=
  {| map := map s; userLocation := userLocation s; crews := crews s; events := events s;
     markers := markers s; userMarker := userMarker s;
     nextCleanupParticipants := v |}.
End appState.

(** The static view that the load handler puts into the map element when
    the map cannot be made: an embedded map of [lat], [lng], labelled
    [placeLabel], with a link to it and the button [retryMapBtn]. The view is
    kept as these values; its markup, which prints the coordinates, is not. *)
Module StaticView.
Record t := {
  lat : Q;
  lng : Q;
  placeLabel : string;
}.
End StaticView.

(** What the program has put into the element [#map]: nothing yet, nothing
    left ([innerHTML = '']), or the static view with its retry button. What
    Leaflet draws into the element is the map value held in [appState.map]. *)
Inductive MapElement :=
| MapAsServed
| MapEmptied
| MapStatic (view : StaticView.t).

(** The elements the program writes to, each with the text last written. *)
Module document.
Record t := {
  mapEl : MapElement;
  eventsList : string;
  crewList : string;
  totalCrew : string;
  cleanupCount : string;
  itemsCollected : string;
  weatherInfo : string;
  forecastInfo : string;
  waterInfo : string;
  nextCleanupParticipants : string;
}.

Definition init : t :=
  {| mapEl := MapAsServed;
     eventsList := EmptyString; crewList := EmptyString; totalCrew := EmptyString;
     cleanupCount := EmptyString; itemsCollected := EmptyString;
     weatherInfo := EmptyString; forecastInfo := EmptyString;
     waterInfo := EmptyString; nextCleanupParticipants := EmptyString |}.

Definition set_eventsList (v : string) (d : t) : t :=
  {| mapEl := mapEl d; eventsList := v; crewList := crewList d; totalCrew := totalCrew d;
     cleanupCount := cleanupCount d; itemsCollected := itemsCollected d;
     weatherInfo := weatherInfo d; forecastInfo := forecastInfo d;
     waterInfo := waterInfo d; nextCleanupParticipants := nextCleanupParticipants d |}.
Definition set_crew (list total count items : string) (d : t) : t :=
  {| mapEl := mapEl d; eventsList := eventsList d; crewList := list; totalCrew := total;
     cleanupCount := count; itemsCollected := items;
     weatherInfo := weatherInfo d; forecastInfo := forecastInfo d;
     waterInfo := waterInfo d; nextCleanupParticipants := nextCleanupParticipants d |}.
Definition set_weatherInfo (v : string) (d : t) : t :=
  {| mapEl := mapEl d; eventsList := eventsList d; crewList := crewList d; totalCrew := totalCrew d;
     cleanupCount := cleanupCount d; itemsCollected := itemsCollected d;
     weatherInfo := v; forecastInfo := forecastInfo d;
     waterInfo := waterInfo d; nextCleanupParticipants := nextCleanupParticipants d |}.
Definition set_forecastInfo (v : string) (d : t) : t :=
  {| mapEl := mapEl d; eventsList := eventsList d; crewList := crewList d; totalCrew := totalCrew d;
     cleanupCount := cleanupCount d; itemsCollected := itemsCollected d;
     weatherInfo := weatherInfo d; forecastInfo := v;
     waterInfo := waterInfo d; nextCleanupParticipants := nextCleanupParticipants d |}.
Definition set_waterInfo (v : string) (d : t) : t :=
  {| mapEl := mapEl d; eventsList := eventsList d; crewList := crewList d; totalCrew := totalCrew d;
     cleanupCount := cleanupCount d; itemsCollected := itemsCollected d;
     weatherInfo := weatherInfo d; forecastInfo := forecastInfo d;
     waterInfo := v; nextCleanupParticipants := nextCleanupParticipants d |}.
Definition set_nextCleanupParticipants (v : string) (d : t) : t :=
  {| mapEl := mapEl d; eventsList := eventsList d; crewList := crewList d; totalCrew := totalCrew d;
     cleanupCount := cleanupCount d; itemsCollected := itemsCollected d;
     weatherInfo := weatherInfo d; forecastInfo := forecastInfo d;
     waterInfo := waterInfo d; nextCleanupParticipants := v |}.
Definition set_mapEl (v : MapElement) (d : t) : t :=
  {| mapEl := v; eventsList := eventsList d; crewList := crewList d;
     totalCrew := totalCrew d;
     cleanupCount := cleanupCount d; itemsCollected := itemsCollected d;
     weatherInfo := weatherInfo d; forecastInfo := forecastInfo d;
     waterInfo := waterInfo d; nextCleanupParticipants := nextCleanupParticipants d |}.
End document.

(** The page: the program's state, the document, the dialogs shown by
    [alert], the messages given to [announceToScreenReader], and the last
    stamp Leaflet handed out. *)
Record Page := {
  app : appState.t;
  doc : document.t;
  alerts : list string;
  announcements : list string;
  lastStamp : nat;
}.

Definition Page_init : Page :=
  {| app := appState.init; doc := document.init; alerts := []; announcements := [];
     lastStamp := 0 |}.

(** ** Computations that may throw *)

Inductive exn :=
| TypeError (msg : string)
| ReferenceError (msg : string)
| SyntaxError (msg : string)
| Error (msg : string).

Inductive completion (A : Type) :=
| Normal (a : A)
| Throw (e : exn).
Arguments Normal {A} a.
Arguments Throw {A} e.

Definition JS (A : Type) : Type := Page -> completion A * Page.

Definition ret {A} (a : A) : JS A := fun p => (Normal a, p).

Definition throw {A} (e : exn) : JS A := fun p => (Throw e, p).

Definition bind {A B} (c : JS A) (k : A -> JS B) : JS B :=
  fun p =>
    match c p with
    | (Normal a, p') => k a p'
    | (Throw e, p') => (Throw e, p')
    end.

Notation "x <- c1 ;; c2" := (bind c1 (fun x => c2))
  (at level 100, c1 at next level, right associativity).
Notation "c1 ;; c2" := (bind c1 (fun _ => c2))
  (at level 100, right associativity).

(** [try { c } catch (error) { h error }]: what [c] wrote before it threw stays. *)
Definition try_catch {A} (c : JS A) (h : exn -> JS A) : JS A :=
  fun p =>
    match c p with
    | (Normal a, p') => (Normal a, p')
    | (Throw e, p') => h e p'
    end.

(** The page with another [appState], another document. *)
Definition with_app (a : appState.t) (p : Page) : Page :=
  {| app := a; doc := doc p; alerts := alerts p;
     announcements := announcements p; lastStamp := lastStamp p |}.

Definition with_doc (d : document.t) (p : Page) : Page :=
  {| app := app p; doc := d; alerts := alerts p;
     announcements := announcements p; lastStamp := lastStamp p |}.

Definition get_app : JS appState.t := fun p => (Normal (app p), p).

Definition modify_app (f : appState.t -> appState.t) : JS unit :=
  fun p => (Normal tt, with_app (f (app p)) p).

Definition modify_doc (f : document.t -> document.t) : JS unit :=
  fun p => (Normal tt, with_doc (f (doc p)) p).

(** [alert(msg)] *)
Definition alert (msg : string) : JS unit :=
  fun p => (Normal tt,
            {| app := app p; doc := doc p; alerts := alerts p ++ [msg];
               announcements := announcements p; lastStamp := lastStamp p |}).

(** Leaflet stamps a new layer object. *)
Definition fresh_stamp : JS nat :=
  fun p => (Normal (S (lastStamp p)),
            {| app := app p; doc := doc p; alerts := alerts p;
               announcements := announcements p; lastStamp := S (lastStamp p) |}).

(** [xs.forEach(f)] *)
Fixpoint forEach {A} (xs : list A) (f : A -> JS unit) : JS unit :=
  match xs with
  | [] => ret tt
  | x :: rest => f x ;; forEach rest f
  end.

(** The state a computation leaves, and how it completed. *)
Definition exec {A} (c : JS A) (p : Page) : Page := (c p).2.
Definition outcome {A} (c : JS A) (p : Page) : completion A := (c p).1.

(** ** Map functionality *)

(** Run [k] on the map [appState.map]. Using the map while it is [null]
    throws: a [TypeError] on the [null], or, in [addBeachMarker] when
    Leaflet itself is missing, a [ReferenceError] on [L] just before; the two
    are not told apart. *)
Definition with_map {A} (k : LMap.t -> JS A) : JS A :=
  st <- get_app ;;
  match appState.map st with
  | Some m => k m
  | None => throw (TypeError "appState.map is null")
  end.

(** [initializeMap()]. [leaflet] tells whether Leaflet is loaded and can
    build a map in the page; when it cannot, the call throws before
    [appState.map] is assigned. *)
Definition initializeMap (leaflet : bool) : JS unit :=
  if leaflet then
    let m := {| LMap.center := config.defaultLocation; LMap.zoom := 12;
                LMap.tiles := []; LMap.layers := [] |} in
    modify_app (appState.set_map (Some m)) ;;
    s <- fresh_stamp ;;
    let tile := {| tile_stamp := s; urlTemplate := config.mapTileLayer;
                   attribution := config.mapAttribution; maxZoom := 19 |} in
    modify_app (appState.set_map (Some (LMap.addTile tile m)))
  else throw (ReferenceError "L is not defined").

(** The popup of an event's marker. *)
Definition popupContent (name : string) (eventData : Event.t) : string :=
  tpl ["
        <div style="; dq; "font-weight: 500;"; dq; ">
            🏖️ "; name; "
        </div>
        <div style="; dq; "margin-top: 8px; font-size: 0.9em;"; dq; ">
            <p>📅 "; Event.date eventData; "</p>
            <p>👥 "; show_Z (Event.participants eventData); " people</p>
            <button onclick="; dq; "joinEvent('"; Event.id eventData; "')"; dq; " style="; dq; "
                background-color: #0077BE;
                color: white;
                border: none;
                padding: 6px 12px;
                border-radius: 4px;
                cursor: pointer;
                margin-top: 8px;
            "; dq; ">Join Event</button>
        </div>
    "].

(** [addBeachMarker(lat, lng, name, eventData)] *)
Definition addBeachMarker (lat lng : Q) (name : string) (eventData : Event.t)
  : JS Marker.t :=
  with_map (fun m =>
    s <- fresh_stamp ;;
    let marker := {| Marker.stamp := s;
                     Marker.position := {| lat := lat; lng := lng |};
                     Marker.title := name;
                     Marker.popup := popupContent name eventData |} in
    modify_app (appState.set_map (Some (LMap.addLayer marker m))) ;;
    modify_app (fun a => appState.set_markers (appState.markers a ++ [marker]) a) ;;
    ret marker).

(** What [navigator.geolocation] answers. *)
Inductive Geolocation :=
| GeoUnsupported
| GeoPosition (latitude longitude : Q)
| GeoFailure (message : string).

(** [userLocation()], with the answer of the geolocation request. *)
Definition userLocation (geo : Geolocation) : JS unit :=
  match geo with
  | GeoUnsupported => alert "Geolocation is not supported by your browser."
  | GeoFailure _ => alert "Unable to get location. Using default location."
  | GeoPosition latitude longitude =>
      let here := {| lat := latitude; lng := longitude |} in
      modify_app (appState.set_userLocation (Some here)) ;;
      st <- get_app ;;
      match appState.userMarker st with
      | Some old =>
          with_map (fun m => modify_app (appState.set_map (Some (LMap.removeLayer old m))))
      | None => ret tt
      end ;;
      with_map (fun m =>
        s <- fresh_stamp ;;
        let marker := {| Marker.stamp := s; Marker.position := here;
                         Marker.title := "Your Location";
                         Marker.popup := "📍 You are here" |} in
        modify_app (appState.set_map (Some (LMap.addLayer marker m))) ;;
        modify_app (appState.set_userMarker (Some marker)) ;;
        modify_app (appState.set_map
                      (Some (LMap.setView here 12 (LMap.addLayer marker m)))))
  end.

(** ** Events management *)

(** One card of the events list. *)
Definition eventCard (event : Event.t) : string :=
  tpl ["
        <li class="; dq; "event-card"; dq; " role="; dq; "listitem"; dq; ">
            <div class="; dq; "event-date"; dq; ">"; Event.date event; "</div>
            <h3 class="; dq; "event-title"; dq; ">"; Event.name event; "</h3>
            <p class="; dq; "event-location"; dq; ">📍 Beach Location</p>
            <p class="; dq; "event-participants"; dq; ">👥 "; show_Z (Event.participants event); " people interested</p>
            <p style="; dq; "color: #7f8c8d; font-size: 0.9rem; margin-top: 8px;"; dq; ">
                ⏰ "; show_str (Event.time event); "
            </p>
            <p style="; dq; "color: #2C3E50; margin: 8px 0;"; dq; ">
                "; show_str (Event.description event); "
            </p>
            <button class="; dq; "event-btn"; dq; " onclick="; dq; "joinEvent('"; Event.id event; "')"; dq; " aria-label="; dq; "Join event"; dq; ">
                ✨ Join Event
            </button>
        </li>
    "].

(** [renderEvents()] *)
Definition renderEvents : JS unit :=
  st <- get_app ;;
  modify_doc (document.set_eventsList (join (eventCard <$> appState.events st))) ;;
  forEach (appState.markers st) (fun marker =>
    with_map (fun m => modify_app (appState.set_map (Some (LMap.removeLayer marker m))))) ;;
  modify_app (appState.set_markers []) ;;
  forEach (appState.events st) (fun event =>
    _ <- addBeachMarker (Event.lat event) (Event.lng event) (Event.name event) event ;;
    ret tt).

(** [`event-${Date.now()}`] *)
Definition event_id (now : Z) : string := tpl ["event-"; show_Z now].

(** [createEventMarker()]. [beachName] and [eventDate] are what the two
    prompts return ([None] when cancelled; the second prompt is shown only
    after a name was given), [now] is the reading of [Date.now()]. *)
Definition createEventMarker (beachName eventDate : option string) (now : Z) : JS unit :=
  if falsy beachName then ret tt else
  if falsy eventDate then ret tt else
  let beachName := default EmptyString beachName in
  let eventDate := default EmptyString eventDate in
  with_map (fun m =>
    let mapCenter := LMap.getCenter m in
    let newEvent := {| Event.id := event_id now;
                       Event.name := beachName;
                       Event.lat := lat mapCenter;
                       Event.lng := lng mapCenter;
                       Event.date := eventDate;
                       Event.time := None;
                       Event.participants := 1;
                       Event.description := None;
                       Event.creator := Some "You" |} in
    modify_app (fun a => appState.set_events (appState.events a ++ [newEvent]) a) ;;
    _ <- addBeachMarker (Event.lat newEvent) (Event.lng newEvent) (Event.name newEvent) newEvent ;;
    renderEvents ;;
    alert (tpl ["✨ Event created: "; beachName])).

(** [joinEvent(eventId)]. [find] yields the first event with that id, and the
    increment is made on that element of the array. *)
Definition joinEvent (eventId : string) : JS unit :=
  st <- get_app ;;
  match list_find (fun e => Event.id e = eventId) (appState.events st) with
  | Some (i, found) =>
      let event := Event.join found in
      modify_app (appState.set_events (<[i := event]> (appState.events st))) ;;
      renderEvents ;;
      alert (tpl ["✨ Great! You joined "; dq; Event.name event; dq; "!"; nl; "👥 Total participants: "; show_Z (Event.participants event)])
  | None => ret tt
  end.

(** [announceToScreenReader(message)] *)
Definition announceToScreenReader (message : string) : JS unit :=
  fun p => (Normal tt,
            {| app := app p; doc := doc p; alerts := alerts p;
               announcements := announcements p ++ [message];
               lastStamp := lastStamp p |}).

(** [joinNextCleanup()] *)
Definition joinNextCleanup : JS unit :=
  modify_app (fun a =>
    appState.set_nextCleanupParticipants (appState.nextCleanupParticipants a + 1) a) ;;
  st <- get_app ;;
  let n := appState.nextCleanupParticipants st in
  modify_doc (document.set_nextCleanupParticipants (show_Z n)) ;;
  alert (tpl ["✨ You're in! You've joined the Pasir Ris cleanup!"; nl; "👥 Total participants: "; show_Z n]) ;;
  announceToScreenReader (tpl ["You have joined the Pasir Ris cleanup. Total participants: "; show_Z n]).

(** ** Crew management *)

(** [loadMockData()] *)
Definition loadMockData : JS unit :=
  modify_app (appState.set_crews [
    {| CrewMember.id := 1; CrewMember.name := "Alex"; CrewMember.avatar := "👨‍🦱";
       CrewMember.cleanups := 12; CrewMember.itemsCollected := 450 |};
    {| CrewMember.id := 2; CrewMember.name := "Jordan"; CrewMember.avatar := "👩‍🦰";
       CrewMember.cleanups := 8; CrewMember.itemsCollected := 320 |};
    {| CrewMember.id := 3; CrewMember.name := "Morgan"; CrewMember.avatar := "🧑‍🦳";
       CrewMember.cleanups := 15; CrewMember.itemsCollected := 620 |};
    {| CrewMember.id := 4; CrewMember.name := "Casey"; CrewMember.avatar := "👩‍🦱";
       CrewMember.cleanups := 10; CrewMember.itemsCollected := 380 |};
    {| CrewMember.id := 5; CrewMember.name := "Riley"; CrewMember.avatar := "👨‍🦲";
       CrewMember.cleanups := 7; CrewMember.itemsCollected := 290 |}
  ]) ;;
  modify_app (appState.set_events [
    {| Event.id := "event-1"; Event.name := "Manhattan Beach Cleanup";
       Event.lat := 40.5731; Event.lng := -73.9712; Event.date := "2025-12-10";
       Event.time := Some "10:00 AM"; Event.participants := 24;
       Event.description := Some "Help us clean Manhattan Beach!"; Event.creator := None |};
    {| Event.id := "event-2"; Event.name := "Coney Island Coastal Cleanup";
       Event.lat := 40.5731; Event.lng := -73.9808; Event.date := "2025-12-15";
       Event.time := Some "2:00 PM"; Event.participants := 18;
       Event.description := Some "Join our Coney Island cleanup drive"; Event.creator := None |};
    {| Event.id := "event-3"; Event.name := "Rockaway Beach Restoration";
       Event.lat := 40.5755; Event.lng := -73.8185; Event.date := "2025-12-20";
       Event.time := Some "9:00 AM"; Event.participants := 31;
       Event.description := Some "Restore Rockaway Beach community event"; Event.creator := None |}
  ]).

(** One entry of the crew list. *)
Definition crewCard (member : CrewMember.t) : string :=
  tpl ["
        <li class="; dq; "crew-member"; dq; " role="; dq; "listitem"; dq; ">
            <div class="; dq; "crew-avatar"; dq; ">"; CrewMember.avatar member; "</div>
            <div class="; dq; "crew-name"; dq; ">"; CrewMember.name member; "</div>
            <div style="; dq; "font-size: 0.8rem; color: #7f8c8d;"; dq; ">
                "; show_Z (CrewMember.cleanups member); " cleanups
            </div>
        </li>
    "].

(** [crews.reduce((sum, c) => sum + f(c), 0)] *)
Definition reduce_sum (f : CrewMember.t -> Z) (crews : list CrewMember.t) : Z :=
  fold_left (fun sum c => sum + f c) crews 0.

(** [renderCrew()] *)
Definition renderCrew : JS unit :=
  st <- get_app ;;
  let crews := appState.crews st in
  modify_doc (document.set_crew
    (join (crewCard <$> crews))
    (show_Z (Z.of_nat (length crews)))
    (show_Z (reduce_sum CrewMember.cleanups crews))
    (show_Z (reduce_sum CrewMember.itemsCollected crews))).

(** ** Weather functionality *)

(** The dates of the platform: what [new Date(s)], [setDate], [getDay] and
    [toLocaleDateString] answer depends on the browser's time zone and
    locale data, so the program is read against any such implementation. *)
Class DateApi := {
  JsDate : Type;
  (** [new Date(s)]; [None] is an invalid date *)
  Date_parse : string -> option JsDate;
  (** [d.setDate(d.getDate() + i)] *)
  Date_plusDays : JsDate -> Z -> JsDate;
  (** [d.getDay()] *)
  Date_getDay : JsDate -> nat;
  (** [d.toLocaleDateString('en-SG')] *)
  Date_toLocaleDateString : JsDate -> string;
  (** [d.toLocaleDateString('en-SG', { month: 'short', day: 'numeric' })] *)
  Date_toLocaleDateString_short : JsDate -> string;
}.

Definition days : list string := ["Sun"; "Mon"; "Tue"; "Wed"; "Thu"; "Fri"; "Sat"].

(** The forecast resource: [{items: [{forecasts: [{date, forecast,
    temperature: {low, high}, wind: {direction, speed: {low, high}},
    relative_humidity: {low, high}}, ...]}]}]. Any property may be missing. *)
Module Range.
Record t := { low : option Z; high : option Z }.
End Range.

Module Wind.
Record t := { direction : option string; speed : option Range.t }.
End Wind.

Module Forecast.
Record t := {
  date : option string;
  forecast : option string;
  temperature : option Range.t;
  wind : option Wind.t;
  relative_humidity : option Range.t;
}.
End Forecast.

Module Item.
Record t := { forecasts : option (list Forecast.t) }.
End Item.

Module Data.
Record t := { items : option (list Item.t) }.
End Data.

(** What [response.json()] gives: a rejection when the body is no JSON,
    [null], or a value that is read for its [items] (a number, a string or
    an object without [items] reads as data with no [items]). *)
Inductive Body :=
| BodyInvalid
| BodyNull
| BodyData (data : Data.t).

(** What [fetch] gives: a rejection, or a response. *)
Inductive FetchResult :=
| FetchFailed (reason : string)
| FetchResponse (ok : bool) (status : Z) (body : Body).

(** Reading a property of [o]: a [TypeError] when [o] is [undefined]. *)
Definition access {A} (o : option A) : JS A :=
  match o with
  | Some a => ret a
  | None => throw (TypeError "Cannot read properties of undefined")
  end.

(** [xs.map(f)] for a callback that may throw. *)
Fixpoint mapM {A B} (f : A -> JS B) (xs : list A) : JS (list B) :=
  match xs with
  | [] => ret []
  | x :: rest => y <- f x ;; ys <- mapM f rest ;; ret (y :: ys)
  end.

(** [low > 10 ? '1.0-1.5m' : '0.5-1.0m'] *)
Definition waveHeight (low : option Z) : string :=
  if js_gt low 10 then "1.0-1.5m" else "0.5-1.0m".

(** An entry of the synthetic forecast. *)
Module Day.
Record t := {
  day : option string;
  date : string;
  condition : option string;
  high : Z;
  low : Z;
}.
End Day.

Definition forecastConditions : list string :=
  ["☀️ Sunny"; "⛅ Partly Cloudy"; "☁️ Cloudy"; "🌧️ Rainy"].

(** The current-conditions panel of the live path. *)
Definition liveWeatherHtml (currentTemp : number) (currentForecast : Forecast.t) : string :=
  tpl ["
                <div style="; dq; "display: grid; gap: 8px;"; dq; ">
                    <p><strong>"; show_number currentTemp; "°C</strong> - Current Temperature</p>
                    <p>📍 Singapore</p>
                    <p style="; dq; "font-size: 0.9rem; color: #2C3E50;"; dq; ">
                        "; show_str (Forecast.forecast currentForecast); "
                    </p>
                    <p style="; dq; "color: #2ecc71; font-weight: 500; margin-top: 8px;"; dq; ">✓ Live NEA Data</p>
                </div>
            "].

(** The water-conditions panel of the live path, from the first entry's
    [wind] and [wind.speed]. *)
Definition liveWaterHtml (avgTemp : number) (wind : Wind.t) (speed : Range.t) : string :=
  tpl ["
                <div style="; dq; "display: grid; gap: 8px;"; dq; ">
                    <p><strong>"; show_number (js_sub avgTemp 2); "°C</strong> Water Temperature</p>
                    <p>🌊 Wave Height: "; waveHeight (Range.low speed); "</p>
                    <p>💨 Wind: "; show_str (Wind.direction wind); " "; show_num (Range.low speed); "-"; show_num (Range.high speed); " km/h</p>
                    <p>👁️ Visibility: Good</p>
                    <p style="; dq; "color: #2ecc71; font-weight: 500; margin-top: 8px;"; dq; ">✓ Good for cleanup!</p>
                </div>
            "].

Section Weather.
Context `{DateApi}.

(** One row of the live forecast: the callback of [forecasts.slice(0, 4).map]. *)
Definition forecastRow (f : Forecast.t) : JS string :=
  let date := Forecast.date f ≫= Date_parse in
  let dayName := date ≫= fun d => days !! Date_getDay d in
  let dateStr := from_option Date_toLocaleDateString_short "Invalid Date" date in
  wind <- access (Forecast.wind f) ;;
  speed <- access (Wind.speed wind) ;;
  temperature <- access (Forecast.temperature f) ;;
  relative_humidity <- access (Forecast.relative_humidity f) ;;
  ret (tpl ["
                    <div style="; dq; "padding: 12px; border-bottom: 1px solid #eee; display: grid; grid-template-columns: 1fr 1fr; gap: 12px;"; dq; ">
                        <div>
                            <strong>"; show_str dayName; "</strong> "; dateStr; "
                            <p style="; dq; "font-size: 0.85rem; color: #2C3E50; margin-top: 4px;"; dq; ">
                                "; show_str (Forecast.forecast f); "
                            </p>
                        </div>
                        <div style="; dq; "text-align: right;"; dq; ">
                            <div style="; dq; "font-size: 0.85rem; color: #7f8c8d; margin-bottom: 4px;"; dq; ">
                                💨 "; show_num (Range.low speed); "-"; show_num (Range.high speed); " km/h
                            </div>
                            <div style="; dq; "font-weight: 600; color: #0077BE;"; dq; ">
                                "; show_num (Range.high temperature); "°C - "; show_num (Range.low temperature); "°C
                            </div>
                            <div style="; dq; "font-size: 0.8rem; color: #7f8c8d;"; dq; ">
                                💧 "; show_num (Range.low relative_humidity); "-"; show_num (Range.high relative_humidity); "%
                            </div>
                        </div>
                    </div>
                "]).

(** The body of the [try] block of [loadWeather], from the answer of [fetch]. *)
Definition loadWeather_try (response : FetchResult) : JS unit :=
  match response with
  | FetchFailed reason => throw (TypeError reason)
  | FetchResponse ok status body =>
      if negb ok then throw (Error (tpl ["API error: "; show_Z status])) else
      data <- match body with
              | BodyInvalid => throw (SyntaxError "Unexpected token in JSON")
              | BodyNull => throw (TypeError "Cannot read properties of null")
              | BodyData data => ret data
              end ;;
      match Data.items data with
      | Some (item :: _) =>
          let forecasts := default [] (Item.forecasts item) in
          currentForecast <- access (forecasts !! 0%nat) ;;
          temperature <- access (Forecast.temperature currentForecast) ;;
          let currentTemp :=
            Math_round_half (js_add (Range.high temperature) (Range.low temperature)) in
          modify_doc (document.set_weatherInfo (liveWeatherHtml currentTemp currentForecast)) ;;
          forecastHtml <- mapM forecastRow (take 4 forecasts) ;;
          modify_doc (document.set_forecastInfo (join forecastHtml)) ;;
          temperature <- access (Forecast.temperature currentForecast) ;;
          let avgTemp :=
            Math_round_half (js_add (Range.high temperature) (Range.low temperature)) in
          wind <- access (Forecast.wind currentForecast) ;;
          speed <- access (Wind.speed wind) ;;
          modify_doc (document.set_waterInfo (liveWaterHtml avgTemp wind speed))
      | _ => throw (Error "No forecast data available")
      end
  end.

(** [loadWeatherFallback(weatherInfo, forecastInfo, waterInfo)]: the
    synthetic forecast, built by the loop over [i = 0, 1, 2, 3]. [today]
    is [new Date()]. *)
Definition fallbackForecast (today : JsDate) : list Day.t :=
  fold_left (fun (forecast : list Day.t) (i : Z) =>
               let date := Date_plusDays today i in
               (forecast ++
                [{| Day.day := days !! Date_getDay date;
                    Day.date := Date_toLocaleDateString date;
                    Day.condition := forecastConditions !! Z.to_nat (i mod 4);
                    Day.high := 24 - i;
                    Day.low := 18 + i |}])%list)
            (seqZ 0 4) [].

Definition fallbackWeatherHtml : string :=
  let currentTemp := 22 in
  tpl ["
        <div style="; dq; "display: grid; gap: 8px;"; dq; ">
            <p><strong>"; show_Z currentTemp; "°C</strong> - Current Temperature</p>
            <p>📍 Singapore</p>
            <p style="; dq; "color: #7f8c8d; font-size: 0.9rem;"; dq; ">⚠️ Using demo data (API unavailable)</p>
            <p style="; dq; "color: #f39c12; font-weight: 500; margin-top: 8px;"; dq; ">Typical conditions for Singapore</p>
        </div>
    "].

Definition fallbackRow (day : Day.t) : string :=
  tpl ["
        <div style="; dq; "padding: 12px; border-bottom: 1px solid #eee; display: flex; justify-content: space-between; align-items: center;"; dq; ">
            <div>
                <strong>"; show_str (Day.day day); "</strong> "; Day.date day; "
            </div>
            <div style="; dq; "text-align: right;"; dq; ">
                <div style="; dq; "font-size: 0.95rem; color: #2C3E50; margin-bottom: 4px;"; dq; ">
                    "; show_str (Day.condition day); "
                </div>
                <div style="; dq; "font-size: 0.85rem; color: #7f8c8d;"; dq; ">
                    "; show_Z (Day.high day); "°C - "; show_Z (Day.low day); "°C
                </div>
            </div>
        </div>
    "].

Definition fallbackWaterHtml : string :=
  tpl ["
        <div style="; dq; "display: grid; gap: 8px;"; dq; ">
            <p><strong>20°C</strong> Water Temperature</p>
            <p>🌊 Wave Height: 0.5 - 1.0 m</p>
            <p>👁️ Visibility: Good</p>
            <p>💧 Current: Moderate</p>
            <p style="; dq; "color: #2ecc71; font-weight: 500; margin-top: 8px;"; dq; ">✓ Good for cleanup!</p>
        </div>
    "].

Definition loadWeatherFallback (today : JsDate) : JS unit :=
  let forecast := fallbackForecast today in
  modify_doc (document.set_weatherInfo fallbackWeatherHtml) ;;
  modify_doc (document.set_forecastInfo (join (fallbackRow <$> forecast))) ;;
  modify_doc (document.set_waterInfo fallbackWaterHtml).

(** [loadWeather()], resumed with the answer of [fetch]. *)
Definition loadWeather (response : FetchResult) (today : JsDate) : JS unit :=
  try_catch (loadWeather_try response) (fun error => loadWeatherFallback today).

End Weather.

(** ** Event listeners *)

(** The click handler of the call-to-action button. *)
Definition welcome : JS unit :=
  alert "🎉 Welcome to ShoreSquad! Explore the map, check weather, and join cleanup events.".

(** The click handler of the retry button of the static map view:
    [try { mapEl.innerHTML = ''; initializeMap(); renderEvents(); }
     catch (e) { console.warn(...) }]. Emptying the element takes the static
    view away, and the button with it. *)
Definition retryMap (leaflet : bool) : JS unit :=
  try_catch
    (modify_doc (document.set_mapEl MapEmptied) ;;
     initializeMap leaflet ;;
     renderEvents)
    (fun e => ret tt).

(** [x || y] on a coordinate and on a name: [0] and the empty string are
    falsy. *)
Definition or_Q (x y : Q) : Q := if Qeq_bool x 0 then y else x.

Definition or_string (x y : string) : string :=
  match x with EmptyString => y | _ => x end.

(** The static view of the [catch] block of the load handler: on the first
    event of the store when there is one, on Pasir Ris otherwise. *)
Definition staticView (events : list Event.t) : StaticView.t :=
  let defaultLat := 1.381497%Q in
  let defaultLng := 103.955574%Q in
  match events with
  | first :: _ =>
      {| StaticView.lat := or_Q (Event.lat first) defaultLat;
         StaticView.lng := or_Q (Event.lng first) defaultLng;
         StaticView.placeLabel := or_string (Event.name first) "Pasir Ris" |}
  | [] =>
      {| StaticView.lat := defaultLat; StaticView.lng := defaultLng;
         StaticView.placeLabel := "Pasir Ris" |}
  end.

(** The handler of [DOMContentLoaded]. When [initializeMap] throws, the
    [catch] block empties the map element and puts the static view with its
    retry button into it, and the handler goes on.
    [setupEventListeners()] only registers the handlers below, and
    [loadWeather()] starts the fetch, whose answer is handled later. *)
Definition onDOMContentLoaded (leaflet : bool) : JS unit :=
  try_catch (initializeMap leaflet)
    (fun err =>
       modify_doc (document.set_mapEl MapEmptied) ;;
       st <- get_app ;;
       modify_doc (document.set_mapEl (MapStatic (staticView (appState.events st))))) ;;
  loadMockData ;;
  renderCrew ;;
  renderEvents.

Section Actions.
Context `{DateApi}.

(** Everything the page does to its state: the calls made while it loads
    and the handlers run afterwards, each with what the platform hands it. *)
Inductive Action :=
| InitializeMap (leaflet : bool)
| RetryMap (leaflet : bool)
| LoadMockData
| LoadWeather (response : FetchResult) (today : JsDate)
| RenderCrew
| RenderEvents
| UserLocation (geo : Geolocation)
| CreateEventMarker (beachName eventDate : option string) (now : Z)
| JoinEvent (eventId : string)
| JoinNextCleanup
| Welcome.

Definition perform (a : Action) : JS unit :=
  match a with
  | InitializeMap leaflet => initializeMap leaflet
  | RetryMap leaflet => retryMap leaflet
  | LoadMockData => loadMockData
  | LoadWeather response today => loadWeather response today
  | RenderCrew => renderCrew
  | RenderEvents => renderEvents
  | UserLocation geo => userLocation geo
  | CreateEventMarker beachName eventDate now => createEventMarker beachName eventDate now
  | JoinEvent eventId => joinEvent eventId
  | JoinNextCleanup => joinNextCleanup
  | Welcome => welcome
  end.

(** A session: the actions run one after the other from the page as
    loaded. An action that throws ends there; what it wrote stays. *)
Definition run (actions : list Action) (p : Page) : Page :=
  fold_left (fun p a => exec (perform a) p) actions p.

Definition is_JoinNextCleanup (a : Action) : bool :=
  match a with JoinNextCleanup => true | _ => false end.
End Actions.

(** A calendar for examples: a date is a number of days since Thursday
    1 January 1970, written and read back in decimal. *)
Definition epochDays : DateApi :=
  {| JsDate := Z;
     Date_parse := fun s => Z.of_int <$> NilZero.int_of_string s;
     Date_plusDays := Z.add;
     Date_getDay := fun d => Z.to_nat ((d + 4) mod 7);
     Date_toLocaleDateString := show_Z;
     Date_toLocaleDateString_short := show_Z |}.

(** * Notions used in the statements *)

Local Open Scope list_scope.

(** The page once the map is up and the sample data is loaded, and the page
    with the sample data when the map could not be made. *)
Definition seededPage : Page := exec loadMockData (exec (initializeMap true) Page_init).
Definition seededPage_noMap : Page := exec loadMockData (exec (initializeMap false) Page_init).

(** The marker [addBeachMarker] builds for an event, given its stamp. *)
Definition markerOf (s : nat) (event : Event.t) : Marker.t :=
  {| Marker.stamp := s;
     Marker.position := {| lat := Event.lat event; lng := Event.lng event |};
     Marker.title := Event.name event;
     Marker.popup := popupContent (Event.name event) event |}.

(** The markers built for a list of events after stamp [s] was handed out. *)
Fixpoint markersFrom (s : nat) (evs : list Event.t) : list Marker.t :=
  match evs with
  | [] => []
  | event :: rest => markerOf (S s) event :: markersFrom (S s) rest
  end.

(** The map with more markers on it; the map without some markers. *)
Definition addLayers (new : list Marker.t) (m : LMap.t) : LMap.t :=
  {| LMap.center := LMap.center m; LMap.zoom := LMap.zoom m;
     LMap.tiles := LMap.tiles m; LMap.layers := LMap.layers m ++ new |}.

Definition removeLayers (old : list Marker.t) (m : LMap.t) : LMap.t :=
  {| LMap.center := LMap.center m; LMap.zoom := LMap.zoom m;
     LMap.tiles := LMap.tiles m;
     LMap.layers :=
       filter (fun x => Marker.stamp x ∉ Marker.stamp <$> old) (LMap.layers m) |}.

Definition eventsHtml (p : Page) : string :=
  join (eventCard <$> appState.events (app p)).

(** The page [renderEvents] leaves when there is a map [m]. *)
Definition rendered (p : Page) (m : LMap.t) : Page :=
  let evs := appState.events (app p) in
  let new := markersFrom (lastStamp p) evs in
  {| app := appState.set_markers new
              (appState.set_map
                 (Some (addLayers new (removeLayers (appState.markers (app p)) m)))
                 (app p));
     doc := document.set_eventsList (eventsHtml p) (doc p);
     alerts := alerts p; announcements := announcements p;
     lastStamp := (lastStamp p + length evs)%nat |}.

(** Leaflet hands out stamps in increasing order: the markers of the
    collection carry stamps handed out so far. Every page the program can
    reach is such ([run_well_stamped] below). *)
Definition well_stamped (p : Page) : Prop :=
  Forall (fun x => (Marker.stamp x <= lastStamp p)%nat) (appState.markers (app p)).

Definition doc_only {A} (c : JS A) : Prop :=
  forall p, exists d, exec c p = with_doc d p.

(** The fetch fails: the request is rejected, the status is not a success,
    or the body gives no array [items] with an entry in it. *)
Definition fetch_fails (response : FetchResult) : Prop :=
  match response with
  | FetchFailed _ => True
  | FetchResponse ok _ body =>
      ok = false \/
      match body with
      | BodyInvalid | BodyNull => True
      | BodyData data => Data.items data = None \/ Data.items data = Some []
      end
  end.

(** [data.items[0].forecasts[0]], when the answer has one. *)
Definition firstEntry (response : FetchResult) : option Forecast.t :=
  match response with
  | FetchResponse _ _ (BodyData data) =>
      items ← Data.items data; item ← head items;
      forecasts ← Item.forecasts item; head forecasts
  | _ => None
  end.

(** An answer of the forecast resource whose first entry has the given low
    wind speed. *)
Definition sampleForecast (low : Z) : Forecast.t :=
  {| Forecast.date := Some "20454";
     Forecast.forecast := Some "Afternoon thundery showers";
     Forecast.temperature := Some {| Range.low := Some 24; Range.high := Some 33 |};
     Forecast.wind :=
       Some {| Wind.direction := Some "NE";
               Wind.speed := Some {| Range.low := Some low; Range.high := Some 20 |} |};
     Forecast.relative_humidity :=
       Some {| Range.low := Some 60; Range.high := Some 95 |} |}.

Definition sampleResponse (low : Z) : FetchResult :=
  FetchResponse true 200
    (BodyData {| Data.items :=
                   Some [{| Item.forecasts := Some [sampleForecast low] |}] |}).

Definition nextCleanup (p : Page) : Z := appState.nextCleanupParticipants (app p).

(** * Further notions used in the statements *)

(** A computation keeps a relation between the page it starts from and the
    page it leaves, whether it returns or throws. *)
Definition preserves (R : relation Page) {A} (c : JS A) : Prop :=
  forall p, R p (exec c p).

(** The part [f] of the page is left as it was. *)
Definition frame {T} (f : Page -> T) : relation Page :=
  fun p p' => f p' = f p.

(** The three weather panels, and the four elements of the crew section. *)
Definition weatherPanels (p : Page) : string * string * string :=
  (document.weatherInfo (doc p), document.forecastInfo (doc p),
   document.waterInfo (doc p)).

Definition crewPanel (p : Page) : string * string * string * string :=
  (document.crewList (doc p), document.totalCrew (doc p),
   document.cleanupCount (doc p), document.itemsCollected (doc p)).

(** The page shows the store: the events list is the text made from the
    event collection, and the markers collection has, in order, the marker of
    each event. *)
Definition shows_store (p : Page) : Prop :=
  document.eventsList (doc p) = eventsHtml p /\
  Marker.content <$> appState.markers (app p)
  = Marker.content ∘ markerOf 0 <$> appState.events (app p).

(** The dialog of [joinEvent], for the event as incremented. *)
Definition joinAlert (event : Event.t) : string :=
  tpl ["✨ Great! You joined "; dq; Event.name event; dq; "!"; nl; "👥 Total participants: "; show_Z (Event.participants event)].

(** The dialog of [createEventMarker]. *)
Definition createAlert (beachName : string) : string :=
  tpl ["✨ Event created: "; beachName].

(** The message [joinNextCleanup] gives to the screen reader at count [n]. *)
Definition nextCleanupAnnouncement (n : Z) : string :=
  tpl ["You have joined the Pasir Ris cleanup. Total participants: "; show_Z n].

(** Two events made at the same clock reading, after the sample data. *)
Definition twiceAtOneReading : Page :=
  exec (createEventMarker (Some "Sentosa") (Some "2026-01-17") 1767000000000)
    (exec (createEventMarker (Some "East Coast Park") (Some "2026-01-10") 1767000000000)
       seededPage).

(** Stamps handed out so far: the markers of the collection, the layers on
    the map and the user's marker carry none beyond [lastStamp]. *)
Definition stamped (p : Page) : Prop :=
  Forall (fun x => (Marker.stamp x <= lastStamp p)%nat) (appState.markers (app p)) /\
  (forall m, appState.map (app p) = Some m ->
             Forall (fun x => (Marker.stamp x <= lastStamp p)%nat) (LMap.layers m)) /\
  (forall u, appState.userMarker (app p) = Some u ->
             (Marker.stamp u <= lastStamp p)%nat).

(** A forecast entry has what a row of the forecast reads: [wind],
    [wind.speed], [temperature] and [relative_humidity]. *)
Definition entry_ok (f : Forecast.t) : bool :=
  match Forecast.wind f with
  | Some wind => match Wind.speed wind with Some _ => true | None => false end
  | None => false
  end
  && match Forecast.temperature f with Some _ => true | None => false end
  && match Forecast.relative_humidity f with Some _ => true | None => false end.

(** The forecasts of the first item of an answer. *)
Definition forecastsOf (response : FetchResult) : list Forecast.t :=
  match response with
  | FetchResponse _ _ (BodyData data) =>
      match Data.items data with
      | Some (item :: _) => default [] (Item.forecasts item)
      | _ => []
      end
  | _ => []
  end.

(** The answer is a success whose first item has forecasts, and each of the
    first four of them has what a row reads. *)
Definition live_ok (response : FetchResult) : bool :=
  match response with
  | FetchResponse true _ (BodyData _) =>
      match forecastsOf response with
      | [] => false
      | forecasts => forallb entry_ok (take 4 forecasts)
      end
  | _ => false
  end.

(** The answer with the forecasts of its first item cut after the fourth. *)
Definition firstFour (response : FetchResult) : FetchResult :=
  match response with
  | FetchResponse ok status (BodyData data) =>
      FetchResponse ok status
        (BodyData {| Data.items :=
           match Data.items data with
           | Some (item :: rest) =>
               Some ({| Item.forecasts := take 4 <$> Item.forecasts item |} :: rest)
           | other => other
           end |})
  | other => other
  end.

(** An answer whose only entry has no [temperature.low], no wind readings
    and no humidity readings (the objects are there, their fields are not). *)
Definition partialResponse : FetchResult :=
  FetchResponse true 200
    (BodyData
       {| Data.items :=
            Some [{| Item.forecasts :=
                       Some [{| Forecast.date := None;
                                Forecast.forecast := None;
                                Forecast.temperature :=
                                  Some {| Range.low := None; Range.high := Some 33 |};
                                Forecast.wind :=
                                  Some {| Wind.direction := None;
                                          Wind.speed :=
                                            Some {| Range.low := None;
                                                    Range.high := None |} |};
                                Forecast.relative_humidity :=
                                  Some {| Range.low := None; Range.high := None |} |}] |}] |}).

(** The map holds nothing stale: no marker is on it twice, every marker on
    it is in the markers collection or is the user's marker, and the user's
    marker is none of the collection's. *)
Definition tidy (p : Page) : Prop :=
  (forall m, appState.map (app p) = Some m ->
     NoDup (Marker.stamp <$> LMap.layers m) /\
     forall l, l ∈ LMap.layers m ->
       l ∈ appState.markers (app p) \/ appState.userMarker (app p) = Some l) /\
  (forall u, appState.userMarker (app p) = Some u ->
     Marker.stamp u ∉ Marker.stamp <$> appState.markers (app p)).

(** The marker [userLocation] makes, given its stamp. *)
Definition userMarkerAt (s : nat) (here : LatLng) : Marker.t :=
  {| Marker.stamp := s; Marker.position := here;
     Marker.title := "Your Location"; Marker.popup := "📍 You are here" |}.

(** The page [userLocation] leaves when a position is found and there is a
    map [m]. *)
Definition located (p : Page) (m : LMap.t) (here : LatLng) : Page :=
  let marker := userMarkerAt (S (lastStamp p)) here in
  let cleared := match appState.userMarker (app p) with
                 | Some old => LMap.removeLayer old m
                 | None => m
                 end in
  {| app := appState.set_map (Some (LMap.setView here 12 (LMap.addLayer marker cleared)))
              (appState.set_userMarker (Some marker)
                 (appState.set_userLocation (Some here) (app p)));
     doc := doc p; alerts := alerts p; announcements := announcements p;
     lastStamp := S (lastStamp p) |}.

(** The user's marker, when there is one and there is a map, is on the map. *)
Definition user_marker_shown (p : Page) : Prop :=
  forall u m,
    appState.userMarker (app p) = Some u -> appState.map (app p) = Some m ->
    u ∈ LMap.layers m.

(** The actions that make a new map. *)
Definition makes_map `{DateApi} (a : Action) : bool :=
  match a with InitializeMap _ | RetryMap _ => true | _ => false end.

(** A session in which the user is located twice, once the page is loaded. *)
Definition locatedPage : Page :=
  exec (userLocation (GeoPosition 1.3521 103.8198))
    (exec (userLocation (GeoPosition 1.3 103.8)) (exec renderEvents seededPage)).

(** Kinds of actions. *)
Definition is_RenderCrew `{DateApi} (a : Action) : bool :=
  match a with RenderCrew => true | _ => false end.

Definition is_LoadWeather `{DateApi} (a : Action) : bool :=
  match a with LoadWeather _ _ => true | _ => false end.

Definition is_LoadMockData `{DateApi} (a : Action) : bool :=
  match a with LoadMockData => true | _ => false end.

Definition is_JoinEvent_of `{DateApi} (eventId : string) (a : Action) : bool :=
  match a with JoinEvent x => bool_decide (x = eventId) | _ => false end.

(** The actions that write to the event collection. *)
Definition writes_events `{DateApi} (a : Action) : bool :=
  match a with
  | LoadMockData | JoinEvent _ | CreateEventMarker _ _ _ => true
  | _ => false
  end.

(** The sum of a list of numbers. *)
Definition total (xs : list Z) : Z := foldr Z.add 0 xs.

(** The three counters of the crew panel. *)
Definition crewCounters (p : Page) : string * string * string :=
  (document.totalCrew (doc p), document.cleanupCount (doc p),
   document.itemsCollected (doc p)).

(** The seeded page with the crew in the opposite order. *)
Definition seededPage_reversed : Page :=
  with_app (appState.set_crews (reverse (appState.crews (app seededPage)))
              (app seededPage)) seededPage.

(** The page the load handler leaves when the map could not be made: the
    static view, with its retry button, is in the map element. *)
Definition staticPage : Page := exec (onDOMContentLoaded false) Page_init.

(** [n] is the beginning of [h]. *)
Definition begins (n h : string) : Prop := exists rest, h = String.append n rest.

(** Readings that the page's arithmetic, which is on doubles, adds, halves
    and prints exactly: integers up to 2^52 in size. *)
Definition safe (reading : option Z) : Prop :=
  match reading with Some z => - 2 ^ 52 <= z <= 2 ^ 52 | None => True end.

Definition safe_range (range : option Range.t) : Prop :=
  match range with
  | Some r => safe (Range.low r) /\ safe (Range.high r)
  | None => True
  end.

Definition safe_entry (f : Forecast.t) : Prop :=
  safe_range (Forecast.temperature f) /\
  safe_range (Forecast.wind f ≫= Wind.speed) /\
  safe_range (Forecast.relative_humidity f).

(** The readings of the entries that [loadWeather] reads are safe. *)
Definition safe_readings (response : FetchResult) : Prop :=
  Forall safe_entry (take 4 (forecastsOf response)).

(** [rows] are, in order, what the callback of the forecast returns for the
    entries [fs]. *)
Definition rows_of `{DateApi} (fs : list Forecast.t) (rows : list string) : Prop :=
  Forall2 (fun f row => forall q, forecastRow f q = (Normal row, q)) fs rows.

(** * Properties *)


(** ** Running a computation *)

Lemma bind_Normal {A B} (c : JS A) (k : A -> JS B) p a p' :
  c p = (Normal a, p') -> bind c k p = k a p'.
Proof. intros E. unfold bind. by rewrite E. Qed.

Lemma with_map_Some {A} (k : LMap.t -> JS A) p m :
  appState.map (app p) = Some m -> with_map k p = k m p.
Proof. intros E. unfold with_map, bind, get_app. by rewrite E. Qed.

Lemma with_map_None {A} (k : LMap.t -> JS A) p :
  appState.map (app p) = None ->
  with_map k p = (Throw (TypeError "appState.map is null"), p).
Proof. intros E. unfold with_map, bind, get_app. by rewrite E. Qed.

(** ** The markers of the events *)

Lemma markersFrom_length s evs : length (markersFrom s evs) = length evs.
Proof. revert s. induction evs as [|e evs IH]; intros s; simpl; [done | by rewrite IH]. Qed.

Lemma markersFrom_content s evs :
  Marker.content <$> markersFrom s evs = Marker.content ∘ markerOf 0 <$> evs.
Proof. revert s. induction evs as [|e evs IH]; intros s; simpl; [done | by rewrite IH]. Qed.

Lemma markersFrom_lookup s evs i :
  markersFrom s evs !! i = markerOf (S (s + i)) <$> evs !! i.
Proof.
  revert s i. induction evs as [|e evs IH]; intros s [|i]; simpl; try done.
  - by rewrite Nat.add_0_r.
  - rewrite IH. by rewrite Nat.add_succ_r.
Qed.

Lemma markersFrom_stamp s evs x :
  x ∈ markersFrom s evs -> (s < Marker.stamp x)%nat.
Proof.
  revert s. induction evs as [|e evs IH]; intros s; simpl.
  - by intros ?%elem_of_nil.
  - intros [->|Hx]%elem_of_cons; [simpl; lia|]. apply IH in Hx. lia.
Qed.

Lemma addBeachMarker_Some p m lat0 lng0 name event :
  appState.map (app p) = Some m ->
  let marker := {| Marker.stamp := S (lastStamp p);
                   Marker.position := {| lat := lat0; lng := lng0 |};
                   Marker.title := name;
                   Marker.popup := popupContent name event |} in
  addBeachMarker lat0 lng0 name event p
  = (Normal marker,
     {| app := appState.set_markers (appState.markers (app p) ++ [marker])
                 (appState.set_map (Some (LMap.addLayer marker m)) (app p));
        doc := doc p; alerts := alerts p; announcements := announcements p;
        lastStamp := S (lastStamp p) |}).
Proof.
  intros Hm marker. unfold addBeachMarker. by rewrite (with_map_Some _ _ m Hm).
Qed.

Lemma addBeachMarker_None p lat0 lng0 name event :
  appState.map (app p) = None ->
  addBeachMarker lat0 lng0 name event p = (Throw (TypeError "appState.map is null"), p).
Proof. intros Hm. unfold addBeachMarker. by rewrite with_map_None. Qed.

(** The loop [appState.events.forEach(event => addBeachMarker(...))] on a
    page that has a map. *)
Lemma forEach_addBeachMarker evs : forall p m,
  appState.map (app p) = Some m ->
  forEach evs (fun event =>
    _ <- addBeachMarker (Event.lat event) (Event.lng event) (Event.name event) event ;;
    ret tt) p
  = (Normal tt,
     {| app := appState.set_markers
                 (appState.markers (app p) ++ markersFrom (lastStamp p) evs)
                 (appState.set_map
                    (Some (addLayers (markersFrom (lastStamp p) evs) m)) (app p));
        doc := doc p; alerts := alerts p; announcements := announcements p;
        lastStamp := (lastStamp p + length evs)%nat |}).
Proof.
  induction evs as [|e evs IH]; intros p m Hm.
  - destruct p as [a d al an ls]; destruct a; destruct m; simpl in *; subst.
    unfold ret, addLayers, appState.set_markers, appState.set_map; simpl.
    by rewrite !app_nil_r, Nat.add_0_r.
  - cbn [forEach].
    erewrite bind_Normal;
      [|erewrite bind_Normal; [reflexivity | by apply addBeachMarker_Some]].
    erewrite IH; [|reflexivity].
    destruct p as [a d al an ls]; destruct a; destruct m; simpl in *; subst.
    unfold addLayers, appState.set_markers, appState.set_map; cbn -[popupContent].
    fold (markerOf (S ls) e).
    rewrite <- !app_assoc. simpl. by rewrite Nat.add_succ_r.
Qed.

Lemma filter_all {A} (P : A -> Prop) `{forall x, Decision (P x)} (l : list A) :
  Forall P l -> filter P l = l.
Proof.
  induction 1 as [|x l Hx _ IH]; [done|].
  rewrite filter_cons. destruct (decide (P x)); [by rewrite IH | done].
Qed.

Lemma removeLayers_nil m : removeLayers [] m = m.
Proof.
  destruct m as [c z t l]. unfold removeLayers; simpl. f_equal.
  apply filter_all, Forall_forall. intros x _. apply not_elem_of_nil.
Qed.

Lemma removeLayers_cons marker old m :
  removeLayers (marker :: old) m = removeLayers old (LMap.removeLayer marker m).
Proof.
  destruct m as [c z t l]. unfold removeLayers, LMap.removeLayer; simpl. f_equal.
  rewrite list_filter_filter. apply list_filter_iff. intros x.
  rewrite not_elem_of_cons. tauto.
Qed.

(** The loop [appState.markers.forEach(marker => appState.map.removeLayer(marker))]
    on a page that has a map. *)
Lemma forEach_removeLayer old : forall p m,
  appState.map (app p) = Some m ->
  forEach old (fun marker =>
    with_map (fun m => modify_app (appState.set_map (Some (LMap.removeLayer marker m))))) p
  = (Normal tt, with_app (appState.set_map (Some (removeLayers old m)) (app p)) p).
Proof.
  induction old as [|x old IH]; intros p m Hm.
  - rewrite removeLayers_nil. destruct p as [a d al an ls]; destruct a.
    simpl in *. by subst.
  - cbn [forEach].
    erewrite bind_Normal; [|by rewrite (with_map_Some _ _ m Hm)].
    erewrite IH; [|reflexivity].
    rewrite removeLayers_cons. by destruct p as [a d al an ls]; destruct a.
Qed.

(** ** [renderEvents] *)

Lemma renderEvents_Some p m :
  appState.map (app p) = Some m -> renderEvents p = (Normal tt, rendered p m).
Proof.
  intros Hm. unfold renderEvents.
  erewrite bind_Normal; [|reflexivity].
  erewrite bind_Normal; [|reflexivity].
  erewrite bind_Normal; [|by apply (forEach_removeLayer _ _ m)].
  erewrite bind_Normal; [|reflexivity].
  erewrite forEach_addBeachMarker; [|reflexivity].
  by destruct p as [a d al an ls]; destruct a.
Qed.

(** Without a map the list is written, and then the first use of the map
    throws: no marker is removed or made. *)
Lemma renderEvents_None p :
  appState.map (app p) = None ->
  exec renderEvents p = with_doc (document.set_eventsList (eventsHtml p) (doc p)) p /\
  (outcome renderEvents p = Normal tt <->
   appState.markers (app p) = [] /\ appState.events (app p) = []).
Proof.
  intros Hm. unfold exec, outcome, renderEvents.
  erewrite bind_Normal; [|reflexivity].
  erewrite bind_Normal; [|reflexivity].
  destruct p as [a d al an ls]; destruct a as [mp ul cr evs ms um n].
  simpl in Hm; subst mp.
  destruct ms as [|x ms]; [destruct evs as [|e evs]|]; cbn; split;
    try reflexivity; try (split; [discriminate | intros [??]; discriminate]).
  by split.
Qed.

Lemma renderEvents_events p :
  appState.events (app (exec renderEvents p)) = appState.events (app p).
Proof.
  destruct (appState.map (app p)) as [m|] eqn:Hm.
  - unfold exec. by rewrite (renderEvents_Some p m Hm).
  - by rewrite (proj1 (renderEvents_None p Hm)).
Qed.

Lemma renderEvents_eventsList p :
  document.eventsList (doc (exec renderEvents p)) = eventsHtml p.
Proof.
  destruct (appState.map (app p)) as [m|] eqn:Hm.
  - unfold exec. by rewrite (renderEvents_Some p m Hm).
  - by rewrite (proj1 (renderEvents_None p Hm)).
Qed.

(** What follows [renderEvents] in a handler is an [alert], which leaves
    [appState] alone, or nothing when [renderEvents] threw. *)
Lemma renderEvents_then_alert_app msg p :
  app (exec (renderEvents ;; alert msg) p) = app (exec renderEvents p).
Proof.
  unfold exec, bind. by destruct (renderEvents p) as [[[]|e] p'].
Qed.

(** ** [joinEvent] *)

Lemma joinEvent_found p eventId i event :
  list_find (fun e => Event.id e = eventId) (appState.events (app p)) = Some (i, event) ->
  appState.events (app (exec (joinEvent eventId) p))
  = <[i:=Event.join event]> (appState.events (app p)).
Proof.
  intros Hfind. unfold exec, joinEvent.
  rewrite (bind_Normal get_app _ p (app p) p) by reflexivity.
  rewrite Hfind. cbv zeta.
  erewrite bind_Normal; [|reflexivity].
  match goal with
  | |- context [(bind renderEvents ?k ?q).2] =>
      change ((bind renderEvents k q).2) with (exec (bind renderEvents k) q)
  end.
  rewrite renderEvents_then_alert_app, renderEvents_events.
  by destruct p as [[] ? ? ? ?].
Qed.

Lemma joinEvent_not_found p eventId :
  list_find (fun e => Event.id e = eventId) (appState.events (app p)) = None ->
  joinEvent eventId p = (Normal tt, p).
Proof.
  intros Hfind. unfold joinEvent.
  rewrite (bind_Normal get_app _ p (app p) p) by reflexivity.
  by rewrite Hfind.
Qed.

(** C1. For an id that some event of the store carries, [joinEvent(id)]
    adds exactly 1 to the [participants] of the first event with that id,
    leaves its other fields as they were, and changes no other event of the
    collection; for an id no event carries, [joinEvent(id)] returns with the
    whole page (store, document, dialogs) unchanged. *)
Theorem joinEvent_increments (p : Page) (eventId : string) :
  let p' := exec (joinEvent eventId) p in
  (eventId ∈ Event.id <$> appState.events (app p) ->
   exists (i : nat) (event : Event.t),
     appState.events (app p) !! i = Some event /\
     Event.id event = eventId /\
     (forall j e, (j < i)%nat -> appState.events (app p) !! j = Some e ->
                  Event.id e <> eventId) /\
     appState.events (app p') !! i = Some (Event.join event) /\
     Event.participants (Event.join event) = Event.participants event + 1 /\
     (forall j, j <> i ->
                appState.events (app p') !! j = appState.events (app p) !! j) /\
     length (appState.events (app p')) = length (appState.events (app p))) /\
  (eventId ∉ Event.id <$> appState.events (app p) ->
   joinEvent eventId p = (Normal tt, p)).
Proof.
  intros p'; subst p'.
  destruct (list_find (fun e => Event.id e = eventId) (appState.events (app p)))
    as [[i event]|] eqn:Hfind.
  - rewrite (joinEvent_found _ _ _ _ Hfind).
    apply list_find_Some in Hfind as (Hi & Hid & Hfirst). split.
    + intros _. exists i, event. split; [done|]. split; [done|]. split; [eauto|].
      split; [apply list_lookup_insert_eq; by eapply lookup_lt_Some|].
      split; [done|]. split; [|apply length_insert].
      intros j Hj. by apply list_lookup_insert_ne.
    + intros Hnot. exfalso. apply Hnot.
      apply list_elem_of_fmap. exists event. split; [done|].
      by eapply list_elem_of_lookup_2.
  - split; [|intros _; by apply joinEvent_not_found].
    intros (e & He & Hin)%list_elem_of_fmap. exfalso.
    apply list_find_None in Hfind. rewrite Forall_forall in Hfind.
    by apply (Hfind e).
Qed.
Lemma joinEvent_increments_witness :
  exists (i : nat) (event : Event.t),
    appState.events (app seededPage) !! i = Some event /\
    Event.id event = "event-2" /\
    Event.participants event = 18 /\
    appState.events (app (exec (joinEvent "event-2") seededPage)) !! i
    = Some (Event.join event) /\
    Event.participants (Event.join event) = 19.
Proof.
  destruct (joinEvent_increments seededPage "event-2") as [Hfound _].
  destruct Hfound as (i & event & Hi & Hid & Hfirst & Hi' & Hp & _).
  { vm_compute. apply list_elem_of_In. simpl. tauto. }
  exists i, event.
  assert (i = 1%nat) as ->.
  { destruct i as [|[|[|i]]]; vm_compute in Hi; inversion Hi; subst;
      vm_compute in Hid; congruence. }
  vm_compute in Hi. inversion Hi; subst. repeat split; try done.
Defined.

(** The scenario of the seeded store: after [joinEvent('event-2')] the counts
    are 24, 19 and 31, and the map shows three event markers. *)
Example joinEvent_scenario :
  let p := exec (joinEvent "event-2") seededPage in
  Event.participants <$> appState.events (app p) = [24; 19; 31] /\
  length (appState.markers (app p)) = 3%nat /\
  (LMap.layers <$> appState.map (app p)) = Some (appState.markers (app p)).
Proof. vm_compute. done. Qed.

(** ** [renderEvents] is a projection of the store *)

(** C6. Two consecutive calls of [renderEvents], with nothing done to the
    store in between, leave the same rendered output: the document after the
    second call is the document after the first (so the events list is the
    same text, byte for byte), the markers collection has the same markers in
    the same order (position, title and popup; only the identity of the
    marker objects is new), and the second call completes as the first did. *)
Theorem renderEvents_twice (p : Page) :
  let p1 := exec renderEvents p in
  let p2 := exec renderEvents p1 in
  doc p2 = doc p1 /\
  document.eventsList (doc p2) = document.eventsList (doc p1) /\
  Marker.content <$> appState.markers (app p2)
  = Marker.content <$> appState.markers (app p1) /\
  outcome renderEvents p1 = outcome renderEvents p.
Proof.
  intros p1 p2; subst p1 p2.
  destruct (appState.map (app p)) as [m|] eqn:Hm.
  - unfold exec, outcome. rewrite (renderEvents_Some p m Hm).
    erewrite renderEvents_Some; [|by destruct p as [[] ? ? ? ?]].
    destruct p as [[mp ul cr evs ms um n] d al an ls]. cbn -[markersFrom eventCard].
    rewrite !markersFrom_content. by destruct d.
  - destruct (renderEvents_None p Hm) as [-> Hout].
    destruct (renderEvents_None
                (with_doc (document.set_eventsList (eventsHtml p) (doc p)) p))
      as [-> Hout']; [by destruct p as [[] ? ? ? ?]|].
    split; [by destruct p as [[] [] ? ? ?]|].
    split; [by destruct p as [[] [] ? ? ?]|].
    split; [by destruct p as [[] [] ? ? ?]|].
    unfold outcome, renderEvents.
    destruct p as [[mp ul cr evs ms um n] d al an ls]. simpl in Hm; subst mp.
    unfold bind; cbn -[eventCard].
    destruct ms as [|x ms]; [destruct evs as [|e evs]|]; reflexivity.
Qed.

(** ** [createEventMarker] *)

(** C7. When the name prompt or the date prompt yields nothing (cancelled, or
    the empty string), [createEventMarker] returns with the page unchanged:
    the event collection is the same, and so is the markers collection and
    the map. *)
Theorem createEventMarker_aborts (p : Page) (beachName eventDate : option string) (now : Z) :
  (beachName = None \/ beachName = Some EmptyString) \/
  (eventDate = None \/ eventDate = Some EmptyString) ->
  createEventMarker beachName eventDate now p = (Normal tt, p) /\
  appState.events (app (exec (createEventMarker beachName eventDate now) p))
  = appState.events (app p) /\
  appState.markers (app (exec (createEventMarker beachName eventDate now) p))
  = appState.markers (app p).
Proof.
  intros Hin.
  assert (Hret : createEventMarker beachName eventDate now p = (Normal tt, p)).
  { unfold createEventMarker.
    destruct Hin as [[->| ->]|[->| ->]]; try reflexivity;
      destruct (falsy beachName); reflexivity. }
  unfold exec. by rewrite Hret.
Qed.

Lemma createEventMarker_aborts_witness :
  createEventMarker (Some EmptyString) (Some "2025-01-01") 1735689600000 seededPage
  = (Normal tt, seededPage) /\
  length (appState.events
            (app (exec (createEventMarker (Some EmptyString) (Some "2025-01-01")
                          1735689600000) seededPage))) = 3%nat.
Proof.
  destruct (createEventMarker_aborts seededPage (Some EmptyString) (Some "2025-01-01")
              1735689600000) as (Hret & Hev & _).
  { left. right. reflexivity. }
  split; [exact Hret|]. rewrite Hev. reflexivity.
Defined.

(** ** The markers after [renderEvents] *)

(** The load handler ends like a session of its four calls, begun with
    the static view in the map element when the map could not be made. *)
Lemma onDOMContentLoaded_exec leaflet p :
  exec (onDOMContentLoaded leaflet) p
  = exec renderEvents
      (exec renderCrew
         (exec loadMockData
            (if leaflet then exec (initializeMap true) p
             else with_doc
                    (document.set_mapEl (MapStatic (staticView (appState.events (app p))))
                       (doc p)) p))).
Proof. destruct leaflet; [done|]. by destruct p as [? [] ? ? ?]. Qed.

(** C8, as the claim is worded, fails when the map could not be made. The
    page is the one the load handler has made when [initializeMap] has
    thrown and the sample data is loaded: [appState.map] is still [null] and
    the three sample events are in the store. [renderEvents] writes the
    events list, then the first [addBeachMarker] throws: the call does not
    return, and the markers collection stays empty beside three events. The
    load handler itself ends that way. *)
Lemma renderEvents_without_map :
  let p := seededPage_noMap in
  let p' := exec renderEvents p in
  appState.map (app p) = None /\
  length (appState.events (app p')) = 3%nat /\
  appState.markers (app p') = [] /\
  (exists e, outcome renderEvents p = Throw e) /\
  appState.markers (app (exec (onDOMContentLoaded false) Page_init)) = [] /\
  length (appState.events (app (exec (onDOMContentLoaded false) Page_init))) = 3%nat.
Proof. vm_compute. repeat split; try done. by eexists. Qed.

(** C8, amended. On a page that has its map, every call of [renderEvents]
    returns and leaves in the markers collection exactly one marker per event
    of the store, in the order of the event collection, each built from its
    event by [addBeachMarker] with the next stamp; the events are untouched;
    and the map then carries its former layers, less every marker that was in
    the collection before the call, followed by the new markers. None of the
    former markers is on the map any more. *)
Theorem renderEvents_markers (p : Page) (m : LMap.t) :
  appState.map (app p) = Some m ->
  well_stamped p ->
  let p' := exec renderEvents p in
  outcome renderEvents p = Normal tt /\
  appState.events (app p') = appState.events (app p) /\
  length (appState.markers (app p')) = length (appState.events (app p')) /\
  (forall i : nat,
     appState.markers (app p') !! i
     = markerOf (S (lastStamp p + i)) <$> appState.events (app p') !! i) /\
  exists m',
    appState.map (app p') = Some m' /\
    LMap.layers m'
    = filter (fun x => Marker.stamp x ∉ Marker.stamp <$> appState.markers (app p))
        (LMap.layers m) ++ appState.markers (app p') /\
    forall old, old ∈ appState.markers (app p) -> old ∉ LMap.layers m'.
Proof.
  intros Hm Hstamps p'; subst p'. unfold well_stamped in Hstamps. unfold exec, outcome.
  rewrite (renderEvents_Some p m Hm).
  destruct p as [[mp ul cr evs ms um n] d al an ls]. simpl in Hm, Hstamps; subst mp.
  cbn -[markersFrom eventCard filter].
  split; [done|]. split; [done|].
  split; [apply markersFrom_length|].
  split; [apply markersFrom_lookup|].
  eexists. split; [reflexivity|]. cbn -[markersFrom filter]. split; [done|].
  intros old Hold [Hin|Hin]%elem_of_app.
  - apply list_elem_of_filter in Hin as [Hnot _]. apply Hnot.
    apply list_elem_of_fmap. by exists old.
  - apply markersFrom_stamp in Hin.
    rewrite Forall_forall in Hstamps. specialize (Hstamps old Hold). lia.
Qed.

Lemma renderEvents_markers_witness :
  outcome renderEvents seededPage = Normal tt /\
  length (appState.events (app seededPage)) = 3%nat /\
  length (appState.markers (app (exec renderEvents seededPage))) = 3%nat.
Proof.
  destruct (appState.map (app seededPage)) as [m|] eqn:Hm; [|vm_compute in Hm; discriminate].
  destruct (renderEvents_markers seededPage m Hm) as (Hout & Hev & Hlen & _).
  { vm_compute. constructor. }
  split; [exact Hout|]. rewrite Hlen, Hev. split; reflexivity.
Defined.

(** ** The id of a created event *)

Lemma show_Z_inj (a b : Z) : show_Z a = show_Z b -> a = b.
Proof.
  unfold show_Z. intros E. apply to_int_inj.
  assert (Hnil : forall z, Z.to_int z <> Decimal.Pos Decimal.Nil /\
                           Z.to_int z <> Decimal.Neg Decimal.Nil).
  { intros [|q|q]; simpl; split; try discriminate;
      intros [=Hq]; by apply DecimalPos.Unsigned.to_uint_nonnil in Hq. }
  apply (f_equal NilZero.int_of_string) in E.
  rewrite !NilZero.isi in E by apply Hnil. congruence.
Qed.

(** Two clock readings give the same id only if they are the same reading. *)
Lemma event_id_inj (t t' : Z) : event_id t = event_id t' -> t = t'.
Proof.
  unfold event_id, tpl. cbn [foldr]. intros E. apply show_Z_inj.
  assert (Hnil : forall x : string, String.append x EmptyString = x).
  { induction x as [|c x IH]; [done|].
    change (String c (String.append x EmptyString) = String c x). by rewrite IH. }
  rewrite !Hnil in E. by injection E.
Qed.

(** The seeded ids are the ids of the readings 1, 2 and 3. *)
Example seeded_ids :
  Event.id <$> appState.events (app seededPage) = [event_id 1; event_id 2; event_id 3].
Proof. reflexivity. Qed.

Lemma falsy_Some (s : string) : s <> EmptyString -> falsy (Some s) = false.
Proof. by destruct s. Qed.

(** What a creation with both answers given does to the event collection,
    on a page that has its map. *)
Lemma createEventMarker_events p m beachName eventDate now :
  appState.map (app p) = Some m ->
  beachName <> EmptyString -> eventDate <> EmptyString ->
  appState.events (app (exec (createEventMarker (Some beachName) (Some eventDate) now) p))
  = appState.events (app p) ++
    [{| Event.id := event_id now; Event.name := beachName;
        Event.lat := lat (LMap.center m); Event.lng := lng (LMap.center m);
        Event.date := eventDate; Event.time := None; Event.participants := 1;
        Event.description := None; Event.creator := Some "You" |}].
Proof.
  intros Hm Hn Hd. unfold exec, createEventMarker.
  rewrite (falsy_Some _ Hn), (falsy_Some _ Hd). cbv zeta.
  rewrite (with_map_Some _ _ m Hm). simpl default.
  erewrite bind_Normal; [|reflexivity].
  erewrite bind_Normal;
    [|apply (addBeachMarker_Some _ m); by destruct p as [[] ? ? ? ?]].
  match goal with
  | |- context [(bind renderEvents ?k ?q).2] =>
      change ((bind renderEvents k q).2) with (exec (bind renderEvents k) q)
  end.
  rewrite renderEvents_then_alert_app, renderEvents_events.
  by destruct p as [[] ? ? ? ?].
Qed.

(** C2, as the claim is worded, fails: the id is made from the clock reading
    alone, and nothing compares it with the ids in the store. Two creations
    that read the same clock value give the second event the id of the
    first. *)
Lemma createEventMarker_same_reading :
  let p1 := exec (createEventMarker (Some "East Coast Park") (Some "2026-01-10")
                    1767000000000) seededPage in
  let p2 := exec (createEventMarker (Some "Sentosa") (Some "2026-01-17")
                    1767000000000) p1 in
  exists newEvent,
    appState.events (app p2) = appState.events (app p1) ++ [newEvent] /\
    Event.id newEvent ∈ Event.id <$> appState.events (app p1).
Proof.
  eexists. split; [vm_compute; reflexivity|].
  vm_compute. apply list_elem_of_In. simpl. tauto.
Qed.

(** C2, amended. On a page that has its map, a creation with a non-empty name
    and date appends exactly one event, with [participants] 1 and with the id
    ["event-"] followed by the decimal clock reading. That id is the id of
    no other reading: it differs from the id of every stored event whose id
    was made from a different reading, and it is new to the store whenever no
    stored event has the id of this reading. *)
Theorem createEventMarker_id (p : Page) (m : LMap.t) (beachName eventDate : string)
    (now : Z) :
  appState.map (app p) = Some m ->
  beachName <> EmptyString -> eventDate <> EmptyString ->
  let p' := exec (createEventMarker (Some beachName) (Some eventDate) now) p in
  exists newEvent,
    appState.events (app p') = appState.events (app p) ++ [newEvent] /\
    Event.id newEvent = event_id now /\
    Event.participants newEvent = 1 /\
    (forall t, event_id t = Event.id newEvent -> t = now) /\
    (forall e t, e ∈ appState.events (app p) -> Event.id e = event_id t -> t <> now ->
                 Event.id e <> Event.id newEvent) /\
    ((forall e, e ∈ appState.events (app p) -> Event.id e <> event_id now) ->
     Event.id newEvent ∉ Event.id <$> appState.events (app p)).
Proof.
  intros Hm Hn Hd p'; subst p'.
  rewrite (createEventMarker_events p m beachName eventDate now Hm Hn Hd).
  eexists. split; [reflexivity|]. cbn [Event.id Event.participants].
  split; [done|]. split; [done|].
  split; [intros t Ht; by apply event_id_inj|].
  split.
  - intros e t _ He Hne Heq. rewrite He in Heq. by apply event_id_inj in Heq.
  - intros Hfresh (e & He & Hin)%list_elem_of_fmap. by apply (Hfresh e).
Qed.

Lemma createEventMarker_id_witness :
  exists newEvent,
    appState.events
      (app (exec (createEventMarker (Some "East Coast Park") (Some "2026-01-10")
                    1767000000000) seededPage))
    = appState.events (app seededPage) ++ [newEvent] /\
    Event.id newEvent = "event-1767000000000" /\
    Event.id newEvent ∉ Event.id <$> appState.events (app seededPage).
Proof.
  destruct (appState.map (app seededPage)) as [m|] eqn:Hm; [|vm_compute in Hm; discriminate].
  destruct (createEventMarker_id seededPage m "East Coast Park" "2026-01-10"
              1767000000000 Hm) as (e & Hev & Hid & _ & _ & _ & Hfresh);
    [discriminate | discriminate |].
  exists e. split; [exact Hev|]. split; [rewrite Hid; reflexivity|].
  apply Hfresh. intros e' He'. vm_compute in He'.
  apply list_elem_of_In in He'. simpl in He'.
  destruct He' as [<-|[<-|[<-|[]]]]; vm_compute; discriminate.
Defined.

(** ** The synthetic forecast *)

(** C10. The synthetic forecast has exactly 4 entries; entry [i] (from 0)
    has high [24 - i], low [18 + i] and the [i]-th of the four fixed
    condition strings. So the 4th entry has its high equal to its low, both
    21: the highs are not all strictly above the lows. *)
Theorem fallbackForecast_entries `{DateApi} (today : JsDate) :
  length (fallbackForecast today) = 4%nat /\
  (forall (i : nat) (d : Day.t),
     fallbackForecast today !! i = Some d ->
     Day.high d = 24 - Z.of_nat i /\
     Day.low d = 18 + Z.of_nat i /\
     Day.condition d = forecastConditions !! i /\
     is_Some (Day.condition d)) /\
  (fun d => (Day.high d, Day.low d)) <$> fallbackForecast today
  = [(24, 18); (23, 19); (22, 20); (21, 21)] /\
  ~ Forall (fun d => Day.low d < Day.high d) (fallbackForecast today).
Proof.
  split; [reflexivity|]. split; [|split; [reflexivity|]].
  - intros i d Hi.
    destruct i as [|[|[|[|i]]]]; cbn in Hi; inversion Hi; subst; cbn;
      repeat split; eauto.
  - intros Hall. rewrite Forall_forall in Hall.
    specialize (Hall {| Day.day := days !! Date_getDay (Date_plusDays today 3);
                        Day.date := Date_toLocaleDateString (Date_plusDays today 3);
                        Day.condition := forecastConditions !! 3%nat;
                        Day.high := 21; Day.low := 21 |}).
    cbn in Hall. assert (21 < 21) as Habs; [|lia].
    apply Hall. unfold fallbackForecast. cbn.
    apply list_elem_of_In. simpl. tauto.
Qed.

Lemma fallbackForecast_entries_witness :
  exists d, @fallbackForecast epochDays 0 !! 3%nat = Some d /\
            Day.high d = 21 /\ Day.low d = 21 /\
            Day.condition d = Some "🌧️ Rainy".
Proof.
  eexists. split; [reflexivity|].
  destruct (@fallbackForecast_entries epochDays 0) as (_ & Hentry & _).
  destruct (Hentry 3%nat _ eq_refl) as (Hh & Hl & Hc & _).
  split; [exact Hh|]. split; [exact Hl|]. exact Hc.
Defined.

(** ** Text found in a panel *)

Lemma append_String c (a b : string) :
  String.append (String c a) b = String c (String.append a b).
Proof. reflexivity. Qed.

Lemma includes_String needle c hay :
  includes needle (String c hay) = String.prefix needle (String c hay) || includes needle hay.
Proof. reflexivity. Qed.

Lemma includes_app_r needle (a b : string) :
  includes needle b = true -> includes needle (String.append a b) = true.
Proof.
  intros Hb. induction a as [|c a IH]; [done|].
  rewrite append_String, includes_String, IH. apply orb_true_r.
Qed.

(** Look for the text in ever later pieces of a template. *)
Ltac find_in_tail :=
  first [ solve [vm_compute; reflexivity]
        | apply includes_app_r; find_in_tail ].

(** The live current-conditions panel says that its data is live. *)
Lemma liveWeatherHtml_indicator currentTemp currentForecast :
  includes "✓ Live NEA Data" (liveWeatherHtml currentTemp currentForecast) = true.
Proof.
  unfold liveWeatherHtml, tpl. cbn [foldr].
  find_in_tail.
Qed.

(** ** Computations that only write to the document *)

Lemma doc_only_ret {A} (a : A) : doc_only (ret a).
Proof. intros p. exists (doc p). by destruct p. Qed.

Lemma doc_only_throw {A} e : doc_only (@throw A e).
Proof. intros p. exists (doc p). by destruct p. Qed.

Lemma doc_only_modify_doc f : doc_only (modify_doc f).
Proof. intros p. by exists (f (doc p)). Qed.

Lemma doc_only_bind {A B} (c : JS A) (k : A -> JS B) :
  doc_only c -> (forall a, doc_only (k a)) -> doc_only (bind c k).
Proof.
  intros Hc Hk p. destruct (Hc p) as [d Hd]. unfold exec, bind in *.
  destruct (c p) as [[a|e] p1]; simpl in Hd; subst p1; [|by exists d].
  destruct (Hk a (with_doc d p)) as [d' Hd']. exists d'.
  unfold exec in Hd'. by rewrite Hd'.
Qed.

Lemma doc_only_try_catch {A} (c : JS A) (h : exn -> JS A) :
  doc_only c -> (forall e, doc_only (h e)) -> doc_only (try_catch c h).
Proof.
  intros Hc Hh p. destruct (Hc p) as [d Hd]. unfold exec, try_catch in *.
  destruct (c p) as [[a|e] p1]; simpl in Hd; subst p1; [by exists d|].
  destruct (Hh e (with_doc d p)) as [d' Hd']. exists d'.
  unfold exec in Hd'. by rewrite Hd'.
Qed.

Lemma doc_only_access {A} (o : option A) : doc_only (access o).
Proof. destruct o; [apply doc_only_ret | apply doc_only_throw]. Qed.

Lemma doc_only_mapM {A B} (f : A -> JS B) (xs : list A) :
  (forall x, doc_only (f x)) -> doc_only (mapM f xs).
Proof.
  intros Hf. induction xs as [|x xs IH]; [apply doc_only_ret|].
  cbn [mapM]. apply doc_only_bind; [done|]. intros y.
  apply doc_only_bind; [done|]. intros ys. apply doc_only_ret.
Qed.

Create HintDb doc_only.
#[local] Hint Resolve doc_only_ret doc_only_throw doc_only_modify_doc
  doc_only_access : doc_only.
#[local] Hint Extern 2 (doc_only (bind _ _)) =>
  apply doc_only_bind; [|intros ?] : doc_only.

Section WeatherProperties.
Context `{DateApi}.

Lemma doc_only_forecastRow f : doc_only (forecastRow f).
Proof. unfold forecastRow. auto 10 with doc_only. Qed.

Lemma doc_only_loadWeather_try response : doc_only (loadWeather_try response).
Proof.
  unfold loadWeather_try.
  destruct response as [reason|ok status body]; [auto with doc_only|].
  destruct ok; cbn [negb]; [|auto with doc_only].
  apply doc_only_bind; [destruct body; auto with doc_only|]. intros data.
  destruct (Data.items data) as [[|item rest]|]; auto with doc_only.
  apply doc_only_bind; [auto with doc_only|]. intros currentForecast.
  apply doc_only_bind; [auto with doc_only|]. intros temperature.
  apply doc_only_bind; [auto with doc_only|]. intros _.
  apply doc_only_bind; [apply doc_only_mapM, doc_only_forecastRow|]. intros rows.
  auto 12 with doc_only.
Qed.

Lemma doc_only_loadWeatherFallback today : doc_only (loadWeatherFallback today).
Proof. unfold loadWeatherFallback. auto 10 with doc_only. Qed.

Lemma doc_only_loadWeather response today : doc_only (loadWeather response today).
Proof.
  apply doc_only_try_catch; [apply doc_only_loadWeather_try|].
  intros _. apply doc_only_loadWeatherFallback.
Qed.

(** The fallback always returns, and writes the three panels whatever
    they held. *)
Lemma loadWeatherFallback_exec today p :
  loadWeatherFallback today p
  = (Normal tt,
     with_doc (document.set_waterInfo fallbackWaterHtml
                 (document.set_forecastInfo
                    (join (fallbackRow <$> fallbackForecast today))
                    (document.set_weatherInfo fallbackWeatherHtml (doc p)))) p).
Proof. reflexivity. Qed.

End WeatherProperties.

(** ** Texts in templates *)

Lemma prefix_app (a b : string) : String.prefix a (String.append a b) = true.
Proof.
  induction a as [|c a IH]; [by destruct b|].
  rewrite append_String. cbn [String.prefix]. by destruct (ascii_dec c c).
Qed.

Lemma includes_prefix_app (a b : string) : includes a (String.append a b) = true.
Proof.
  destruct a; [by destruct b|].
  by rewrite append_String, includes_String, <- append_String, prefix_app.
Qed.

Lemma append_assoc (x y z : string) :
  String.append x (String.append y z) = String.append (String.append x y) z.
Proof. induction x as [|c x IH]; [done|]. by rewrite !append_String, IH. Qed.

Lemma tpl_app (a b : list string) : tpl (a ++ b) = String.append (tpl a) (tpl b).
Proof.
  induction a as [|x a IH]; [done|].
  change (tpl ((x :: a) ++ b)) with (String.append x (tpl (a ++ b))).
  change (tpl (x :: a)) with (String.append x (tpl a)).
  by rewrite IH, append_assoc.
Qed.

Lemma prefix_app_l (n a b : string) :
  String.prefix n a = true -> String.prefix n (String.append a b) = true.
Proof.
  revert a. induction n as [|c n IH]; intros a Hp.
  - by destruct (String.append a b).
  - destruct a as [|c' a]; [discriminate|]. rewrite append_String.
    cbn [String.prefix] in *. destruct (ascii_dec c c'); [by apply IH | done].
Qed.

Lemma includes_app_l (n a b : string) :
  includes n a = true -> includes n (String.append a b) = true.
Proof.
  induction a as [|c a IH]; intros Hin.
  - destruct n; [by destruct b | discriminate].
  - rewrite append_String, includes_String. rewrite includes_String in Hin.
    apply orb_true_iff in Hin as [Hp|Hin].
    + rewrite <- append_String, (prefix_app_l _ _ _ Hp). done.
    + rewrite (IH Hin). apply orb_true_r.
Qed.

(** A text found in one piece of a joined list is found in the whole. *)
Lemma includes_join (n x : string) (parts : list string) :
  x ∈ parts -> includes n x = true -> includes n (join parts) = true.
Proof.
  intros Hx Hn. induction Hx as [x parts|x y parts Hx IH]; unfold join in *;
    cbn [tpl foldr]; fold (tpl parts).
  - by apply includes_app_l.
  - apply includes_app_r. by apply IH.
Qed.

(** Look for the piece of a template that is the text itself. *)
Ltac find_piece :=
  lazymatch goal with
  | |- includes ?n (String.append ?n _) = true => apply includes_prefix_app
  | |- includes _ (String.append _ _) = true => apply includes_app_r; find_piece
  end.

Lemma prefix_split (n a : string) :
  String.prefix n a = true -> exists b, a = String.append n b.
Proof.
  revert a. induction n as [|c n IH]; intros a Hp; [by exists a|].
  destruct a as [|c' a]; [discriminate|]. cbn [String.prefix] in Hp.
  destruct (ascii_dec c c') as [->|]; [|discriminate].
  destruct (IH a Hp) as [b ->]. by exists b.
Qed.

Lemma begins_prefix (n h : string) : String.prefix n h = true -> begins n h.
Proof. apply prefix_split. Qed.

Lemma begins_app (a n h : string) :
  begins n h -> begins (String.append a n) (String.append a h).
Proof. intros [rest ->]. exists rest. by rewrite append_assoc. Qed.

Lemma begins_includes (n h : string) : begins n h -> includes n h = true.
Proof. intros [rest ->]. apply includes_prefix_app. Qed.

(** A text that starts with the end [a2] of a fixed piece of a template and
    goes on with the pieces that follow. *)
Lemma includes_anchored (a1 a2 piece n rest : string) :
  piece = String.append a1 a2 -> begins n rest ->
  includes (String.append a2 n) (String.append piece rest) = true.
Proof.
  intros -> Hn. rewrite <- append_assoc.
  by apply includes_app_r, begins_includes, begins_app.
Qed.

(** Pieces that the text and the template share, then a fixed end. *)
Ltac strip_begins :=
  lazymatch goal with
  | |- begins (String.append ?a _) (String.append ?a _) =>
      refine (begins_app _ _ _ _); strip_begins
  | |- begins _ _ => refine (begins_prefix _ _ _); vm_compute; reflexivity
  end.

(** Look for a text given as the end of a fixed piece, interpolated values
    and fixed pieces, and the start of a fixed piece. *)
Ltac find_anchored :=
  lazymatch goal with
  | |- includes (String.append ?a2 ?n) (String.append ?piece ?rest) = true =>
      first
        [ let k := eval vm_compute in (String.length piece - String.length a2)%nat in
          let a1 := eval vm_compute in (substring 0 k piece) in
          solve [ refine (includes_anchored a1 a2 piece n rest _ _);
                  [vm_compute; reflexivity | strip_begins] ]
        | refine (includes_app_r _ _ _ _); find_anchored ]
  end.

(** ** The weather provider *)

Section WeatherProvider.
Context `{DateApi}.

Lemma loadWeather_try_fails response p :
fetch_fails response -> exists e, loadWeather_try response p = (Throw e, p).
Proof.
destruct response as [reason|ok status body]; simpl; [by eexists|].
intros [->|Hbody]; [by eexists|].
destruct ok; cbn [negb]; [|by eexists].
destruct body as [| |data]; try by eexists.
unfold bind, ret. destruct Hbody as [-> | ->]; by eexists.
Qed.

(** A row of the synthetic forecast shows the day and date, the condition
  and the temperatures of its entry. *)
Lemma fallbackRow_shows (day : Day.t) :
includes (tpl ["<strong>"; show_str (Day.day day); "</strong> "; Day.date day; nl])
  (fallbackRow day) = true /\
includes (tpl [" "; show_str (Day.condition day); nl]) (fallbackRow day) = true /\
includes (tpl [" "; show_Z (Day.high day); "°C - "; show_Z (Day.low day); "°C"; nl])
  (fallbackRow day) = true.
Proof. unfold fallbackRow, tpl. cbn [foldr]. repeat split; find_anchored. Qed.

(** C3. Whenever the fetch fails (a network error, a status that is not a
  success, or a response without a non-empty [items] array),
  [loadWeather] returns and the three panels hold the synthetic data set:
  the current-conditions panel shows 22 degrees and carries the notice
  "Using demo data (API unavailable)" and not the "Live NEA Data" mark that
  the live panel carries; the forecast panel holds the rows of the
  synthetic forecast, one per entry of the four, each showing the day and
  date, the condition and the temperatures of its entry (24, 23, 22, 21
  over 18, 19, 20, 21, from sunny to rainy); and the water panel shows a
  water temperature of exactly 20 degrees Celsius. *)
Theorem loadWeather_fallback (response : FetchResult) (today : JsDate) (p : Page) :
fetch_fails response ->
let p' := exec (loadWeather response today) p in
outcome (loadWeather response today) p = Normal tt /\
p' = exec (loadWeatherFallback today) p /\
document.weatherInfo (doc p') = fallbackWeatherHtml /\
document.forecastInfo (doc p') = join (fallbackRow <$> fallbackForecast today) /\
document.waterInfo (doc p') = fallbackWaterHtml /\
includes "⚠️ Using demo data (API unavailable)" fallbackWeatherHtml = true /\
includes "Live NEA Data" fallbackWeatherHtml = false /\
(forall currentTemp currentForecast,
   includes "✓ Live NEA Data" (liveWeatherHtml currentTemp currentForecast) = true) /\
includes "<strong>20°C</strong> Water Temperature" fallbackWaterHtml = true /\
includes "<strong>22°C</strong> - Current Temperature"
  (document.weatherInfo (doc p')) = true /\
length (fallbackForecast today) = 4%nat /\
(forall (i : nat) (day : Day.t),
   fallbackForecast today !! i = Some day ->
   Day.high day = 24 - Z.of_nat i /\
   Day.low day = 18 + Z.of_nat i /\
   Day.condition day = forecastConditions !! i /\
   includes (tpl ["<strong>"; show_str (Day.day day); "</strong> "; Day.date day; nl])
     (document.forecastInfo (doc p')) = true /\
   includes (tpl [" "; show_str (Day.condition day); nl])
     (document.forecastInfo (doc p')) = true /\
   includes (tpl [" "; show_Z (Day.high day); "°C - "; show_Z (Day.low day); "°C"; nl])
     (document.forecastInfo (doc p')) = true) /\
Forall (fun shown => includes shown (document.forecastInfo (doc p')) = true)
  [tpl [" ☀️ Sunny"; nl];
   tpl [" 24°C - 18°C"; nl];
   tpl [" ⛅ Partly Cloudy"; nl];
   tpl [" 23°C - 19°C"; nl];
   tpl [" ☁️ Cloudy"; nl];
   tpl [" 22°C - 20°C"; nl];
   tpl [" 🌧️ Rainy"; nl];
   tpl [" 21°C - 21°C"; nl]].
Proof.
intros Hfail p'; subst p'.
destruct (loadWeather_try_fails response p Hfail) as [e He].
unfold exec, outcome, loadWeather, try_catch. rewrite He.
rewrite loadWeatherFallback_exec. cbn [fst snd].
do 7 (split; [reflexivity|]). split; [apply liveWeatherHtml_indicator|].
split; [reflexivity|]. split; [vm_compute; reflexivity|]. split; [reflexivity|].
cbn [doc with_doc document.forecastInfo document.set_waterInfo
     document.set_forecastInfo].
assert (Hall : forall (i : nat) (day : Day.t),
           fallbackForecast today !! i = Some day ->
           Day.high day = 24 - Z.of_nat i /\
           Day.low day = 18 + Z.of_nat i /\
           Day.condition day = forecastConditions !! i /\
           includes (tpl ["<strong>"; show_str (Day.day day); "</strong> ";
                          Day.date day; nl])
             (join (fallbackRow <$> fallbackForecast today)) = true /\
           includes (tpl [" "; show_str (Day.condition day); nl])
             (join (fallbackRow <$> fallbackForecast today)) = true /\
           includes (tpl [" "; show_Z (Day.high day); "°C - ";
                          show_Z (Day.low day); "°C"; nl])
             (join (fallbackRow <$> fallbackForecast today)) = true).
{ intros i day Hi.
  assert (Hin : fallbackRow day ∈ fallbackRow <$> fallbackForecast today)
    by (apply list_elem_of_fmap; exists day; split; [done|];
        by apply list_elem_of_lookup_2 in Hi).
  destruct (fallbackRow_shows day) as (Hday & Hcond & Htemp).
  assert (Hvalues : Day.high day = 24 - Z.of_nat i /\
                    Day.low day = 18 + Z.of_nat i /\
                    Day.condition day = forecastConditions !! i).
  { clear Hin Hday Hcond Htemp.
    destruct i as [|[|[|[|i]]]]; cbn in Hi; inversion Hi; subst; cbn;
      repeat split. }
  destruct Hvalues as (Hh & Hl & Hc).
  do 3 (split; [done|]).
  split; [|split]; by apply (includes_join _ (fallbackRow day)). }
split; [exact Hall|].
assert (Hday : forall i, (i < 4)%nat -> exists day, fallbackForecast today !! i = Some day)
  by (intros i Hi; by apply lookup_lt_is_Some_2).
destruct (Hday 0%nat) as [d0 Hd0]; [lia|].
destruct (Hday 1%nat) as [d1 Hd1]; [lia|].
destruct (Hday 2%nat) as [d2 Hd2]; [lia|].
destruct (Hday 3%nat) as [d3 Hd3]; [lia|].
destruct (Hall _ _ Hd0) as (Hh0 & Hl0 & Hc0 & _ & Hcond0 & Htemp0).
destruct (Hall _ _ Hd1) as (Hh1 & Hl1 & Hc1 & _ & Hcond1 & Htemp1).
destruct (Hall _ _ Hd2) as (Hh2 & Hl2 & Hc2 & _ & Hcond2 & Htemp2).
destruct (Hall _ _ Hd3) as (Hh3 & Hl3 & Hc3 & _ & Hcond3 & Htemp3).
rewrite Hh0, Hl0 in Htemp0. rewrite Hc0 in Hcond0.
rewrite Hh1, Hl1 in Htemp1. rewrite Hc1 in Hcond1.
rewrite Hh2, Hl2 in Htemp2. rewrite Hc2 in Hcond2.
rewrite Hh3, Hl3 in Htemp3. rewrite Hc3 in Hcond3.
apply Forall_cons_2; [exact Hcond0|]. apply Forall_cons_2; [exact Htemp0|].
apply Forall_cons_2; [exact Hcond1|]. apply Forall_cons_2; [exact Htemp1|].
apply Forall_cons_2; [exact Hcond2|]. apply Forall_cons_2; [exact Htemp2|].
apply Forall_cons_2; [exact Hcond3|]. apply Forall_cons_2; [exact Htemp3|].
apply Forall_nil_2.
Qed.

End WeatherProvider.

Lemma loadWeather_fallback_witness :
  document.waterInfo
    (doc (exec (@loadWeather epochDays (FetchResponse false 503 BodyInvalid) 0) Page_init))
  = fallbackWaterHtml /\
  includes "<strong>20°C</strong> Water Temperature" fallbackWaterHtml = true /\
  includes "<strong>22°C</strong> - Current Temperature"
    (document.weatherInfo
       (doc (exec (@loadWeather epochDays (FetchResponse false 503 BodyInvalid) 0)
               Page_init))) = true /\
  includes (tpl [" 21°C - 21°C"; nl])
    (document.forecastInfo
       (doc (exec (@loadWeather epochDays (FetchResponse false 503 BodyInvalid) 0)
               Page_init))) = true.
Proof.
  destruct (@loadWeather_fallback epochDays (FetchResponse false 503 BodyInvalid) 0 Page_init)
    as (_ & _ & _ & _ & Hwater & _ & _ & _ & H20 & H22 & _ & _ & Hshown).
  { right. exact I. }
  split; [exact Hwater|]. split; [exact H20|]. split; [exact H22|].
  rewrite Forall_forall in Hshown. apply Hshown.
  do 7 apply list_elem_of_further. apply list_elem_of_here.
Defined.

Section WaveHeight.
Context `{DateApi}.

(** The rows of the forecast are text only: making them writes nothing. *)
Lemma mapM_forecastRow_page fs p :
(mapM forecastRow fs p).2 = p.
Proof.
revert p. induction fs as [|f fs IH]; intros p; [done|].
cbn [mapM]. unfold bind at 1.
assert (Hrow : (forecastRow f p).2 = p).
{ unfold forecastRow, bind, access, ret, throw.
  destruct (Forecast.wind f) as [w|]; [|done].
  destruct (Wind.speed w); [|done].
  destruct (Forecast.temperature f); [|done].
  by destruct (Forecast.relative_humidity f). }
destruct (forecastRow f p) as [[row|e] p1]; simpl in Hrow; subst p1; [|done].
unfold bind. specialize (IH p).
by destruct (mapM forecastRow fs p) as [[rows|e] p1]; simpl in IH; subst p1.
Qed.

Lemma bind_Normal_inv {A B} (c : JS A) (k : A -> JS B) p b p' :
bind c k p = (Normal b, p') ->
exists a p1, c p = (Normal a, p1) /\ k a p1 = (Normal b, p').
Proof.
unfold bind. destruct (c p) as [[a|e] p1]; [|discriminate]. by exists a, p1.
Qed.

Lemma access_Normal_inv {A} (o : option A) p a p1 :
access o p = (Normal a, p1) -> o = Some a /\ p1 = p.
Proof. destruct o; [|discriminate]. by intros [= -> ->]. Qed.

(** When the [try] block of [loadWeather] runs to its end, the answer had a
  first forecast entry with [temperature], [wind] and [wind.speed], and the
  water panel is the live one made from them. *)
Lemma loadWeather_try_Normal response p p' :
loadWeather_try response p = (Normal tt, p') ->
exists currentForecast temperature wind speed,
  firstEntry response = Some currentForecast /\
  Forecast.temperature currentForecast = Some temperature /\
  Forecast.wind currentForecast = Some wind /\
  Wind.speed wind = Some speed /\
  document.waterInfo (doc p')
  = liveWaterHtml
      (Math_round_half (js_add (Range.high temperature) (Range.low temperature)))
      wind speed.
Proof.
intros Htry. unfold loadWeather_try in Htry.
destruct response as [reason|ok status body]; [discriminate|].
destruct ok; cbn [negb] in Htry; [|discriminate].
apply bind_Normal_inv in Htry as (data & p1 & Hdata & Htry).
destruct body as [| |data']; try discriminate. injection Hdata as -> <-.
destruct (Data.items data) as [[|item rest]|] eqn:Hitems; try discriminate.
apply bind_Normal_inv in Htry as (currentForecast & p1 & Hcf & Htry).
apply access_Normal_inv in Hcf as [Hcf ->].
apply bind_Normal_inv in Htry as (temperature & p1 & Htemp & Htry).
apply access_Normal_inv in Htemp as [Htemp ->].
apply bind_Normal_inv in Htry as ([] & p1 & Hw & Htry). injection Hw as <-.
apply bind_Normal_inv in Htry as (rows & p1 & Hrows & Htry).
pose proof (mapM_forecastRow_page (take 4 (default [] (Item.forecasts item)))
  (with_doc (document.set_weatherInfo
     (liveWeatherHtml
        (Math_round_half (js_add (Range.high temperature) (Range.low temperature)))
        currentForecast) (doc p)) p)) as Hpage.
rewrite Hrows in Hpage. simpl in Hpage. subst p1.
apply bind_Normal_inv in Htry as ([] & p1 & Hf & Htry). injection Hf as <-.
apply bind_Normal_inv in Htry as (temperature' & p1 & Htemp' & Htry).
apply access_Normal_inv in Htemp' as [Htemp' ->].
assert (temperature' = temperature) as -> by congruence.
apply bind_Normal_inv in Htry as (wind & p1 & Hwind & Htry).
apply access_Normal_inv in Hwind as [Hwind ->].
apply bind_Normal_inv in Htry as (speed & p1 & Hspeed & Htry).
apply access_Normal_inv in Hspeed as [Hspeed ->].
injection Htry as <-.
exists currentForecast, temperature, wind, speed.
split; [|done].
cbn [firstEntry]. rewrite Hitems. cbn [mbind option_bind head].
destruct (Item.forecasts item) as [[|f fs]|]; cbn in Hcf |- *; congruence.
Qed.

(** The live water panel shows the bucket picked from [wind.speed.low]. *)
Lemma liveWaterHtml_waveHeight avgTemp wind speed :
includes (tpl ["🌊 Wave Height: "; waveHeight (Range.low speed); "</p>"])
  (liveWaterHtml avgTemp wind speed) = true.
Proof.
unfold liveWaterHtml, waveHeight, tpl. cbn [foldr].
destruct (js_gt (Range.low speed) 10); find_in_tail.
Qed.

(** C4. In the live path (the [try] block of [loadWeather] runs to its end)
  the wave-height bucket shown in the water panel is picked by comparing
  the [wind.speed.low] of the first forecast entry with 10: above 10 the
  panel shows "Wave Height: 1.0-1.5m", at 10 or below it shows
  "Wave Height: 0.5-1.0m". *)
Theorem loadWeather_waveHeight (response : FetchResult) (today : JsDate) (p : Page) :
outcome (loadWeather_try response) p = Normal tt ->
exists currentForecast wind speed,
  firstEntry response = Some currentForecast /\
  Forecast.wind currentForecast = Some wind /\
  Wind.speed wind = Some speed /\
  let shown := document.waterInfo (doc (exec (loadWeather response today) p)) in
  (exists avgTemp, shown = liveWaterHtml avgTemp wind speed) /\
  includes (tpl ["🌊 Wave Height: "; waveHeight (Range.low speed); "</p>"]) shown
  = true /\
  (forall low, Range.low speed = Some low -> 10 < low ->
               waveHeight (Range.low speed) = "1.0-1.5m") /\
  (forall low, Range.low speed = Some low -> low <= 10 ->
               waveHeight (Range.low speed) = "0.5-1.0m").
Proof.
unfold outcome. intros Hout.
destruct (loadWeather_try response p) as [c p'] eqn:Htry. simpl in Hout; subst c.
destruct (loadWeather_try_Normal response p p' Htry)
  as (currentForecast & temperature & wind & speed & Hfirst & _ & Hwind & Hspeed & Hwater).
exists currentForecast, wind, speed. split; [done|]. split; [done|]. split; [done|].
unfold exec, loadWeather, try_catch. rewrite Htry. cbn [snd]. rewrite Hwater.
split; [by eexists|]. split; [apply liveWaterHtml_waveHeight|].
unfold waveHeight, js_gt.
split; intros low -> Hlow.
- by destruct (Z.ltb_spec 10 low); [|lia].
- by destruct (Z.ltb_spec 10 low); [lia|].
Qed.

End WaveHeight.

Lemma loadWeather_waveHeight_witness :
  includes "🌊 Wave Height: 1.0-1.5m</p>"
    (document.waterInfo (doc (exec (@loadWeather epochDays (sampleResponse 12) 0) Page_init)))
  = true.
Proof.
  destruct (@loadWeather_waveHeight epochDays (sampleResponse 12) 0 Page_init)
    as (cf & wind & speed & Hfirst & Hwind & Hspeed & _ & Hshown & Hhigh & _).
  { vm_compute. reflexivity. }
  injection Hfirst as <-. injection Hwind as <-. injection Hspeed as <-.
  rewrite (Hhigh 12 eq_refl) in Hshown by lia. exact Hshown.
Defined.

(** The two readings of the scenario: 12 picks the higher bucket, 8 the
    lower one. *)
Example waveHeight_12_and_8 :
  let water low :=
    document.waterInfo
      (doc (exec (@loadWeather epochDays (sampleResponse low) 0) Page_init)) in
  includes "🌊 Wave Height: 1.0-1.5m</p>" (water 12) = true /\
  includes "🌊 Wave Height: 0.5-1.0m</p>" (water 12) = false /\
  includes "🌊 Wave Height: 0.5-1.0m</p>" (water 8) = true /\
  includes "🌊 Wave Height: 1.0-1.5m</p>" (water 8) = false /\
  includes "Live NEA Data"
    (document.weatherInfo
       (doc (exec (@loadWeather epochDays (sampleResponse 12) 0) Page_init))) = true.
Proof. vm_compute. done. Qed.

(** ** The counter of the next cleanup *)

Lemma renderEvents_nextCleanup p : nextCleanup (exec renderEvents p) = nextCleanup p.
Proof.
  unfold nextCleanup. destruct (appState.map (app p)) as [m|] eqn:Hm.
  - unfold exec. by rewrite (renderEvents_Some p m Hm).
  - by rewrite (proj1 (renderEvents_None p Hm)).
Qed.

Lemma renderEvents_then_alert_nextCleanup msg p :
  nextCleanup (exec (renderEvents ;; alert msg) p) = nextCleanup p.
Proof.
  unfold nextCleanup. rewrite renderEvents_then_alert_app. apply renderEvents_nextCleanup.
Qed.

Lemma initializeMap_nextCleanup leaflet p :
  nextCleanup (exec (initializeMap leaflet) p) = nextCleanup p.
Proof. by destruct leaflet. Qed.

Lemma initializeMap_true p :
  initializeMap true p = (Normal tt, exec (initializeMap true) p).
Proof. reflexivity. Qed.

(** The retry handler: the map element is emptied first; then, with
    Leaflet, the map is made anew and the events are rendered on it. *)
Lemma retryMap_true p :
  retryMap true p
  = (Normal tt,
     exec renderEvents
       (exec (initializeMap true)
          (with_doc (document.set_mapEl MapEmptied (doc p)) p))).
Proof.
  unfold retryMap, try_catch.
  set (q := with_doc (document.set_mapEl MapEmptied (doc p)) p).
  rewrite (bind_Normal (modify_doc _) _ p tt q eq_refl). cbv beta.
  rewrite (bind_Normal _ _ _ _ _ (initializeMap_true q)). cbv beta.
  assert (Hm : exists m, appState.map (app (exec (initializeMap true) q)) = Some m)
    by (by eexists).
  destruct Hm as [m Hm]. set (q1 := exec (initializeMap true) q) in *.
  unfold exec. by rewrite (renderEvents_Some q1 m Hm).
Qed.

Lemma retryMap_false p :
  retryMap false p = (Normal tt, with_doc (document.set_mapEl MapEmptied (doc p)) p).
Proof. reflexivity. Qed.

Lemma retryMap_nextCleanup leaflet p :
  nextCleanup (exec (retryMap leaflet) p) = nextCleanup p.
Proof.
  unfold exec at 1. destruct leaflet; [|by rewrite retryMap_false].
  rewrite retryMap_true. cbn [snd].
  by rewrite renderEvents_nextCleanup, initializeMap_nextCleanup.
Qed.

Lemma joinEvent_nextCleanup eventId p :
  nextCleanup (exec (joinEvent eventId) p) = nextCleanup p.
Proof.
  unfold exec, joinEvent.
  rewrite (bind_Normal get_app _ p (app p) p) by reflexivity.
  destruct (list_find _ _) as [[i event]|]; [|done]. cbv zeta.
  erewrite bind_Normal; [|reflexivity].
  match goal with
  | |- context [(bind renderEvents ?k ?q).2] =>
      change ((bind renderEvents k q).2) with (exec (bind renderEvents k) q)
  end.
  by rewrite renderEvents_then_alert_nextCleanup.
Qed.

Lemma createEventMarker_nextCleanup beachName eventDate now p :
  nextCleanup (exec (createEventMarker beachName eventDate now) p) = nextCleanup p.
Proof.
  unfold exec, createEventMarker.
  destruct (falsy beachName); [done|]. destruct (falsy eventDate); [done|]. cbv zeta.
  destruct (appState.map (app p)) as [m|] eqn:Hm;
    [rewrite (with_map_Some _ _ m Hm) | by rewrite with_map_None].
  erewrite bind_Normal; [|reflexivity].
  erewrite bind_Normal;
    [|apply (addBeachMarker_Some _ m); by destruct p as [[] ? ? ? ?]].
  match goal with
  | |- context [(bind renderEvents ?k ?q).2] =>
      change ((bind renderEvents k q).2) with (exec (bind renderEvents k) q)
  end.
  by rewrite renderEvents_then_alert_nextCleanup.
Qed.

Lemma userLocation_nextCleanup geo p :
  nextCleanup (exec (userLocation geo) p) = nextCleanup p.
Proof.
  destruct p as [[mp ul cr evs ms um n] d al an ls].
  destruct geo; [done| |done].
  by destruct um, mp.
Qed.

Section Counter.
Context `{DateApi}.

Lemma loadWeather_nextCleanup response today p :
nextCleanup (exec (loadWeather response today) p) = nextCleanup p.
Proof. by destruct (doc_only_loadWeather response today p) as [d ->]. Qed.

(** C9. [appState.nextCleanupParticipants] starts at 0; [joinNextCleanup]
  adds exactly 1 to it at each call, and nothing else the page does
  changes it. So after any session it counts the calls of
  [joinNextCleanup]. *)
Theorem nextCleanupParticipants_counts_joins :
appState.nextCleanupParticipants appState.init = 0 /\
(forall (a : Action) (p : Page),
   nextCleanup (exec (perform a) p)
   = nextCleanup p + (if is_JoinNextCleanup a then 1 else 0)) /\
(forall actions : list Action,
   nextCleanup (run actions Page_init)
   = Z.of_nat (length (filter (fun a => is_JoinNextCleanup a = true) actions))).
Proof.
assert (Hstep : forall (a : Action) (p : Page),
           nextCleanup (exec (perform a) p)
           = nextCleanup p + (if is_JoinNextCleanup a then 1 else 0)).
{ intros a p. destruct a; cbn [perform is_JoinNextCleanup]; rewrite ?Z.add_0_r.
  - apply initializeMap_nextCleanup.
  - apply retryMap_nextCleanup.
  - done.
  - apply loadWeather_nextCleanup.
  - done.
  - apply renderEvents_nextCleanup.
  - apply userLocation_nextCleanup.
  - apply createEventMarker_nextCleanup.
  - apply joinEvent_nextCleanup.
  - done.
  - done. }
split; [done|]. split; [exact Hstep|].
intros actions.
assert (Hrun : forall p,
           nextCleanup (run actions p)
           = nextCleanup p +
             Z.of_nat (length (filter (fun a => is_JoinNextCleanup a = true) actions))).
{ induction actions as [|a actions IH]; intros p; cbn [run fold_left].
  - simpl. lia.
  - fold (run actions (exec (perform a) p)). rewrite IH, Hstep, filter_cons.
    destruct (is_JoinNextCleanup a); simpl; [|lia].
    destruct (decide (true = true)); [|done]. simpl length. lia. }
rewrite Hrun. done.
Qed.

End Counter.

(** ** Stamps in a session *)

Lemma markersFrom_stamp_le s evs x :
  x ∈ markersFrom s evs -> (Marker.stamp x <= s + length evs)%nat.
Proof.
  revert s. induction evs as [|e evs IH]; intros s; simpl.
  - by intros ?%elem_of_nil.
  - intros [->|Hx]%elem_of_cons; [simpl; lia|]. apply IH in Hx. lia.
Qed.

Lemma well_stamped_mono p q :
  appState.markers (app q) = appState.markers (app p) ->
  (lastStamp p <= lastStamp q)%nat ->
  well_stamped p -> well_stamped q.
Proof.
  unfold well_stamped. intros -> Hle Hp. eapply Forall_impl; [exact Hp|].
  intros x Hx. simpl in Hx. lia.
Qed.

Lemma renderEvents_well_stamped p : well_stamped p -> well_stamped (exec renderEvents p).
Proof.
  intros Hp. destruct (appState.map (app p)) as [m|] eqn:Hm.
  - unfold exec. rewrite (renderEvents_Some p m Hm). unfold well_stamped.
    apply Forall_forall. intros x Hx. by apply markersFrom_stamp_le.
  - rewrite (proj1 (renderEvents_None p Hm)). by apply (well_stamped_mono p).
Qed.

Lemma renderEvents_then_alert_well_stamped msg p :
  well_stamped p -> well_stamped (exec (renderEvents ;; alert msg) p).
Proof.
  intros Hp. apply renderEvents_well_stamped in Hp. revert Hp.
  unfold exec, bind. destruct (renderEvents p) as [[[]|e] p1]; [|done].
  by apply well_stamped_mono.
Qed.

Lemma initializeMap_well_stamped leaflet p :
  well_stamped p -> well_stamped (exec (initializeMap leaflet) p).
Proof. destruct leaflet; [|done]. apply well_stamped_mono; simpl; [done | lia]. Qed.

Lemma joinEvent_well_stamped eventId p :
  well_stamped p -> well_stamped (exec (joinEvent eventId) p).
Proof.
  intros Hp. unfold exec, joinEvent.
  rewrite (bind_Normal get_app _ p (app p) p) by reflexivity.
  destruct (list_find _ _) as [[i event]|]; [|done]. cbv zeta.
  erewrite bind_Normal; [|reflexivity].
  match goal with
  | |- context [(bind renderEvents ?k ?q).2] =>
      change ((bind renderEvents k q).2) with (exec (bind renderEvents k) q)
  end.
  apply renderEvents_then_alert_well_stamped. by apply (well_stamped_mono p).
Qed.

Lemma createEventMarker_well_stamped beachName eventDate now p :
  well_stamped p -> well_stamped (exec (createEventMarker beachName eventDate now) p).
Proof.
  intros Hp. unfold exec, createEventMarker.
  destruct (falsy beachName); [done|]. destruct (falsy eventDate); [done|]. cbv zeta.
  destruct (appState.map (app p)) as [m|] eqn:Hm;
    [rewrite (with_map_Some _ _ m Hm) | by rewrite with_map_None].
  erewrite bind_Normal; [|reflexivity].
  erewrite bind_Normal;
    [|apply (addBeachMarker_Some _ m); by destruct p as [[] ? ? ? ?]].
  match goal with
  | |- context [(bind renderEvents ?k ?q).2] =>
      change ((bind renderEvents k q).2) with (exec (bind renderEvents k) q)
  end.
  apply renderEvents_then_alert_well_stamped.
  unfold well_stamped in *. destruct p as [[mp ul cr evs ms um n] d al an ls].
  cbn -[popupContent] in *. apply Forall_app. split.
  - eapply Forall_impl; [exact Hp|]. intros x Hx. simpl in Hx. lia.
  - apply Forall_singleton. simpl. lia.
Qed.

Lemma userLocation_well_stamped geo p :
  well_stamped p -> well_stamped (exec (userLocation geo) p).
Proof.
  destruct p as [[mp ul cr evs ms um n] d al an ls].
  destruct geo; [done| |done].
  destruct um, mp; try done; apply well_stamped_mono; simpl; try done; lia.
Qed.

Lemma retryMap_well_stamped leaflet p :
  well_stamped p -> well_stamped (exec (retryMap leaflet) p).
Proof.
  intros Hp.
  assert (Hq : well_stamped (with_doc (document.set_mapEl MapEmptied (doc p)) p))
    by (revert Hp; by apply well_stamped_mono).
  unfold exec at 1. destruct leaflet; [|by rewrite retryMap_false].
  rewrite retryMap_true. cbn [snd].
  by apply renderEvents_well_stamped, initializeMap_well_stamped.
Qed.

Section Session.
Context `{DateApi}.

Lemma perform_well_stamped (a : Action) (p : Page) :
well_stamped p -> well_stamped (exec (perform a) p).
Proof.
intros Hp. destruct a; cbn [perform].
- by apply initializeMap_well_stamped.
- by apply retryMap_well_stamped.
- done.
- destruct (doc_only_loadWeather response today p) as [d ->]. done.
- done.
- by apply renderEvents_well_stamped.
- by apply userLocation_well_stamped.
- by apply createEventMarker_well_stamped.
- by apply joinEvent_well_stamped.
- done.
- done.
Qed.

(** Every page of a session is well stamped. *)
Lemma run_well_stamped (actions : list Action) : well_stamped (run actions Page_init).
Proof.
assert (Hrun : forall p, well_stamped p -> well_stamped (run actions p)).
{ induction actions as [|a actions IH]; intros p Hp; [done|].
  cbn [run fold_left]. apply IH. by apply perform_well_stamped. }
apply Hrun. constructor.
Qed.

End Session.

(** * Further properties *)

(** ** What a computation leaves alone *)

Section Preserves.
Context (R : relation Page) `{!PreOrder R}.

Lemma preserves_ret {A} (a : A) : preserves R (ret a).
Proof. intros p. reflexivity. Qed.

Lemma preserves_throw {A} e : preserves R (@throw A e).
Proof. intros p. reflexivity. Qed.

Lemma preserves_get_app : preserves R get_app.
Proof. intros p. reflexivity. Qed.

Lemma preserves_access {A} (o : option A) : preserves R (access o).
Proof. destruct o; [apply preserves_ret | apply preserves_throw]. Qed.

Lemma preserves_bind {A B} (c : JS A) (k : A -> JS B) :
preserves R c -> (forall a, preserves R (k a)) -> preserves R (bind c k).
Proof.
intros Hc Hk p. specialize (Hc p). unfold exec, bind in *.
destruct (c p) as [[a|e] p1]; [|done].
etrans; [exact Hc|]. apply (Hk a p1).
Qed.

Lemma preserves_try_catch {A} (c : JS A) (h : exn -> JS A) :
preserves R c -> (forall e, preserves R (h e)) -> preserves R (try_catch c h).
Proof.
intros Hc Hh p. specialize (Hc p). unfold exec, try_catch in *.
destruct (c p) as [[a|e] p1]; [done|].
etrans; [exact Hc|]. apply (Hh e p1).
Qed.

Lemma preserves_forEach {A} (xs : list A) (f : A -> JS unit) :
(forall x, preserves R (f x)) -> preserves R (forEach xs f).
Proof.
intros Hf. induction xs as [|x xs IH]; [apply preserves_ret|].
cbn [forEach]. by apply preserves_bind.
Qed.

Lemma preserves_mapM {A B} (f : A -> JS B) (xs : list A) :
(forall x, preserves R (f x)) -> preserves R (mapM f xs).
Proof.
intros Hf. induction xs as [|x xs IH]; [apply preserves_ret|].
cbn [mapM]. apply preserves_bind; [done|]. intros y.
apply preserves_bind; [done|]. intros ys. apply preserves_ret.
Qed.

Lemma preserves_with_map {A} (k : LMap.t -> JS A) :
(forall m, preserves R (k m)) -> preserves R (with_map k).
Proof.
intros Hk. unfold with_map. apply preserves_bind; [apply preserves_get_app|].
intros st. destruct (appState.map st); [done | apply preserves_throw].
Qed.

End Preserves.

Lemma frame_PreOrder {T} (f : Page -> T) : PreOrder (frame f).
Proof.
  split.
  - by intros p.
  - intros p q r Hpq Hqr. unfold frame in *. congruence.
Qed.
#[local] Existing Instance frame_PreOrder.

(** Take a computation apart down to the single writes, and check each
    write against the part of the page that is to stay. *)
Ltac frame_write :=
  let p := fresh "p" in
  intros p; destruct p as [[] [] ? ? ?]; reflexivity.

Ltac frame_step :=
  lazymatch goal with
  | |- preserves _ (bind _ _) => refine (preserves_bind _ _ _ _ _); [|intros ?]
  | |- preserves _ (try_catch _ _) => refine (preserves_try_catch _ _ _ _ _); [|intros ?]
  | |- preserves _ (forEach _ _) => refine (preserves_forEach _ _ _ _); intros ?
  | |- preserves _ (mapM _ _) => refine (preserves_mapM _ _ _ _); intros ?
  | |- preserves _ (with_map _) => refine (preserves_with_map _ _ _); intros ?
  | |- preserves _ (ret _) => refine (preserves_ret _ _)
  | |- preserves _ (throw _) => refine (preserves_throw _ _)
  | |- preserves _ (access _) => refine (preserves_access _ _)
  | |- preserves _ get_app => refine (preserves_get_app _)
  | |- preserves _ (match ?x with _ => _ end) => destruct x
  | |- preserves _ (addBeachMarker _ _ _ _) => unfold addBeachMarker
  | |- preserves _ renderEvents => unfold renderEvents
  | |- preserves _ (initializeMap _) => unfold initializeMap
  | |- preserves _ (forecastRow _) => unfold forecastRow
  | |- preserves _ (loadWeather_try _) => unfold loadWeather_try
  | |- preserves _ (loadWeatherFallback _) => unfold loadWeatherFallback
  | |- preserves _ _ => frame_write
  end.

Ltac frame_solve := cbv zeta; repeat (frame_step; cbv zeta).

Section Footprints.
Context `{DateApi}.

(** An action other than [joinNextCleanup] leaves [f] alone, for a part [f]
  of the page that the marker, event, crew and weather code never
  writes. *)
Ltac frame_action a :=
destruct a; try discriminate; intros _; cbn [perform];
unfold retryMap, joinEvent, createEventMarker, userLocation, loadWeather,
  loadMockData, renderCrew, welcome;
frame_solve.

Lemma perform_announcements (a : Action) :
is_JoinNextCleanup a = false -> preserves (frame announcements) (perform a).
Proof. frame_action a. Qed.

Lemma perform_counterText (a : Action) :
is_JoinNextCleanup a = false ->
preserves (frame (fun p => (appState.nextCleanupParticipants (app p),
                            document.nextCleanupParticipants (doc p))))
  (perform a).
Proof. frame_action a. Qed.

End Footprints.

(** ** [joinEvent], beyond the count *)

Lemma renderEvents_then_alert_Some msg p m :
  appState.map (app p) = Some m ->
  (renderEvents ;; alert msg) p = (Normal tt, exec (alert msg) (rendered p m)).
Proof. intros Hm. by rewrite (bind_Normal _ _ _ _ _ (renderEvents_Some p m Hm)). Qed.

(** Without a map, and with an event in the store, [renderEvents] throws. *)
Lemma renderEvents_then_alert_None msg p :
  appState.map (app p) = None -> appState.events (app p) <> [] ->
  exists e,
    (renderEvents ;; alert msg) p
    = (Throw e, with_doc (document.set_eventsList (eventsHtml p) (doc p)) p).
Proof.
  intros Hm Hev. destruct (renderEvents_None p Hm) as [Hexec Hout].
  unfold exec, outcome in *. unfold bind.
  destruct (renderEvents p) as [[[]|e] p1]; simpl in *; subst p1.
  - destruct Hout as [Hout _]. by destruct (Hout eq_refl).
  - by exists e.
Qed.

Lemma joinEvent_found_eq p eventId i event :
  list_find (fun e => Event.id e = eventId) (appState.events (app p)) = Some (i, event) ->
  joinEvent eventId p
  = (renderEvents ;; alert (joinAlert (Event.join event)))
      (with_app (appState.set_events
                   (<[i:=Event.join event]> (appState.events (app p))) (app p)) p).
Proof.
  intros Hfind. unfold joinEvent.
  rewrite (bind_Normal get_app _ p (app p) p) by reflexivity.
  rewrite Hfind. cbv zeta. by erewrite bind_Normal; [|reflexivity].
Qed.

Lemma list_find_id_elem_of (evs : list Event.t) eventId :
  eventId ∈ Event.id <$> evs ->
  exists i event, list_find (fun e => Event.id e = eventId) evs = Some (i, event).
Proof.
  intros (e & He & Hin)%list_elem_of_fmap.
  destruct (list_find_elem_of (fun e => Event.id e = eventId) evs e Hin) as [[i event] Hf];
    [done|]. by exists i, event.
Qed.

(** The dialog of [joinEvent] carries the count of the event it is given. *)
Lemma joinAlert_count event :
  includes (show_Z (Event.participants event)) (joinAlert event) = true.
Proof.
  unfold joinAlert, tpl. cbn [foldr].
  do 7 refine (includes_app_r _ _ _ _). apply includes_prefix_app.
Qed.

(** With a map, joining a known event returns; one dialog is shown, with the
    name of the event and its new count; and the page shows the store as it
    now is: the list and every popup are rewritten with the new count. *)
Theorem joinEvent_shows_store (p : Page) (m : LMap.t) (eventId : string) :
  appState.map (app p) = Some m ->
  eventId ∈ Event.id <$> appState.events (app p) ->
  let p' := exec (joinEvent eventId) p in
  outcome (joinEvent eventId) p = Normal tt /\
  shows_store p' /\
  length (appState.markers (app p')) = length (appState.events (app p')) /\
  exists i event,
    appState.events (app p) !! i = Some event /\ Event.id event = eventId /\
    alerts p' = alerts p ++ [joinAlert (Event.join event)] /\
    includes (show_Z (Event.participants event + 1)) (joinAlert (Event.join event)) = true.
Proof.
  intros Hm Hin p'; subst p'.
  destruct (list_find_id_elem_of _ _ Hin) as (i & event & Hfind).
  unfold exec, outcome. rewrite (joinEvent_found_eq _ _ _ _ Hfind).
  erewrite renderEvents_then_alert_Some; [|by destruct p as [[] ? ? ? ?]].
  apply list_find_Some in Hfind as (Hi & Hid & _).
  destruct p as [[mp ul cr evs ms um n] d al an ls]. simpl in Hm, Hi |- *.
  split; [done|]. split; [|split].
  - split; [done|]. cbn -[markersFrom eventCard]. apply markersFrom_content.
  - cbn -[markersFrom]. apply markersFrom_length.
  - exists i, event. split; [done|]. split; [done|]. split; [done|].
    apply (joinAlert_count (Event.join event)).
Qed.

Lemma joinEvent_shows_store_witness :
  outcome (joinEvent "event-2") seededPage = Normal tt /\
  shows_store (exec (joinEvent "event-2") seededPage) /\
  length (alerts (exec (joinEvent "event-2") seededPage)) = 1%nat.
Proof.
  destruct (appState.map (app seededPage)) as [m|] eqn:Hm; [|vm_compute in Hm; discriminate].
  destruct (joinEvent_shows_store seededPage m "event-2" Hm)
    as (Hout & Hshow & _ & i & event & _ & _ & Hal & _).
  { vm_compute. apply list_elem_of_In. simpl. tauto. }
  split; [exact Hout|]. split; [exact Hshow|]. by rewrite Hal.
Defined.

(** Without a map, joining a known event still adds 1 to its count and
    rewrites the events list with it, but the call then throws in
    [renderEvents]: no dialog is shown and the markers collection is left
    as it was. *)
Theorem joinEvent_without_map (p : Page) (eventId : string) :
  appState.map (app p) = None ->
  eventId ∈ Event.id <$> appState.events (app p) ->
  let p' := exec (joinEvent eventId) p in
  (exists e, outcome (joinEvent eventId) p = Throw e) /\
  alerts p' = alerts p /\
  appState.markers (app p') = appState.markers (app p) /\
  document.eventsList (doc p') = eventsHtml p' /\
  exists i event,
    appState.events (app p) !! i = Some event /\ Event.id event = eventId /\
    appState.events (app p') = <[i:=Event.join event]> (appState.events (app p)).
Proof.
  intros Hm Hin p'; subst p'.
  destruct (list_find_id_elem_of _ _ Hin) as (i & event & Hfind).
  unfold exec, outcome. rewrite (joinEvent_found_eq _ _ _ _ Hfind).
  apply list_find_Some in Hfind as (Hi & Hid & _).
  edestruct (renderEvents_then_alert_None (joinAlert (Event.join event))) as [e ->];
    [| |split; [by exists e|]].
  - by destruct p as [[] ? ? ? ?].
  - destruct p as [[mp ul cr evs ms um n] d al an ls]. simpl in *.
    intros Hnil. apply (f_equal length) in Hnil. rewrite length_insert in Hnil.
    apply lookup_lt_Some in Hi. simpl in Hnil. lia.
  - destruct p as [[mp ul cr evs ms um n] d al an ls]. simpl in *.
    split; [done|]. split; [done|]. split; [done|]. by exists i, event.
Qed.

Lemma joinEvent_without_map_witness :
  (exists e, outcome (joinEvent "event-2") seededPage_noMap = Throw e) /\
  alerts (exec (joinEvent "event-2") seededPage_noMap) = [] /\
  Event.participants <$> appState.events (app (exec (joinEvent "event-2") seededPage_noMap))
  = [24; 19; 31].
Proof.
  destruct (joinEvent_without_map seededPage_noMap "event-2")
    as (Hout & Hal & _ & _ & i & event & Hi & Hid & Hev).
  { reflexivity. }
  { vm_compute. apply list_elem_of_In. simpl. tauto. }
  split; [exact Hout|]. split; [exact Hal|]. rewrite Hev.
  assert (i = 1%nat) as ->.
  { destruct i as [|[|[|i]]]; vm_compute in Hi; inversion Hi; subst;
      vm_compute in Hid; congruence. }
  vm_compute in Hi. inversion Hi; subst. reflexivity.
Defined.

(** An event that shares its id with an earlier event of the collection is
    never changed by [joinEvent], whatever id is joined: [find] stops at the
    earlier one. *)
Theorem joinEvent_shadowed (p : Page) (i j : nat) (earlier later : Event.t)
    (eventId : string) :
  (i < j)%nat ->
  appState.events (app p) !! i = Some earlier ->
  appState.events (app p) !! j = Some later ->
  Event.id earlier = Event.id later ->
  appState.events (app (exec (joinEvent eventId) p)) !! j = Some later.
Proof.
  intros Hij Hi Hj Hid.
  destruct (list_find (fun e => Event.id e = eventId) (appState.events (app p)))
    as [[k event]|] eqn:Hfind.
  - rewrite (joinEvent_found _ _ _ _ Hfind).
    apply list_find_Some in Hfind as (Hk & Hkid & Hfirst).
    rewrite list_lookup_insert_ne; [done|]. intros ->.
    assert (event = later) as -> by congruence.
    apply (Hfirst i earlier Hi Hij). congruence.
  - unfold exec. by rewrite (joinEvent_not_found _ _ Hfind).
Qed.

Lemma joinEvent_shadowed_witness :
  Event.participants <$>
    appState.events (app (exec (joinEvent "event-1767000000000") twiceAtOneReading)) !! 4%nat
  = Some 1.
Proof.
  destruct (appState.events (app twiceAtOneReading) !! 3%nat) as [earlier|] eqn:H3;
    [|vm_compute in H3; discriminate].
  destruct (appState.events (app twiceAtOneReading) !! 4%nat) as [later|] eqn:H4;
    [|vm_compute in H4; discriminate].
  assert (Hid : Event.id earlier = Event.id later /\ Event.participants later = 1).
  { pose proof H3 as H3'. pose proof H4 as H4'. vm_compute in H3', H4'.
    injection H3' as <-. injection H4' as <-. split; reflexivity. }
  destruct Hid as [Hid Hp].
  rewrite (joinEvent_shadowed twiceAtOneReading 3 4 earlier later
             "event-1767000000000" ltac:(lia) H3 H4 Hid).
  cbn [fmap option_fmap option_map]. by rewrite Hp.
Defined.

(** ** Stamps of markers and layers *)

Lemma filter_ext_in {A} (P Q : A -> Prop) `{forall x, Decision (P x)}
    `{forall x, Decision (Q x)} (l : list A) :
  (forall x, x ∈ l -> (P x <-> Q x)) -> filter P l = filter Q l.
Proof.
  induction l as [|x l IH]; intros Hl; [done|].
  rewrite !filter_cons, IH by (intros y Hy; apply Hl; by right).
  destruct (decide (P x)) as [HP|HP], (decide (Q x)) as [HQ|HQ]; try done;
    exfalso; apply (Hl x) in HP || apply (Hl x) in HQ; try done; by left.
Qed.

Lemma stamped_mono p q :
  appState.markers (app q) = appState.markers (app p) ->
  appState.map (app q) = appState.map (app p) ->
  appState.userMarker (app q) = appState.userMarker (app p) ->
  (lastStamp p <= lastStamp q)%nat ->
  stamped p -> stamped q.
Proof.
  unfold stamped. intros -> -> -> Hle (Hms & Hly & Hum). split; [|split].
  - eapply Forall_impl; [exact Hms|]. intros x Hx. simpl in Hx. lia.
  - intros m Hm. eapply Forall_impl; [exact (Hly m Hm)|]. intros x Hx. simpl in Hx. lia.
  - intros u Hu. specialize (Hum u Hu). lia.
Qed.

Lemma rendered_stamped p m :
  appState.map (app p) = Some m -> stamped p -> stamped (rendered p m).
Proof.
  intros Hm (Hms & Hly & Hum). specialize (Hly m Hm).
  destruct p as [[mp ul cr evs ms um n] d al an ls]. simpl in *. subst mp.
  split; [|split]; cbn -[markersFrom filter].
  - apply Forall_forall. intros x Hx. by apply markersFrom_stamp_le.
  - intros m' [= <-]. cbn -[markersFrom filter]. apply Forall_app. split.
    + apply Forall_forall. intros x [_ Hx]%list_elem_of_filter.
      rewrite Forall_forall in Hly. specialize (Hly x Hx). simpl in Hly. lia.
    + apply Forall_forall. intros x Hx. by apply markersFrom_stamp_le.
  - intros u Hu. specialize (Hum u Hu). lia.
Qed.

Lemma renderEvents_stamped p : stamped p -> stamped (exec renderEvents p).
Proof.
  intros Hp. destruct (appState.map (app p)) as [m|] eqn:Hm.
  - unfold exec. rewrite (renderEvents_Some p m Hm). by apply rendered_stamped.
  - rewrite (proj1 (renderEvents_None p Hm)). by apply (stamped_mono p).
Qed.

Lemma renderEvents_then_alert_stamped msg p :
  stamped p -> stamped (exec (renderEvents ;; alert msg) p).
Proof.
  intros Hp. apply renderEvents_stamped in Hp. revert Hp.
  unfold exec, bind. destruct (renderEvents p) as [[[]|e] p1]; [|done].
  by apply stamped_mono.
Qed.

Lemma initializeMap_stamped leaflet p :
  stamped p -> stamped (exec (initializeMap leaflet) p).
Proof.
  destruct leaflet; [|done]. intros (Hms & Hly & Hum).
  destruct p as [[mp ul cr evs ms um n] d al an ls]. simpl in *.
  split; [|split]; simpl.
  - eapply Forall_impl; [exact Hms|]. intros x Hx. simpl in Hx. lia.
  - intros m' [= <-]. constructor.
  - intros u Hu. specialize (Hum u Hu). lia.
Qed.

Lemma retryMap_stamped leaflet p : stamped p -> stamped (exec (retryMap leaflet) p).
Proof.
  intros Hp.
  assert (Hq : stamped (with_doc (document.set_mapEl MapEmptied (doc p)) p))
    by (revert Hp; by apply stamped_mono).
  unfold exec at 1. destruct leaflet; [|by rewrite retryMap_false].
  rewrite retryMap_true. cbn [snd].
  by apply renderEvents_stamped, initializeMap_stamped.
Qed.

Lemma joinEvent_stamped eventId p : stamped p -> stamped (exec (joinEvent eventId) p).
Proof.
  intros Hp.
  destruct (list_find (fun e => Event.id e = eventId) (appState.events (app p)))
    as [[i event]|] eqn:Hfind.
  - unfold exec. rewrite (joinEvent_found_eq _ _ _ _ Hfind).
    apply renderEvents_then_alert_stamped. revert Hp. by apply stamped_mono.
  - unfold exec. by rewrite (joinEvent_not_found _ _ Hfind).
Qed.

(** The page on which [createEventMarker] re-renders: the new event is in
    the store and its marker, made by [addBeachMarker], is on the map. *)
Lemma createEventMarker_eq p m beachName eventDate now :
  appState.map (app p) = Some m ->
  beachName <> EmptyString -> eventDate <> EmptyString ->
  let newEvent :=
    {| Event.id := event_id now; Event.name := beachName;
       Event.lat := lat (LMap.center m); Event.lng := lng (LMap.center m);
       Event.date := eventDate; Event.time := None; Event.participants := 1;
       Event.description := None; Event.creator := Some "You" |} in
  let marker := markerOf (S (lastStamp p)) newEvent in
  createEventMarker (Some beachName) (Some eventDate) now p
  = (renderEvents ;; alert (createAlert beachName))
      {| app := appState.set_markers (appState.markers (app p) ++ [marker])
                  (appState.set_map (Some (LMap.addLayer marker m))
                     (appState.set_events (appState.events (app p) ++ [newEvent]) (app p)));
         doc := doc p; alerts := alerts p; announcements := announcements p;
         lastStamp := S (lastStamp p) |}.
Proof.
  intros Hm Hn Hd newEvent marker. unfold createEventMarker.
  rewrite (falsy_Some _ Hn), (falsy_Some _ Hd). cbv zeta.
  rewrite (with_map_Some _ _ m Hm). simpl default.
  erewrite bind_Normal; [|reflexivity].
  erewrite bind_Normal;
    [|apply (addBeachMarker_Some _ m); by destruct p as [[] ? ? ? ?]].
  by destruct p as [[] ? ? ? ?].
Qed.

Lemma createEventMarker_stamped beachName eventDate now p :
  stamped p -> stamped (exec (createEventMarker beachName eventDate now) p).
Proof.
  intros Hp. destruct (falsy beachName) eqn:Hn.
  { unfold exec, createEventMarker. by rewrite Hn. }
  destruct (falsy eventDate) eqn:Hd.
  { unfold exec, createEventMarker. by rewrite Hn, Hd. }
  destruct beachName as [[|c1 n1]|], eventDate as [[|c2 d2]|]; try discriminate.
  destruct (appState.map (app p)) as [m|] eqn:Hm.
  - unfold exec. rewrite (createEventMarker_eq p m _ _ now Hm) by done.
    apply renderEvents_then_alert_stamped.
    destruct Hp as (Hms & Hly & Hum). specialize (Hly m Hm).
    destruct p as [[mp ul cr evs ms um n] d al an ls]. simpl in *.
    split; [|split]; cbn -[popupContent].
    + apply Forall_app. split; [|apply Forall_singleton; simpl; lia].
      eapply Forall_impl; [exact Hms|]. intros x Hx. simpl in Hx. lia.
    + intros m' [= <-]. cbn -[popupContent].
      apply Forall_app. split; [|apply Forall_singleton; simpl; lia].
      eapply Forall_impl; [exact Hly|]. intros x Hx. simpl in Hx. lia.
    + intros u Hu. specialize (Hum u Hu). lia.
  - unfold exec, createEventMarker. cbn [falsy]. cbv zeta. by rewrite with_map_None.
Qed.

Lemma userLocation_stamped geo p : stamped p -> stamped (exec (userLocation geo) p).
Proof.
  intros (Hms & Hly & Hum).
  destruct p as [[mp ul cr evs ms um n] d al an ls]. simpl in *.
  destruct geo as [|latitude longitude|msg]; [done| |done].
  destruct mp as [m|].
  - specialize (Hly m eq_refl).
    assert (Hnew : stamped
      {| app := {| appState.map := Some (LMap.setView {| lat := latitude; lng := longitude |} 12
                     (LMap.addLayer {| Marker.stamp := S ls;
                                       Marker.position := {| lat := latitude; lng := longitude |};
                                       Marker.title := "Your Location";
                                       Marker.popup := "📍 You are here" |}
                        (match um with Some old => LMap.removeLayer old m | None => m end)));
                   appState.userLocation := Some {| lat := latitude; lng := longitude |};
                   appState.crews := cr; appState.events := evs; appState.markers := ms;
                   appState.userMarker :=
                     Some {| Marker.stamp := S ls;
                             Marker.position := {| lat := latitude; lng := longitude |};
                             Marker.title := "Your Location";
                             Marker.popup := "📍 You are here" |};
                   appState.nextCleanupParticipants := n |};
         doc := d; alerts := al; announcements := an; lastStamp := S ls |}).
    { split; [|split]; simpl.
      - eapply Forall_impl; [exact Hms|]. intros x Hx. simpl in Hx. lia.
      - intros m' [= <-]. simpl. apply Forall_app.
        split; [|apply Forall_singleton; simpl; lia].
        destruct um as [old|]; simpl.
        + apply Forall_forall. intros x [_ Hx]%list_elem_of_filter.
          rewrite Forall_forall in Hly. specialize (Hly x Hx). simpl in Hly. lia.
        + eapply Forall_impl; [exact Hly|]. intros x Hx. simpl in Hx. lia.
      - intros u [= <-]. simpl. lia. }
    by destruct um.
  - destruct um; (split; [|split]); simpl; try done; intros u Hu; by apply Hum.
Qed.

Section StampedSession.
Context `{DateApi}.

Lemma perform_stamped (a : Action) (p : Page) :
stamped p -> stamped (exec (perform a) p).
Proof.
intros Hp. destruct a; cbn [perform].
- by apply initializeMap_stamped.
- by apply retryMap_stamped.
- done.
- destruct (doc_only_loadWeather response today p) as [d ->]. done.
- done.
- by apply renderEvents_stamped.
- by apply userLocation_stamped.
- by apply createEventMarker_stamped.
- by apply joinEvent_stamped.
- done.
- done.
Qed.

(** Every page of a session is stamped. *)
Lemma run_stamped (actions : list Action) : stamped (run actions Page_init).
Proof.
assert (Hrun : forall p, stamped p -> stamped (run actions p)).
{ induction actions as [|a actions IH]; intros p Hp; [done|].
  cbn [run fold_left]. apply IH. by apply perform_stamped. }
apply Hrun. split; [constructor|]. split; [intros m [=]|intros u [=]].
Qed.

End StampedSession.

(** ** [createEventMarker], beyond the id *)

(** The card of an event carries its name as it is, markup and all; so does
    the popup of its marker. *)
Lemma eventCard_name event :
  includes (Event.name event) (eventCard event) = true.
Proof.
  unfold eventCard, tpl. cbn [foldr].
  find_piece.
Qed.

Lemma popupContent_name name event :
  includes name (popupContent name event) = true.
Proof.
  unfold popupContent, tpl. cbn [foldr].
  find_piece.
Qed.

(** The card of an event without [time] reads "undefined" for it. *)
Lemma eventCard_no_time event :
  Event.time event = None -> Event.description event = None ->
  includes "⏰ undefined" (eventCard event) = true /\
  includes "undefined
            </p>
            <button" (eventCard event) = true.
Proof.
  intros Ht Hd. unfold eventCard, tpl. rewrite Ht, Hd. cbn [foldr show_str default].
  split; find_in_tail.
Qed.

(** Without a map, a creation with both answers given throws at
    [appState.map.getCenter()]: nothing is added to the store, nothing is
    rendered and no dialog is shown. *)
Theorem createEventMarker_without_map (p : Page) (beachName eventDate : string) (now : Z) :
  appState.map (app p) = None ->
  beachName <> EmptyString -> eventDate <> EmptyString ->
  exists e, createEventMarker (Some beachName) (Some eventDate) now p = (Throw e, p).
Proof.
  intros Hm Hn Hd. unfold createEventMarker.
  rewrite (falsy_Some _ Hn), (falsy_Some _ Hd). cbv zeta.
  rewrite with_map_None by done. by eexists.
Qed.

Lemma createEventMarker_without_map_witness :
  exists e,
    createEventMarker (Some "Sentosa") (Some "2026-01-17") 1767000000000 seededPage_noMap
    = (Throw e, seededPage_noMap).
Proof.
  apply (createEventMarker_without_map seededPage_noMap "Sentosa" "2026-01-17");
    [reflexivity | discriminate | discriminate].
Defined.

(** With a map, a creation with both answers given returns after one dialog
    naming the beach; the new event sits at the centre of the map; the page
    shows the store, new event included, the list being the former cards
    followed by the new card; and the map carries one marker per event: its
    former layers less the markers of the collection, then the new markers.
    The marker that [addBeachMarker] puts on the map before the re-render is
    taken off again by it. *)
Theorem createEventMarker_shows_store (p : Page) (m : LMap.t)
    (beachName eventDate : string) (now : Z) :
  appState.map (app p) = Some m ->
  stamped p ->
  beachName <> EmptyString -> eventDate <> EmptyString ->
  let p' := exec (createEventMarker (Some beachName) (Some eventDate) now) p in
  let newEvent :=
    {| Event.id := event_id now; Event.name := beachName;
       Event.lat := lat (LMap.center m); Event.lng := lng (LMap.center m);
       Event.date := eventDate; Event.time := None; Event.participants := 1;
       Event.description := None; Event.creator := Some "You" |} in
  outcome (createEventMarker (Some beachName) (Some eventDate) now) p = Normal tt /\
  appState.events (app p') = appState.events (app p) ++ [newEvent] /\
  shows_store p' /\
  document.eventsList (doc p') = String.append (eventsHtml p) (eventCard newEvent) /\
  alerts p' = alerts p ++ [createAlert beachName] /\
  length (appState.markers (app p')) = S (length (appState.events (app p))) /\
  exists m',
    appState.map (app p') = Some m' /\
    LMap.layers m'
    = filter (fun x => Marker.stamp x ∉ Marker.stamp <$> appState.markers (app p))
        (LMap.layers m) ++ appState.markers (app p').
Proof.
  intros Hm (Hms & Hly & _) Hn Hd p' newEvent; subst p'. specialize (Hly m Hm).
  unfold exec, outcome. rewrite (createEventMarker_eq p m _ _ now Hm Hn Hd).
  erewrite renderEvents_then_alert_Some; [|by destruct p as [[] ? ? ? ?]].
  destruct p as [[mp ul cr evs ms um n] d al an ls]. simpl in Hm, Hms, Hly; subst mp.
  fold newEvent.
  split; [done|]. split; [done|]. split; [|split; [|split; [done|split]]].
  - split; [done|]. cbn -[markersFrom eventCard markerOf]. apply markersFrom_content.
  - cbn -[eventCard]. unfold eventsHtml, join. cbn -[eventCard].
    rewrite fmap_app, tpl_app. f_equal. cbn -[eventCard].
    induction (eventCard newEvent) as [|c s IH]; [done|]. by rewrite append_String, IH.
  - cbn -[markersFrom markerOf]. rewrite markersFrom_length, length_app. simpl. lia.
  - eexists. split; [reflexivity|]. cbn -[markersFrom markerOf filter].
    f_equal. rewrite filter_app.
    rewrite (filter_ext_in _
      (fun x => Marker.stamp x ∉ Marker.stamp <$> ms) (LMap.layers m)).
    + rewrite filter_cons. destruct (decide _) as [Hnot|_]; [|by rewrite app_nil_r].
      exfalso. apply Hnot. rewrite fmap_app. apply elem_of_app. right. by left.
    + intros x Hx. rewrite Forall_forall in Hly. specialize (Hly x Hx). simpl in Hly.
      rewrite fmap_app, elem_of_app. cbn [fmap list_fmap markerOf Marker.stamp].
      rewrite list_elem_of_singleton. split; [tauto|]. intros Hnot [Hin|Heq]; [done|lia].
Qed.

Lemma createEventMarker_shows_store_witness :
  let p' := exec (createEventMarker (Some "Sentosa") (Some "2026-01-17") 1767000000000)
              seededPage in
  outcome (createEventMarker (Some "Sentosa") (Some "2026-01-17") 1767000000000)
    seededPage = Normal tt /\
  shows_store p' /\
  length (appState.markers (app p')) = 4%nat /\
  (LMap.layers <$> appState.map (app p')) = Some (appState.markers (app p')).
Proof.
  destruct (appState.map (app seededPage)) as [m|] eqn:Hm; [|vm_compute in Hm; discriminate].
  destruct (createEventMarker_shows_store seededPage m "Sentosa" "2026-01-17"
              1767000000000 Hm) as (Hout & _ & Hshow & _ & _ & Hlen & m' & Hm' & Hly).
  { apply (run_stamped (H:=epochDays) [InitializeMap true; LoadMockData]). }
  { discriminate. }
  { discriminate. }
  split; [exact Hout|]. split; [exact Hshow|]. split; [by rewrite Hlen|].
  cbv zeta. rewrite Hm'. cbn [fmap option_fmap option_map]. f_equal. rewrite Hly.
  pose proof Hm as Hm2. vm_compute in Hm2. injection Hm2 as <-. reflexivity.
Defined.

(** A created event has no [time] and no [description]: on the page its card
    reads "undefined" for both. And its name is shown as it was typed, with
    any markup in it: in the list and in the popup of its marker. *)
Theorem createEventMarker_card (p : Page) (m : LMap.t)
    (beachName eventDate : string) (now : Z) :
  appState.map (app p) = Some m ->
  beachName <> EmptyString -> eventDate <> EmptyString ->
  let p' := exec (createEventMarker (Some beachName) (Some eventDate) now) p in
  includes "⏰ undefined" (document.eventsList (doc p')) = true /\
  includes beachName (document.eventsList (doc p')) = true /\
  exists marker,
    last (appState.markers (app p')) = Some marker /\
    Marker.title marker = beachName /\
    includes beachName (Marker.popup marker) = true.
Proof.
  intros Hm Hn Hd p'; subst p'.
  unfold exec. rewrite (createEventMarker_eq p m _ _ now Hm Hn Hd).
  erewrite renderEvents_then_alert_Some; [|by destruct p as [[] ? ? ? ?]].
  destruct p as [[mp ul cr evs ms um n] d al an ls]. simpl in Hm; subst mp.
  cbn -[eventCard markersFrom markerOf]. unfold eventsHtml.
  cbn -[eventCard markersFrom markerOf].
  match goal with
  | |- context [eventCard <$> evs ++ [?e]] => set (newEvent := e)
  end.
  assert (Hin : eventCard newEvent ∈ eventCard <$> evs ++ [newEvent]).
  { apply list_elem_of_fmap. exists newEvent. split; [done|].
    apply elem_of_app. right. by left. }
  split; [|split].
  - apply (includes_join _ _ _ Hin).
    exact (proj1 (eventCard_no_time newEvent eq_refl eq_refl)).
  - apply (includes_join _ _ _ Hin). exact (eventCard_name newEvent).
  - exists (markerOf (S (S ls) + length evs) newEvent). split; [|split].
    + rewrite last_lookup, markersFrom_length, length_app, markersFrom_lookup.
      cbn [length]. rewrite Nat.add_1_r. cbn [Nat.pred].
      rewrite lookup_app_r by lia. rewrite Nat.sub_diag. cbn.
      by do 2 f_equal.
    + done.
    + apply popupContent_name.
Qed.

Lemma createEventMarker_card_witness :
  includes "<b>Sentosa</b>"
    (document.eventsList
       (doc (exec (createEventMarker (Some "<b>Sentosa</b>") (Some "2026-01-17")
                     1767000000000) seededPage))) = true.
Proof.
  destruct (appState.map (app seededPage)) as [m|] eqn:Hm; [|vm_compute in Hm; discriminate].
  destruct (createEventMarker_card seededPage m "<b>Sentosa</b>" "2026-01-17"
              1767000000000 Hm) as (_ & Hname & _); [discriminate | discriminate |].
  exact Hname.
Defined.

(** ** When the weather is live *)

Section LiveWeather.
Context `{DateApi}.

(** A row is text made from its entry alone; without one of the four
  properties it throws. Neither writes to the page. *)
Lemma forecastRow_cases (f : Forecast.t) :
if entry_ok f
then exists row, forall p, forecastRow f p = (Normal row, p)
else exists e, forall p, forecastRow f p = (Throw e, p).
Proof.
unfold entry_ok, forecastRow, bind, access, ret, throw.
destruct (Forecast.wind f) as [wind|]; cbn [andb];
  [|eexists; intros p; reflexivity].
destruct (Wind.speed wind) as [speed|]; cbn [andb];
  [|eexists; intros p; reflexivity].
destruct (Forecast.temperature f) as [temperature|]; cbn [andb];
  [|eexists; intros p; reflexivity].
destruct (Forecast.relative_humidity f) as [humidity|];
  eexists; intros p; reflexivity.
Qed.

Lemma mapM_forecastRow_cases (fs : list Forecast.t) :
if forallb entry_ok fs
then exists rows,
       rows_of fs rows /\ forall p, mapM forecastRow fs p = (Normal rows, p)
else exists e, forall p, mapM forecastRow fs p = (Throw e, p).
Proof.
induction fs as [|f fs IH]; [exists []; split; [constructor | done]|].
cbn [forallb mapM]. pose proof (forecastRow_cases f) as Hf.
destruct (entry_ok f); cbn [andb].
- destruct Hf as [row Hrow]. destruct (forallb entry_ok fs).
  + destruct IH as (rows & Hof & Hrows). exists (row :: rows).
    split; [by constructor|]. intros p.
    rewrite (bind_Normal _ _ _ _ _ (Hrow p)).
    by rewrite (bind_Normal _ _ _ _ _ (Hrows p)).
  + destruct IH as [e He]. exists e. intros p.
    rewrite (bind_Normal _ _ _ _ _ (Hrow p)). unfold bind. by rewrite He.
- destruct Hf as [e He]. exists e. intros p. unfold bind. by rewrite He.
Qed.

(** Run the straight-line steps of the [try] block. *)
Ltac weather_steps :=
unfold bind, access, ret, throw, modify_doc;
cbn [Data.items Item.forecasts default from_option id firstn lookup list_lookup].

(** What the [try] block of [loadWeather] does, for every answer: either the
  answer is [live_ok] and the block returns, having written the three
  panels from the first entry and the rows of the first four entries; or
  it is not, and the block throws, having written nothing or the
  current-conditions panel only. *)
Lemma loadWeather_try_cases (response : FetchResult) :
if live_ok response
then exists currentForecast temperature wind speed rows,
       firstEntry response = Some currentForecast /\
       Forecast.temperature currentForecast = Some temperature /\
       Forecast.wind currentForecast = Some wind /\
       Wind.speed wind = Some speed /\
       rows_of (take 4 (forecastsOf response)) rows /\
       let t := Math_round_half (js_add (Range.high temperature) (Range.low temperature)) in
       forall p,
         loadWeather_try response p
         = (Normal tt,
            with_doc (document.set_waterInfo (liveWaterHtml t wind speed)
                        (document.set_forecastInfo (join rows)
                           (document.set_weatherInfo
                              (liveWeatherHtml t currentForecast) (doc p)))) p)
else exists e,
       (forall p, loadWeather_try response p = (Throw e, p)) \/
       exists weather,
         forall p, loadWeather_try response p
                   = (Throw e, with_doc (document.set_weatherInfo weather (doc p)) p).
Proof.
destruct response as [reason|ok status body]; [eexists; by left|].
destruct ok; [|eexists; by left].
destruct body as [| |data]; try (eexists; by left).
unfold live_ok, forecastsOf, firstEntry, loadWeather_try. cbn [negb].
destruct data as [[[|item rest]|]]; cbn [Data.items]; try (eexists; by left).
destruct item as [[[|currentForecast more]|]]; cbn [Item.forecasts default];
  try (eexists; by left).
unfold id. cbn [firstn forallb mbind option_bind head Item.forecasts].
pose proof (mapM_forecastRow_cases (currentForecast :: take 3 more)) as Hrows.
cbn [forallb] in Hrows.
destruct (entry_ok currentForecast) eqn:Hok; cbn [andb] in *.
- unfold entry_ok in Hok.
  destruct (Forecast.wind currentForecast) as [wind|] eqn:Hwind; [|discriminate].
  destruct (Wind.speed wind) as [speed|] eqn:Hspeed; [|discriminate].
  destruct (Forecast.temperature currentForecast) as [temperature|] eqn:Htemp;
    [|discriminate].
  clear Hok. destruct (forallb entry_ok (take 3 more)); cbv iota.
  + destruct Hrows as (rows & Hof & Hrows).
    exists currentForecast, temperature, wind, speed, rows.
    do 4 (split; [done|]). split; [exact Hof|]. cbv zeta. intros p. weather_steps.
    rewrite Htemp; cbv beta iota. rewrite Hrows; cbv beta iota.
    rewrite ?Htemp, ?Hwind; cbv beta iota. rewrite ?Hspeed; cbv beta iota.
    by destruct p as [? [] ? ? ?].
  + destruct Hrows as [e He]. exists e. right. eexists. intros p. weather_steps.
    rewrite Htemp; cbv beta iota. by rewrite He.
- cbv iota. destruct (Forecast.temperature currentForecast) as [temperature|] eqn:Htemp.
  + destruct Hrows as [e He]. exists e. right. eexists. intros p. weather_steps.
    rewrite Htemp; cbv beta iota. by rewrite He.
  + eexists. left. intros p. weather_steps. by rewrite Htemp.
Qed.

End LiveWeather.

Section LiveWeatherProperties.
Context `{DateApi}.

Lemma fallbackWeatherHtml_not_live : includes "✓ Live NEA Data" fallbackWeatherHtml = false.
Proof. vm_compute. reflexivity. Qed.

(** With a [live_ok] answer the [try] block returns and the three panels
  are the live ones: the current conditions and the water conditions made
  from the first entry, the forecast made of the rows of the first four
  entries. *)
Lemma loadWeather_live_panels (response : FetchResult) (today : JsDate) (p : Page) :
live_ok response = true ->
exists currentForecast temperature wind speed rows,
  firstEntry response = Some currentForecast /\
  Forecast.temperature currentForecast = Some temperature /\
  Forecast.wind currentForecast = Some wind /\
  Wind.speed wind = Some speed /\
  rows_of (take 4 (forecastsOf response)) rows /\
  loadWeather_try response p = (Normal tt, exec (loadWeather response today) p) /\
  let t := Math_round_half (js_add (Range.high temperature) (Range.low temperature)) in
  weatherPanels (exec (loadWeather response today) p)
  = (liveWeatherHtml t currentForecast, join rows, liveWaterHtml t wind speed).
Proof.
intros Hlive. pose proof (loadWeather_try_cases response) as Hc.
rewrite Hlive in Hc.
destruct Hc as (cf & temperature & wind & speed & rows & Hf & Ht & Hw & Hs & Hof & Htry).
unfold exec, loadWeather, try_catch. cbv zeta in Htry. rewrite Htry. cbn [snd].
exists cf, temperature, wind, speed, rows. by destruct p as [? [] ? ? ?].
Qed.

(** A row shows the temperatures and the forecast text of its entry. *)
Lemma forecastRow_shows (f : Forecast.t) (row : string) :
(forall q, forecastRow f q = (Normal row, q)) ->
exists temperature,
  Forecast.temperature f = Some temperature /\
  includes (tpl [" "; show_num (Range.high temperature); "°C - ";
                 show_num (Range.low temperature); "°C"; nl]) row = true /\
  includes (tpl [" "; show_str (Forecast.forecast f); nl]) row = true.
Proof.
intros Hrow. specialize (Hrow Page_init). revert Hrow.
unfold forecastRow, bind, access, ret, throw.
destruct (Forecast.wind f) as [wind|]; [|discriminate].
destruct (Wind.speed wind) as [speed|]; [|discriminate].
destruct (Forecast.temperature f) as [temperature|]; [|discriminate].
destruct (Forecast.relative_humidity f) as [humidity|]; [|discriminate].
intros [= <-]. exists temperature. split; [done|].
unfold tpl. cbn [foldr]. split; find_anchored.
Qed.

(** What the rows of some entries show is in the panel made of them. *)
Lemma rows_of_shown (fs : list Forecast.t) (rows : list string) (f : Forecast.t) :
rows_of fs rows -> f ∈ fs ->
exists temperature,
  Forecast.temperature f = Some temperature /\
  includes (tpl [" "; show_num (Range.high temperature); "°C - ";
                 show_num (Range.low temperature); "°C"; nl]) (join rows) = true /\
  includes (tpl [" "; show_str (Forecast.forecast f); nl]) (join rows) = true.
Proof.
intros Hof [i Hi]%list_elem_of_lookup.
destruct (Forall2_lookup_l _ _ _ _ _ Hof Hi) as (row & Hrow%list_elem_of_lookup_2 & Hf).
destruct (forecastRow_shows f row Hf) as (temperature & Ht & Htemp & Htext).
exists temperature. split; [done|].
split; by apply (includes_join _ row).
Qed.

(** C5. [loadWeather] never throws to its caller. Whatever the fetch
  answers, it returns. Either the answer is usable and the [try] block ran
  to its end: the page is as that block left it, the current-conditions
  panel carries the "Live NEA Data" mark, and (for readings that doubles
  hold exactly) the three panels are the live ones, made from the first
  entry and from the rows of the first four entries. Or the block threw at
  some point and the page is what [loadWeatherFallback] then makes of it,
  the three panels holding the synthetic data set with its demo-data
  notice. In both cases nothing but the document is written. *)
Theorem loadWeather_never_throws (response : FetchResult) (today : JsDate) (p : Page) :
let p' := exec (loadWeather response today) p in
outcome (loadWeather response today) p = Normal tt /\
((live_ok response = true /\
  loadWeather_try response p = (Normal tt, p') /\
  includes "✓ Live NEA Data" (document.weatherInfo (doc p')) = true /\
  (safe_readings response ->
   exists currentForecast temperature wind speed rows,
     firstEntry response = Some currentForecast /\
     Forecast.temperature currentForecast = Some temperature /\
     Forecast.wind currentForecast = Some wind /\
     Wind.speed wind = Some speed /\
     rows_of (take 4 (forecastsOf response)) rows /\
     let t := Math_round_half (js_add (Range.high temperature) (Range.low temperature)) in
     document.weatherInfo (doc p') = liveWeatherHtml t currentForecast /\
     document.forecastInfo (doc p') = join rows /\
     document.waterInfo (doc p') = liveWaterHtml t wind speed)) \/
 (live_ok response = false /\
  exists e p1,
    loadWeather_try response p = (Throw e, p1) /\
    p' = exec (loadWeatherFallback today) p1 /\
    document.weatherInfo (doc p') = fallbackWeatherHtml /\
    document.forecastInfo (doc p') = join (fallbackRow <$> fallbackForecast today) /\
    document.waterInfo (doc p') = fallbackWaterHtml /\
    includes "⚠️ Using demo data (API unavailable)"
      (document.weatherInfo (doc p')) = true)) /\
app p' = app p /\ alerts p' = alerts p.
Proof.
intros p'; subst p'.
assert (Happ : app (exec (loadWeather response today) p) = app p /\
               alerts (exec (loadWeather response today) p) = alerts p).
{ destruct (doc_only_loadWeather response today p) as [d ->]. by destruct p. }
assert (Hout : outcome (loadWeather response today) p = Normal tt).
{ unfold outcome, loadWeather, try_catch.
  by destruct (loadWeather_try response p) as [[[]|e] p1]. }
split; [exact Hout|]. split; [|exact Happ]. clear Happ Hout.
destruct (live_ok response) eqn:Hlive; [left | right]; (split; [done|]).
- destruct (loadWeather_live_panels response today p Hlive)
    as (cf & tr & wind & speed & rows & Hf & Ht & Hw & Hs & Hof & Htry & Heq).
  cbv zeta in Heq. unfold weatherPanels in Heq. injection Heq as Hwi Hfi Hwa.
  split; [exact Htry|].
  split; [rewrite Hwi; apply liveWeatherHtml_indicator|]. intros _.
  by exists cf, tr, wind, speed, rows.
- pose proof (loadWeather_try_cases response) as Hc. rewrite Hlive in Hc.
  assert (Hthrow : exists e p1, loadWeather_try response p = (Throw e, p1)).
  { destruct Hc as [e [Htry|[weather Htry]]]; exists e; eexists; apply Htry. }
  destruct Hthrow as (e & p1 & Htry). exists e, p1. split; [exact Htry|].
  unfold exec, loadWeather, try_catch. rewrite Htry.
  rewrite loadWeatherFallback_exec. cbn [snd doc with_doc].
  do 4 (split; [reflexivity|]). vm_compute. reflexivity.
Qed.

(** The "Live NEA Data" mark is on the page exactly when the answer is
  [live_ok]. Then (for readings that doubles hold exactly) the three
  panels are the live ones: the current conditions and the water
  conditions made from the first entry, and the forecast made of the rows
  that the callback returns for the first four entries, in order, each row
  showing the temperatures and the forecast text of its entry. Otherwise
  all three are the synthetic ones, also when the first entry was good and
  the current conditions had already been written from it. *)
Theorem loadWeather_live_exactly (response : FetchResult) (today : JsDate) (p : Page) :
let p' := exec (loadWeather response today) p in
includes "✓ Live NEA Data" (document.weatherInfo (doc p')) = live_ok response /\
(live_ok response = false ->
 weatherPanels p'
 = (fallbackWeatherHtml, join (fallbackRow <$> fallbackForecast today),
    fallbackWaterHtml)) /\
(live_ok response = true -> safe_readings response ->
 exists currentForecast temperature wind speed rows,
   firstEntry response = Some currentForecast /\
   Forecast.temperature currentForecast = Some temperature /\
   Forecast.wind currentForecast = Some wind /\
   Wind.speed wind = Some speed /\
   rows_of (take 4 (forecastsOf response)) rows /\
   length rows = length (take 4 (forecastsOf response)) /\
   (let t := Math_round_half (js_add (Range.high temperature) (Range.low temperature)) in
    weatherPanels p'
    = (liveWeatherHtml t currentForecast, join rows, liveWaterHtml t wind speed)) /\
   forall f, f ∈ take 4 (forecastsOf response) ->
     exists shown,
       Forecast.temperature f = Some shown /\
       includes (tpl [" "; show_num (Range.high shown); "°C - ";
                      show_num (Range.low shown); "°C"; nl])
         (document.forecastInfo (doc p')) = true /\
       includes (tpl [" "; show_str (Forecast.forecast f); nl])
         (document.forecastInfo (doc p')) = true).
Proof.
intros p'; subst p'. pose proof (loadWeather_try_cases response) as Hc.
pose proof (loadWeather_live_panels response today p) as Hlive.
destruct (live_ok response).
- destruct (Hlive eq_refl)
    as (cf & tr & wind & speed & rows & Hf & Ht & Hw & Hs & Hof & _ & Heq).
  cbv zeta in Heq. unfold weatherPanels in Heq. injection Heq as Hwi Hfi Hwa.
  split; [rewrite Hwi; apply liveWeatherHtml_indicator|].
  split; [discriminate|]. intros _ _.
  exists cf, tr, wind, speed, rows. do 4 (split; [done|]). split; [exact Hof|].
  split; [symmetry; exact (Forall2_length _ _ _ Hof)|].
  split; [unfold weatherPanels; by rewrite Hwi, Hfi, Hwa|].
  intros f Hin. rewrite Hfi. by apply (rows_of_shown _ _ _ Hof).
- clear Hlive. unfold exec, loadWeather, try_catch.
  assert (Hfb : forall e p1,
            loadWeather_try response p = (Throw e, p1) ->
            weatherPanels (loadWeatherFallback today p1).2
            = (fallbackWeatherHtml, join (fallbackRow <$> fallbackForecast today),
               fallbackWaterHtml)).
  { intros e p1 _. by rewrite loadWeatherFallback_exec. }
  destruct Hc as [e [Htry|[weather Htry]]]; rewrite Htry;
    specialize (Hfb _ _ (Htry p)); (split; [|split; [done|discriminate]]);
    rewrite loadWeatherFallback_exec; apply fallbackWeatherHtml_not_live.
Qed.

(** What [loadWeather] leaves in the three panels does not depend on what
  the page held before: the panels are written over, never added to. *)
Theorem loadWeather_overwrites (response : FetchResult) (today : JsDate) (p q : Page) :
weatherPanels (exec (loadWeather response today) p)
= weatherPanels (exec (loadWeather response today) q).
Proof.
pose proof (loadWeather_try_cases response) as Hc.
unfold exec, loadWeather, try_catch.
destruct (live_ok response).
- destruct Hc as (cf & temperature & wind & speed & rows & _ & _ & _ & _ & _ & Htry).
  cbv zeta in Htry. rewrite !Htry. by destruct p as [? [] ? ? ?], q as [? [] ? ? ?].
- destruct Hc as [e [Htry|[weather Htry]]]; rewrite !Htry;
    by rewrite !loadWeatherFallback_exec.
Qed.

(** Entries after the fourth are never read: cutting the forecasts after
  the fourth changes nothing, whatever the later entries hold. *)
Theorem loadWeather_firstFour (response : FetchResult) (today : JsDate) (p : Page) :
loadWeather (firstFour response) today p = loadWeather response today p.
Proof.
unfold loadWeather, try_catch.
assert (Htry : loadWeather_try (firstFour response) p = loadWeather_try response p);
  [|by rewrite Htry].
destruct response as [reason|ok status [| |[[[|[[fs|]] rest]|]]]]; try reflexivity.
unfold firstFour, loadWeather_try.
cbn [Data.items Item.forecasts fmap option_fmap option_map default from_option].
unfold id. destruct fs as [|cf more]; [reflexivity|].
destruct ok; cbn [negb]; [|reflexivity].
rewrite !(bind_Normal (ret _) _ p _ p eq_refl). cbv beta zeta.
cbn [Data.items Item.forecasts from_option firstn]. by rewrite take_idemp.
Qed.

End LiveWeatherProperties.

Lemma liveWeatherHtml_temperature (t : Z) currentForecast :
  includes (tpl ["<strong>"; show_Z t; "°C</strong> - Current Temperature"])
    (liveWeatherHtml (Num t) currentForecast) = true.
Proof. unfold liveWeatherHtml, tpl. cbn [foldr show_number]. find_anchored. Qed.

Lemma liveWaterHtml_temperature (t : Z) wind speed :
  includes (tpl ["<strong>"; show_Z (t - 2); "°C</strong> Water Temperature"])
    (liveWaterHtml (Num t) wind speed) = true.
Proof. unfold liveWaterHtml, tpl. cbn [foldr show_number js_sub]. find_anchored. Qed.

Lemma liveHtml_NaN currentForecast wind speed :
  includes "<strong>NaN°C</strong> - Current Temperature"
    (liveWeatherHtml NaN currentForecast) = true /\
  includes "<strong>NaN°C</strong> Water Temperature"
    (liveWaterHtml NaN wind speed) = true.
Proof.
  unfold liveWeatherHtml, liveWaterHtml, tpl. cbn [foldr show_number js_sub].
  split; find_in_tail.
Qed.

Section LiveTemperature.
Context `{DateApi}.

(** In the live panels, for a high and a low that doubles hold exactly (up
  to 2^52 in size), the current temperature shown is the mean of the first
  entry's high and low, a half rounded up, and the water temperature shown
  is that less 2: the figure stands right after the opening tag and right
  before the unit. The temperature shown lies between the low and the
  high. *)
Theorem loadWeather_temperature (response : FetchResult) (today : JsDate) (p : Page)
  (currentForecast : Forecast.t) (temperature : Range.t) (low high : Z) :
live_ok response = true ->
firstEntry response = Some currentForecast ->
Forecast.temperature currentForecast = Some temperature ->
Range.low temperature = Some low ->
Range.high temperature = Some high ->
safe (Some low) -> safe (Some high) ->
let p' := exec (loadWeather response today) p in
let t := (high + low + 1) / 2 in
includes (tpl ["<strong>"; show_Z t; "°C</strong> - Current Temperature"])
  (document.weatherInfo (doc p')) = true /\
includes (tpl ["<strong>"; show_Z (t - 2); "°C</strong> Water Temperature"])
  (document.waterInfo (doc p')) = true /\
2 * t - 1 <= high + low <= 2 * t /\
(low <= high -> low <= t <= high) /\
- 2 ^ 52 <= t <= 2 ^ 52.
Proof.
intros Hlive Hfirst Htemp Hlow Hhigh Hsl Hsh p' t; subst p'.
destruct (loadWeather_live_panels response today p Hlive)
  as (cf & tr & wind & speed & rows & Hf & Ht & _ & _ & _ & _ & Heq).
assert (cf = currentForecast) as -> by congruence.
assert (tr = temperature) as -> by congruence.
cbv zeta in Heq. rewrite Hlow, Hhigh in Heq. cbn [js_add Math_round_half] in Heq.
fold t in Heq. unfold weatherPanels in Heq. injection Heq as -> _ ->.
split; [apply liveWeatherHtml_temperature|].
split; [apply liveWaterHtml_temperature|].
unfold safe in Hsl, Hsh. subst t.
split; [|split; [intros Hle|]]; Z.div_mod_to_equations; lia.
Qed.

(** A first entry whose [temperature] lacks its high or its low still gives
  the live panels: they show "NaN" for the temperature and for the water
  temperature. *)
Theorem loadWeather_NaN (response : FetchResult) (today : JsDate) (p : Page)
  (currentForecast : Forecast.t) (temperature : Range.t) :
live_ok response = true ->
firstEntry response = Some currentForecast ->
Forecast.temperature currentForecast = Some temperature ->
Range.low temperature = None \/ Range.high temperature = None ->
let p' := exec (loadWeather response today) p in
outcome (loadWeather_try response) p = Normal tt /\
includes "<strong>NaN°C</strong> - Current Temperature"
  (document.weatherInfo (doc p')) = true /\
includes "<strong>NaN°C</strong> Water Temperature"
  (document.waterInfo (doc p')) = true.
Proof.
intros Hlive Hfirst Htemp Hmiss p'; subst p'.
split.
{ pose proof (loadWeather_try_cases response) as Hc. rewrite Hlive in Hc.
  destruct Hc as (? & ? & ? & ? & ? & _ & _ & _ & _ & _ & Htry).
  unfold outcome. by rewrite Htry. }
destruct (loadWeather_live_panels response today p Hlive)
  as (cf & tr & wind & speed & rows & Hf & Ht & _ & _ & _ & _ & Heq).
assert (cf = currentForecast) as -> by congruence.
assert (tr = temperature) as -> by congruence.
assert (Hnan : js_add (Range.high temperature) (Range.low temperature) = NaN).
{ destruct Hmiss as [-> | ->]; [by destruct (Range.high temperature) | done]. }
cbv zeta in Heq. rewrite Hnan in Heq. cbn [Math_round_half] in Heq.
unfold weatherPanels in Heq. injection Heq as -> _ ->.
apply liveHtml_NaN.
Qed.

End LiveTemperature.

Lemma sampleResponse_safe (low : Z) :
  - 100 <= low <= 100 -> safe_readings (sampleResponse low).
Proof.
  intros Hlow. unfold safe_readings. cbn. apply Forall_cons_2; [|apply Forall_nil_2].
  unfold safe_entry, safe_range, safe. cbn. lia.
Qed.

Lemma loadWeather_never_throws_witness :
  outcome (@loadWeather epochDays (sampleResponse 12) 0) Page_init = Normal tt /\
  document.waterInfo (doc (exec (@loadWeather epochDays (sampleResponse 12) 0) Page_init))
  = liveWaterHtml (Num 29)
      {| Wind.direction := Some "NE";
         Wind.speed := Some {| Range.low := Some 12; Range.high := Some 20 |} |}
      {| Range.low := Some 12; Range.high := Some 20 |}.
Proof.
  destruct (@loadWeather_never_throws epochDays (sampleResponse 12) 0 Page_init)
    as (Hout & [(_ & _ & _ & Hlive)|(Hno & _)] & _); [|discriminate Hno].
  split; [exact Hout|].
  destruct (Hlive (sampleResponse_safe 12 ltac:(lia)))
    as (cf & tr & wind & speed & rows & Hf & Ht & Hw & Hs & _ & _ & _ & Hwater).
  injection Hf as <-. injection Ht as <-. injection Hw as <-. injection Hs as <-.
  exact Hwater.
Defined.

Lemma loadWeather_live_exactly_witness :
  includes "✓ Live NEA Data"
    (document.weatherInfo
       (doc (exec (@loadWeather epochDays (sampleResponse 12) 0) Page_init))) = true /\
  includes (tpl [" 33°C - 24°C"; nl])
    (document.forecastInfo
       (doc (exec (@loadWeather epochDays (sampleResponse 12) 0) Page_init))) = true /\
  weatherPanels (exec (@loadWeather epochDays (FetchFailed "offline") 0) Page_init)
  = (fallbackWeatherHtml, join (fallbackRow <$> @fallbackForecast epochDays 0),
     fallbackWaterHtml).
Proof.
  destruct (@loadWeather_live_exactly epochDays (sampleResponse 12) 0 Page_init)
    as (Hmark & _ & Hlive).
  split; [exact Hmark|]. split.
  - destruct (Hlive eq_refl (sampleResponse_safe 12 ltac:(lia)))
      as (cf & tr & wind & speed & rows & _ & _ & _ & _ & _ & _ & _ & Hshown).
    destruct (Hshown (sampleForecast 12)) as (shown & Hs & Htemp & _);
      [apply list_elem_of_here|].
    injection Hs as <-. exact Htemp.
  - exact (proj1 (proj2 (@loadWeather_live_exactly epochDays (FetchFailed "offline") 0
                           Page_init)) eq_refl).
Defined.

Lemma loadWeather_temperature_witness :
  includes "<strong>29°C</strong> - Current Temperature"
    (document.weatherInfo
       (doc (exec (@loadWeather epochDays (sampleResponse 12) 0) Page_init))) = true /\
  includes "<strong>27°C</strong> Water Temperature"
    (document.waterInfo
       (doc (exec (@loadWeather epochDays (sampleResponse 12) 0) Page_init))) = true.
Proof.
  assert (Hsafe : forall z, - 100 <= z <= 100 -> safe (Some z))
    by (intros z Hz; unfold safe; lia).
  destruct (@loadWeather_temperature epochDays (sampleResponse 12) 0 Page_init
              (sampleForecast 12) {| Range.low := Some 24; Range.high := Some 33 |} 24 33
              eq_refl eq_refl eq_refl eq_refl eq_refl
              (Hsafe 24 ltac:(lia)) (Hsafe 33 ltac:(lia))) as (Hw & Hs & _).
  split; [exact Hw | exact Hs].
Defined.

Lemma loadWeather_NaN_witness :
  live_ok partialResponse = true /\
  includes "<strong>NaN°C</strong> - Current Temperature"
    (document.weatherInfo
       (doc (exec (@loadWeather epochDays partialResponse 0) Page_init))) = true.
Proof.
  split; [reflexivity|].
  destruct (@loadWeather_NaN epochDays partialResponse 0 Page_init
              _ _ eq_refl eq_refl eq_refl (or_introl eq_refl)) as (_ & Hw & _).
  exact Hw.
Defined.

(** ** What is on the map *)

Lemma markersFrom_NoDup s evs : NoDup (Marker.stamp <$> markersFrom s evs).
Proof.
  revert s. induction evs as [|e evs IH]; intros s; [constructor|].
  cbn [markersFrom fmap list_fmap]. constructor; [|apply IH].
  intros (x & Hs & Hx)%list_elem_of_fmap. apply markersFrom_stamp in Hx.
  cbn [markerOf Marker.stamp] in Hs. lia.
Qed.

Lemma NoDup_fmap_filter {A B} (f : A -> B) (P : A -> Prop) `{forall x, Decision (P x)}
    (l : list A) :
  NoDup (f <$> l) -> NoDup (f <$> filter P l).
Proof.
  intros Hl. eapply sublist_NoDup; [exact Hl|]. apply fmap_sublist, sublist_filter.
Qed.

Lemma tidy_same p q :
  appState.markers (app q) = appState.markers (app p) ->
  appState.map (app q) = appState.map (app p) ->
  appState.userMarker (app q) = appState.userMarker (app p) ->
  tidy p -> tidy q.
Proof. unfold tidy. by intros -> -> ->. Qed.

Lemma rendered_tidy p m :
  appState.map (app p) = Some m -> stamped p -> tidy p -> tidy (rendered p m).
Proof.
  intros Hm (Hms & Hly & Hum) (Hmap & Huser).
  specialize (Hly m Hm). destruct (Hmap m Hm) as [Hnd Hin].
  rewrite Forall_forall in Hly.
  destruct p as [[mp ul cr evs ms um n] d al an ls]. simpl in *. subst mp.
  split; cbn -[markersFrom filter].
  - intros m' [= <-]. cbn -[markersFrom filter]. split.
    + rewrite fmap_app. apply NoDup_app. split; [by apply NoDup_fmap_filter|].
      split; [|apply markersFrom_NoDup].
      intros s (x & -> & [_ Hx]%list_elem_of_filter)%list_elem_of_fmap
               (y & Hs & Hy%markersFrom_stamp)%list_elem_of_fmap.
      specialize (Hly x Hx). simpl in Hly. lia.
    + intros l [[Hl Hx]%list_elem_of_filter|Hx]%elem_of_app; [|by left].
      right. destruct (Hin l Hx) as [Hold|Hu]; [|done].
      exfalso. apply Hl, list_elem_of_fmap. by exists l.
  - intros u Hu (y & Hs & Hy%markersFrom_stamp)%list_elem_of_fmap.
    specialize (Hum u Hu). lia.
Qed.

Lemma renderEvents_tidy p : stamped p -> tidy p -> tidy (exec renderEvents p).
Proof.
  intros Hs Hp. destruct (appState.map (app p)) as [m|] eqn:Hm.
  - unfold exec. rewrite (renderEvents_Some p m Hm). by apply rendered_tidy.
  - rewrite (proj1 (renderEvents_None p Hm)). by apply (tidy_same p).
Qed.

Lemma renderEvents_then_alert_tidy msg p :
  stamped p -> tidy p -> tidy (exec (renderEvents ;; alert msg) p).
Proof.
  intros Hs Hp. pose proof (renderEvents_tidy p Hs Hp) as Ht. revert Ht.
  unfold exec, bind. destruct (renderEvents p) as [[[]|e] p1]; [|done].
  by apply tidy_same.
Qed.

Lemma initializeMap_tidy leaflet p : tidy p -> tidy (exec (initializeMap leaflet) p).
Proof.
  destruct leaflet; [|done]. intros (_ & Huser).
  destruct p as [[mp ul cr evs ms um n] d al an ls]. simpl in *.
  split; simpl; [|done]. intros m' [= <-]. simpl. split; [constructor|].
  by intros l ?%elem_of_nil.
Qed.

Lemma retryMap_tidy leaflet p :
  stamped p -> tidy p -> tidy (exec (retryMap leaflet) p).
Proof.
  intros Hs Hp.
  assert (Hq : stamped (with_doc (document.set_mapEl MapEmptied (doc p)) p) /\
               tidy (with_doc (document.set_mapEl MapEmptied (doc p)) p))
    by (split; [revert Hs; by apply stamped_mono | revert Hp; by apply tidy_same]).
  destruct Hq as [Hs' Hp'].
  unfold exec at 1. destruct leaflet; [|by rewrite retryMap_false].
  rewrite retryMap_true. cbn [snd].
  apply renderEvents_tidy; [by apply initializeMap_stamped | by apply initializeMap_tidy].
Qed.

Lemma joinEvent_tidy eventId p :
  stamped p -> tidy p -> tidy (exec (joinEvent eventId) p).
Proof.
  intros Hs Hp.
  destruct (list_find (fun e => Event.id e = eventId) (appState.events (app p)))
    as [[i event]|] eqn:Hfind.
  - unfold exec. rewrite (joinEvent_found_eq _ _ _ _ Hfind).
    apply renderEvents_then_alert_tidy.
    + revert Hs. by apply stamped_mono.
    + revert Hp. by apply tidy_same.
  - unfold exec. by rewrite (joinEvent_not_found _ _ Hfind).
Qed.

Lemma createEventMarker_added_stamped p m newEvent :
  appState.map (app p) = Some m -> stamped p ->
  stamped
    {| app := appState.set_markers
                (appState.markers (app p) ++ [markerOf (S (lastStamp p)) newEvent])
                (appState.set_map
                   (Some (LMap.addLayer (markerOf (S (lastStamp p)) newEvent) m))
                   (appState.set_events (appState.events (app p) ++ [newEvent]) (app p)));
       doc := doc p; alerts := alerts p; announcements := announcements p;
       lastStamp := S (lastStamp p) |}.
Proof.
  intros Hm (Hms & Hly & Hum). specialize (Hly m Hm).
  destruct p as [[mp ul cr evs ms um n] d al an ls]. simpl in *.
  split; [|split]; cbn -[popupContent].
  - apply Forall_app. split; [|apply Forall_singleton; simpl; lia].
    eapply Forall_impl; [exact Hms|]. intros x Hx. simpl in Hx. lia.
  - intros m' [= <-]. cbn -[popupContent].
    apply Forall_app. split; [|apply Forall_singleton; simpl; lia].
    eapply Forall_impl; [exact Hly|]. intros x Hx. simpl in Hx. lia.
  - intros u Hu. specialize (Hum u Hu). lia.
Qed.

Lemma createEventMarker_added_tidy p m newEvent :
  appState.map (app p) = Some m -> stamped p -> tidy p ->
  tidy
    {| app := appState.set_markers
                (appState.markers (app p) ++ [markerOf (S (lastStamp p)) newEvent])
                (appState.set_map
                   (Some (LMap.addLayer (markerOf (S (lastStamp p)) newEvent) m))
                   (appState.set_events (appState.events (app p) ++ [newEvent]) (app p)));
       doc := doc p; alerts := alerts p; announcements := announcements p;
       lastStamp := S (lastStamp p) |}.
Proof.
  intros Hm (Hms & Hly & Hum) (Hmap & Huser).
  specialize (Hly m Hm). destruct (Hmap m Hm) as [Hnd Hin].
  rewrite Forall_forall in Hly, Hms.
  destruct p as [[mp ul cr evs ms um n] d al an ls]. simpl in *. subst mp.
  split; cbn -[popupContent].
  - intros m' [= <-]. cbn -[popupContent]. split.
    + rewrite fmap_app. apply NoDup_app. split; [done|].
      split; [|apply NoDup_singleton].
      intros s (x & -> & Hx)%list_elem_of_fmap Hs%list_elem_of_singleton.
      specialize (Hly x Hx). simpl in Hly, Hs. lia.
    + intros l [Hx|Hx]%elem_of_app.
      * destruct (Hin l Hx) as [Hold|Hu]; [left; apply elem_of_app; by left|by right].
      * left. apply elem_of_app. by right.
  - intros u Hu. rewrite fmap_app. intros [Hx|Hx%list_elem_of_singleton]%elem_of_app.
    + by apply (Huser u Hu).
    + specialize (Hum u Hu). simpl in Hx. lia.
Qed.

Lemma createEventMarker_tidy beachName eventDate now p :
  stamped p -> tidy p -> tidy (exec (createEventMarker beachName eventDate now) p).
Proof.
  intros Hs Hp. destruct (falsy beachName) eqn:Hn.
  { unfold exec, createEventMarker. by rewrite Hn. }
  destruct (falsy eventDate) eqn:Hd.
  { unfold exec, createEventMarker. by rewrite Hn, Hd. }
  destruct beachName as [[|c1 n1]|], eventDate as [[|c2 d2]|]; try discriminate.
  destruct (appState.map (app p)) as [m|] eqn:Hm.
  - unfold exec. rewrite (createEventMarker_eq p m _ _ now Hm) by done.
    apply renderEvents_then_alert_tidy.
    + by apply createEventMarker_added_stamped.
    + by apply createEventMarker_added_tidy.
  - unfold exec, createEventMarker. cbn [falsy]. cbv zeta. by rewrite with_map_None.
Qed.

Lemma userLocation_Some p m latitude longitude :
  appState.map (app p) = Some m ->
  userLocation (GeoPosition latitude longitude) p
  = (Normal tt, located p m {| lat := latitude; lng := longitude |}).
Proof.
  destruct p as [[mp ul cr evs ms um n] d al an ls]. simpl. intros ->.
  by destruct um.
Qed.

Lemma userLocation_None p latitude longitude :
  appState.map (app p) = None ->
  exists e,
    userLocation (GeoPosition latitude longitude) p
    = (Throw e,
       with_app (appState.set_userLocation
                   (Some {| lat := latitude; lng := longitude |}) (app p)) p).
Proof.
  destruct p as [[mp ul cr evs ms um n] d al an ls]. simpl. intros ->.
  destruct um; by eexists.
Qed.

Lemma located_tidy p m here :
  appState.map (app p) = Some m -> stamped p -> tidy p -> tidy (located p m here).
Proof.
  intros Hm (Hms & Hly & Hum) (Hmap & Huser).
  specialize (Hly m Hm). destruct (Hmap m Hm) as [Hnd Hin].
  rewrite Forall_forall in Hly, Hms.
  destruct p as [[mp ul cr evs ms um n] d al an ls]. simpl in *. subst mp.
  split; simpl.
  - intros m' [= <-]. simpl. split.
    + rewrite fmap_app. apply NoDup_app.
      split; [destruct um; [by apply NoDup_fmap_filter|done]|].
      split; [|apply NoDup_singleton].
      intros s (x & -> & Hx)%list_elem_of_fmap Hs%list_elem_of_singleton.
      assert (x ∈ LMap.layers m) as Hx'.
      { destruct um; [by apply list_elem_of_filter in Hx as [_ Hx]|done]. }
      specialize (Hly x Hx'). simpl in Hly, Hs. lia.
    + intros l [Hx|Hx%list_elem_of_singleton]%elem_of_app; [|right; by subst l].
      left. destruct um as [old|]; simpl in Hx.
      * apply list_elem_of_filter in Hx as [Hne Hx].
        destruct (Hin l Hx) as [Hold|[= ->]]; done.
      * by destruct (Hin l Hx).
  - intros u [= <-] (x & Hs & Hx)%list_elem_of_fmap.
    specialize (Hms x Hx). simpl in Hms, Hs. lia.
Qed.

Lemma located_stamped p m here :
  appState.map (app p) = Some m -> stamped p -> stamped (located p m here).
Proof.
  intros Hm Hp.
  pose proof (userLocation_stamped (GeoPosition (lat here) (lng here)) p Hp) as Hq.
  unfold exec in Hq. rewrite (userLocation_Some p m _ _ Hm) in Hq. by destruct here.
Qed.

Lemma userLocation_tidy geo p : stamped p -> tidy p -> tidy (exec (userLocation geo) p).
Proof.
  intros Hs Hp. destruct geo as [|latitude longitude|msg]; [done| |done].
  destruct (appState.map (app p)) as [m|] eqn:Hm.
  - unfold exec. rewrite (userLocation_Some p m _ _ Hm). by apply located_tidy.
  - destruct (userLocation_None p latitude longitude Hm) as [e He].
    unfold exec. rewrite He. revert Hp. by apply tidy_same.
Qed.

Section TidySession.
Context `{DateApi}.

Lemma perform_tidy (a : Action) (p : Page) :
stamped p -> tidy p -> tidy (exec (perform a) p).
Proof.
intros Hs Hp. destruct a; cbn [perform].
- by apply initializeMap_tidy.
- by apply retryMap_tidy.
- done.
- destruct (doc_only_loadWeather response today p) as [d ->]. done.
- done.
- by apply renderEvents_tidy.
- by apply userLocation_tidy.
- by apply createEventMarker_tidy.
- by apply joinEvent_tidy.
- done.
- done.
Qed.

Lemma run_tidy_from (actions : list Action) (p : Page) :
stamped p -> tidy p -> stamped (run actions p) /\ tidy (run actions p).
Proof.
revert p. induction actions as [|a actions IH]; intros p Hs Hp; [done|].
cbn [run fold_left]. apply IH; [by apply perform_stamped | by apply perform_tidy].
Qed.

Lemma Page_init_tidy : stamped Page_init /\ tidy Page_init.
Proof.
split.
- split; [constructor|]. split; [intros m [=]|intros u [=]].
- split; [intros m [=]|intros u [=]].
Qed.

(** In every session the map holds nothing stale: each marker on it is in
  the markers collection or is the user's marker, none is on it twice, the
  user's marker is none of the event markers, and so the map never holds
  more markers than the collection has, and one. *)
Theorem session_map_tidy (actions : list Action) :
let p := run actions Page_init in
tidy p /\
forall m, appState.map (app p) = Some m ->
  (length (LMap.layers m) <= S (length (appState.markers (app p))))%nat.
Proof.
intros p. destruct (run_tidy_from actions Page_init) as [_ Ht];
  [apply Page_init_tidy..|].
fold p in Ht. split; [exact Ht|]. intros m Hm.
destruct Ht as [Hmap _]. destruct (Hmap m Hm) as [Hnd Hin].
apply NoDup_fmap_1 in Hnd.
assert (Hsub : LMap.layers m ⊆+
               appState.markers (app p) ++ option_list (appState.userMarker (app p))).
{ apply NoDup_submseteq; [done|]. intros l Hl. apply elem_of_app.
  destruct (Hin l Hl) as [?|Hu]; [by left|right].
  rewrite Hu. by apply list_elem_of_singleton. }
apply submseteq_length in Hsub. rewrite length_app in Hsub.
destruct (appState.userMarker (app p)); simpl in Hsub; lia.
Qed.

End TidySession.

Lemma session_map_tidy_witness :
  exists m,
    appState.map
      (app (@run epochDays
              [InitializeMap true; LoadMockData; RenderEvents;
               UserLocation (GeoPosition 1.3 103.8); JoinEvent "event-2"] Page_init))
    = Some m /\
    (length (LMap.layers m) <= 4)%nat.
Proof.
  destruct (@session_map_tidy epochDays
              [InitializeMap true; LoadMockData; RenderEvents;
               UserLocation (GeoPosition 1.3 103.8); JoinEvent "event-2"]) as [_ Hlen].
  eexists. split; [vm_compute; reflexivity|].
  etrans; [apply Hlen; vm_compute; reflexivity|]. vm_compute. lia.
Defined.

(** ** The user's location *)

Lemma seededPage_invariants : stamped seededPage /\ tidy seededPage.
Proof.
  pose proof Page_init_tidy as [Hs Ht].
  assert (stamped (exec (initializeMap true) Page_init) /\
          tidy (exec (initializeMap true) Page_init)) as [Hs1 Ht1]
    by (split; [by apply initializeMap_stamped | by apply initializeMap_tidy]).
  split; [revert Hs1; by apply stamped_mono | revert Ht1; by apply tidy_same].
Qed.

(** When a position is found and there is a map, [userLocation] returns;
    it records the position, puts one new marker for the user at that
    position on the map and takes the previous one off, centres the map
    there at zoom 12, and leaves the event markers on the map, the event
    collection, the document and the dialogs as they were. *)
Theorem userLocation_moves_marker (p : Page) (m : LMap.t) (latitude longitude : Q) :
  appState.map (app p) = Some m -> stamped p -> tidy p ->
  let here := {| lat := latitude; lng := longitude |} in
  let p' := exec (userLocation (GeoPosition latitude longitude)) p in
  outcome (userLocation (GeoPosition latitude longitude)) p = Normal tt /\
  appState.userLocation (app p') = Some here /\
  (exists marker m',
     appState.userMarker (app p') = Some marker /\
     Marker.position marker = here /\
     appState.map (app p') = Some m' /\
     LMap.center m' = here /\ LMap.zoom m' = 12 /\
     marker ∈ LMap.layers m' /\
     (forall old, appState.userMarker (app p) = Some old -> old ∉ LMap.layers m') /\
     (forall x, x ∈ appState.markers (app p) ->
                (x ∈ LMap.layers m' <-> x ∈ LMap.layers m))) /\
  appState.events (app p') = appState.events (app p) /\
  appState.markers (app p') = appState.markers (app p) /\
  doc p' = doc p /\ alerts p' = alerts p.
Proof.
  intros Hm (Hms & Hly & Hum) (Hmap & Huser) here p'. subst p'.
  unfold outcome, exec. rewrite (userLocation_Some p m _ _ Hm). cbn [fst snd].
  specialize (Hly m Hm). rewrite Forall_forall in Hly, Hms.
  split; [done|]. split; [done|]. split; [|done].
  exists (userMarkerAt (S (lastStamp p)) here). eexists.
  split; [reflexivity|]. split; [reflexivity|]. split; [reflexivity|].
  split; [reflexivity|]. split; [reflexivity|].
  cbn [LMap.layers LMap.setView LMap.addLayer].
  split; [apply elem_of_app; right; by apply list_elem_of_singleton|]. split.
  - intros old Hold. rewrite Hold. cbn [LMap.removeLayer LMap.layers].
    intros [[Hne _]%list_elem_of_filter|Heq%list_elem_of_singleton]%elem_of_app; [done|].
    specialize (Hum old Hold). rewrite Heq in Hum. simpl in Hum. lia.
  - intros x Hx. rewrite elem_of_app, list_elem_of_singleton. split.
    + intros [Hin | ->]; [|specialize (Hms _ Hx); simpl in Hms; lia].
      destruct (appState.userMarker (app p)); [|done].
      by apply list_elem_of_filter in Hin as [_ Hin].
    + intros Hin. left. destruct (appState.userMarker (app p)) as [old|] eqn:Hold; [|done].
      apply list_elem_of_filter. split; [|done].
      intros Heq. apply (Huser old eq_refl), list_elem_of_fmap. by exists x.
Qed.

Lemma userLocation_moves_marker_witness :
  exists marker m',
    appState.userMarker (app locatedPage) = Some marker /\
    Marker.position marker = {| lat := 1.3521; lng := 103.8198 |} /\
    appState.map (app locatedPage) = Some m' /\
    marker ∈ LMap.layers m' /\
    length (appState.markers (app locatedPage)) = 3%nat.
Proof.
  set (p := exec (userLocation (GeoPosition 1.3 103.8)) (exec renderEvents seededPage)).
  assert (Hinv : stamped p /\ tidy p).
  { destruct seededPage_invariants as [Hs Ht].
    split; [apply userLocation_stamped, renderEvents_stamped, Hs|].
    apply userLocation_tidy; [by apply renderEvents_stamped | by apply renderEvents_tidy]. }
  destruct (appState.map (app p)) as [m|] eqn:Hm; [|vm_compute in Hm; discriminate].
  destruct (userLocation_moves_marker p m 1.3521 103.8198 Hm (proj1 Hinv) (proj2 Hinv))
    as (_ & _ & (marker & m' & Hu & Hpos & Hm' & _ & _ & Hin & _) & _ & Hmarkers & _).
  exists marker, m'. split; [exact Hu|]. split; [exact Hpos|]. split; [exact Hm'|].
  split; [exact Hin|]. unfold locatedPage. fold p. rewrite Hmarkers. reflexivity.
Defined.

(** When a position is found but there is no map, [userLocation] throws,
    having recorded the position and nothing else: no marker is made. *)
Theorem userLocation_without_map (p : Page) (latitude longitude : Q) :
  appState.map (app p) = None ->
  let call := userLocation (GeoPosition latitude longitude) in
  (exists e, outcome call p = Throw e) /\
  exec call p
  = with_app (appState.set_userLocation
                (Some {| lat := latitude; lng := longitude |}) (app p)) p.
Proof.
  intros Hm call. destruct (userLocation_None p latitude longitude Hm) as [e He].
  subst call. unfold outcome, exec. rewrite He. split; [by exists e | done].
Qed.

Lemma userLocation_without_map_witness :
  (exists e, outcome (userLocation (GeoPosition 1.3 103.8)) seededPage_noMap = Throw e) /\
  appState.userMarker (app (exec (userLocation (GeoPosition 1.3 103.8)) seededPage_noMap))
  = None.
Proof.
  destruct (userLocation_without_map seededPage_noMap 1.3 103.8 eq_refl) as [He Hp].
  split; [exact He|]. rewrite Hp. reflexivity.
Defined.

(** When no position is found (geolocation missing, or the request fails)
    [userLocation] shows one dialog and leaves [appState], the document and
    the map as they were. *)
Theorem userLocation_no_position (geo : Geolocation) (p : Page) :
  (forall latitude longitude, geo <> GeoPosition latitude longitude) ->
  let p' := exec (userLocation geo) p in
  outcome (userLocation geo) p = Normal tt /\
  app p' = app p /\ doc p' = doc p /\ lastStamp p' = lastStamp p /\
  announcements p' = announcements p /\
  exists notice, alerts p' = alerts p ++ [notice].
Proof.
  intros Hgeo p'. subst p'.
  destruct geo as [|latitude longitude|message]; [|by destruct (Hgeo latitude longitude)|];
    repeat split; by eexists.
Qed.

Lemma userLocation_no_position_witness :
  app (exec (userLocation (GeoFailure "User denied Geolocation")) seededPage)
  = app seededPage /\
  length (alerts (exec (userLocation (GeoFailure "User denied Geolocation")) seededPage))
  = 1%nat.
Proof.
  destruct (userLocation_no_position (GeoFailure "User denied Geolocation") seededPage)
    as (_ & Happ & _ & _ & _ & notice & Hal); [discriminate|].
  split; [exact Happ|]. rewrite Hal. reflexivity.
Defined.

(** ** The retry button of the static map view *)

(** The retry handler never throws, and it empties the map element first:
    the static view and its retry button are gone whether or not the retry
    succeeds. When Leaflet is still missing nothing else changes. When
    Leaflet is there the handler makes a new map at the default location and
    zoom 12 whose markers are exactly the new markers of the events, one per
    event in order, and it rewrites the events list. *)
Theorem retryMap_rebuilds (p : Page) :
  (outcome (retryMap false) p = Normal tt /\
   exec (retryMap false) p = with_doc (document.set_mapEl MapEmptied (doc p)) p) /\
  let p' := exec (retryMap true) p in
  outcome (retryMap true) p = Normal tt /\
  document.mapEl (doc p') = MapEmptied /\
  exists m',
    appState.map (app p') = Some m' /\
    LMap.center m' = config.defaultLocation /\ LMap.zoom m' = 12 /\
    LMap.layers m' = appState.markers (app p') /\
    Marker.content <$> appState.markers (app p')
    = Marker.content ∘ markerOf 0 <$> appState.events (app p) /\
    appState.events (app p') = appState.events (app p) /\
    document.eventsList (doc p') = eventsHtml p.
Proof.
  split; [unfold outcome, exec; by rewrite retryMap_false|].
  intros p'; subst p'.
  unfold outcome, exec. rewrite retryMap_true. cbn [fst snd]. split; [done|].
  set (q := exec (initializeMap true)
              (with_doc (document.set_mapEl MapEmptied (doc p)) p)).
  assert (Hq : exists m0, appState.map (app q) = Some m0 /\ LMap.layers m0 = [] /\
                          LMap.center m0 = config.defaultLocation /\ LMap.zoom m0 = 12 /\
                          appState.events (app q) = appState.events (app p) /\
                          document.mapEl (doc q) = MapEmptied)
    by (destruct p as [[] [] ? ? ?]; by eexists).
  destruct Hq as (m0 & Hm0 & Hl0 & Hc0 & Hz0 & Hev & Hel).
  unfold exec. rewrite (renderEvents_Some q m0 Hm0). cbn [snd].
  split. { cbn [rendered doc document.mapEl document.set_eventsList]. exact Hel. }
  exists (addLayers (markersFrom (lastStamp q) (appState.events (app q)))
            (removeLayers (appState.markers (app q)) m0)).
  split; [done|]. split; [done|]. split; [done|].
  split. { cbn [addLayers removeLayers LMap.layers rendered app appState.markers
                appState.set_markers]. rewrite Hl0. done. }
  split. { cbn [rendered app appState.markers appState.set_markers].
           by rewrite markersFrom_content, Hev. }
  split; [done|].
  cbn [rendered doc document.eventsList document.set_eventsList].
  unfold eventsHtml. by rewrite Hev.
Qed.

Lemma retryMap_rebuilds_witness :
  (exists view, document.mapEl (doc staticPage) = MapStatic view) /\
  document.mapEl (doc (exec (retryMap false) staticPage)) = MapEmptied /\
  exists m',
    appState.map (app (exec (retryMap true) staticPage)) = Some m' /\
    length (LMap.layers m') = 3%nat.
Proof.
  destruct (retryMap_rebuilds staticPage)
    as ((_ & Hfail) & _ & _ & m' & Hm' & _ & _ & Hly & Hct & _ & _).
  split; [eexists; vm_compute; reflexivity|].
  split; [rewrite Hfail; reflexivity|].
  exists m'. split; [exact Hm'|].
  rewrite Hly. rewrite <- (length_fmap Marker.content), Hct, length_fmap.
  vm_compute. reflexivity.
Defined.

(** ** The crew panel *)

Lemma fold_left_sum (f : CrewMember.t -> Z) (crews : list CrewMember.t) (a : Z) :
  fold_left (fun sum c => sum + f c) crews a = a + total (f <$> crews).
Proof.
  revert a. induction crews as [|c crews IH]; intros a; cbn; [lia|].
  rewrite IH. unfold total. lia.
Qed.

Lemma reduce_sum_total (f : CrewMember.t -> Z) (crews : list CrewMember.t) :
  reduce_sum f crews = total (f <$> crews).
Proof. unfold reduce_sum. rewrite fold_left_sum. lia. Qed.

Lemma total_Permutation (xs ys : list Z) : xs ≡ₚ ys -> total xs = total ys.
Proof. induction 1; unfold total in *; cbn; lia. Qed.

(** [renderCrew] returns and writes the crew panel only. Its counters show
    the number of members and the sums of their cleanups and of their items,
    so they do not depend on the order of the crew. *)
Theorem renderCrew_counters (p q : Page) :
  appState.crews (app p) ≡ₚ appState.crews (app q) ->
  outcome renderCrew p = Normal tt /\
  app (exec renderCrew p) = app p /\
  crewCounters (exec renderCrew p)
  = (show_Z (Z.of_nat (length (appState.crews (app p)))),
     show_Z (total (CrewMember.cleanups <$> appState.crews (app p))),
     show_Z (total (CrewMember.itemsCollected <$> appState.crews (app p)))) /\
  crewCounters (exec renderCrew p) = crewCounters (exec renderCrew q).
Proof.
  intros Hperm.
  assert (Hc : forall r,
             crewCounters (exec renderCrew r)
             = (show_Z (Z.of_nat (length (appState.crews (app r)))),
                show_Z (total (CrewMember.cleanups <$> appState.crews (app r))),
                show_Z (total (CrewMember.itemsCollected <$> appState.crews (app r))))).
  { intros r. unfold crewCounters, exec, renderCrew, bind, get_app, modify_doc. cbn.
    by rewrite !reduce_sum_total. }
  split; [done|]. split; [done|]. split; [apply Hc|].
  rewrite !Hc, (Permutation_length Hperm).
  rewrite (total_Permutation _ _ (fmap_Permutation CrewMember.cleanups _ _ Hperm)).
  by rewrite (total_Permutation _ _ (fmap_Permutation CrewMember.itemsCollected _ _ Hperm)).
Qed.

Lemma renderCrew_counters_witness :
  crewCounters (exec renderCrew seededPage)
  = crewCounters (exec renderCrew seededPage_reversed).
Proof.
  apply (renderCrew_counters seededPage seededPage_reversed).
  symmetry. apply reverse_Permutation.
Defined.

(** ** Sessions *)

Lemma iter_join_id n e : Event.id (Nat.iter n Event.join e) = Event.id e.
Proof. induction n as [|n IH]; [done|]. by rewrite Nat.iter_succ. Qed.

Lemma iter_join_participants n e :
  Event.participants (Nat.iter n Event.join e) = Event.participants e + Z.of_nat n.
Proof.
  induction n as [|n IH]; [cbn; lia|]. rewrite Nat.iter_succ.
  cbn [Event.join Event.participants]. lia.
Qed.

Lemma iter_join_fields n e :
  Event.name (Nat.iter n Event.join e) = Event.name e /\
  Event.date (Nat.iter n Event.join e) = Event.date e /\
  Event.lat (Nat.iter n Event.join e) = Event.lat e /\
  Event.lng (Nat.iter n Event.join e) = Event.lng e.
Proof. induction n as [|n IH]; [done|]. by rewrite Nat.iter_succ. Qed.

Lemma joinNextCleanup_exec p :
  let n := appState.nextCleanupParticipants (app p) + 1 in
  announcements (exec joinNextCleanup p) = announcements p ++ [nextCleanupAnnouncement n] /\
  appState.nextCleanupParticipants (app (exec joinNextCleanup p)) = n /\
  document.nextCleanupParticipants (doc (exec joinNextCleanup p)) = show_Z n.
Proof. by destruct p as [[] [] ? ? ?]. Qed.

Section Sessions.
Context `{DateApi}.

Ltac frame_action a :=
destruct a; try discriminate; intros _; cbn [perform];
unfold retryMap, joinEvent, createEventMarker, userLocation, loadWeather,
  loadMockData, renderCrew, joinNextCleanup, announceToScreenReader, welcome;
frame_solve.

Lemma perform_crewPanel (a : Action) :
is_RenderCrew a = false -> preserves (frame crewPanel) (perform a).
Proof. frame_action a. Qed.

Lemma perform_weatherPanels (a : Action) :
is_LoadWeather a = false -> preserves (frame weatherPanels) (perform a).
Proof. frame_action a. Qed.

Lemma perform_crews (a : Action) :
is_LoadMockData a = false ->
preserves (frame (fun p => appState.crews (app p))) (perform a).
Proof. frame_action a. Qed.

Lemma perform_events (a : Action) :
writes_events a = false ->
preserves (frame (fun p => appState.events (app p))) (perform a).
Proof. frame_action a. Qed.

(** What each action leaves alone: the crew panel is written by [renderCrew]
  only, the three weather panels by [loadWeather] only, the counter of the
  next cleanup and the messages for the screen reader by [joinNextCleanup]
  only, the crew by [loadMockData] only, and the event collection by
  [loadMockData], [joinEvent] and [createEventMarker] only. *)
Theorem action_footprints (a : Action) (p : Page) :
let p' := exec (perform a) p in
(is_RenderCrew a = false -> crewPanel p' = crewPanel p) /\
(is_LoadWeather a = false -> weatherPanels p' = weatherPanels p) /\
(is_JoinNextCleanup a = false ->
 announcements p' = announcements p /\
 document.nextCleanupParticipants (doc p') = document.nextCleanupParticipants (doc p)) /\
(is_LoadMockData a = false -> appState.crews (app p') = appState.crews (app p)) /\
(writes_events a = false -> appState.events (app p') = appState.events (app p)).
Proof.
intros p'; subst p'.
split; [intros Ha; exact (perform_crewPanel a Ha p)|].
split; [intros Ha; exact (perform_weatherPanels a Ha p)|].
split.
{ intros Ha. split; [exact (perform_announcements a Ha p)|].
  pose proof (perform_counterText a Ha p) as Hc. unfold frame in Hc. congruence. }
split; [intros Ha; exact (perform_crews a Ha p)|].
intros Ha; exact (perform_events a Ha p).
Qed.

(** One action on one event: it stays where it is in the collection, and
  its count rises by 1 when the action joins its id, and by nothing
  otherwise. *)
Lemma perform_event_step (a : Action) (p : Page) (i : nat) (e : Event.t) :
is_LoadMockData a = false ->
appState.events (app p) !! i = Some e ->
exists k,
  appState.events (app (exec (perform a) p)) !! i = Some (Nat.iter k Event.join e) /\
  (k <= if is_JoinEvent_of (Event.id e) a then 1 else 0)%nat.
Proof.
intros Ha He.
destruct (writes_events a) eqn:Hw.
- destruct a; try discriminate; cbn [perform is_JoinEvent_of].
  + (* createEventMarker *)
    exists 0%nat. split; [|lia]. cbn [Nat.iter].
    destruct (falsy beachName) eqn:Hn.
    { unfold exec, createEventMarker. by rewrite Hn. }
    destruct (falsy eventDate) eqn:Hd.
    { unfold exec, createEventMarker. by rewrite Hn, Hd. }
    destruct beachName as [[|c1 n1]|], eventDate as [[|c2 d2]|]; try discriminate.
    destruct (appState.map (app p)) as [m|] eqn:Hm.
    * rewrite (createEventMarker_events p m _ _ now Hm) by done.
      by apply lookup_app_l_Some.
    * unfold exec, createEventMarker. cbn [falsy]. cbv zeta. by rewrite with_map_None.
  + (* joinEvent *)
    destruct (list_find (fun e => Event.id e = eventId) (appState.events (app p)))
      as [[i0 event]|] eqn:Hfind.
    * unfold exec. rewrite (joinEvent_found_eq _ _ _ _ Hfind).
      match goal with
      | |- context [((renderEvents ;; alert ?msg) ?q).2] =>
          change (((renderEvents ;; alert msg) q).2)
            with (exec (renderEvents ;; alert msg) q)
      end.
      rewrite renderEvents_then_alert_app, renderEvents_events.
      cbn [with_app app appState.set_events appState.events].
      apply list_find_Some in Hfind as (Hi0 & Hid & _).
      destruct (decide (i = i0)) as [->|Hne].
      -- assert (event = e) as -> by congruence.
         exists 1%nat. split.
         ++ apply list_lookup_insert_eq. by eapply lookup_lt_Some.
         ++ by rewrite bool_decide_eq_true_2.
      -- exists 0%nat. split; [|lia]. by rewrite list_lookup_insert_ne.
    * exists 0%nat. split; [|lia]. unfold exec.
      by rewrite (joinEvent_not_found _ _ Hfind).
- exists 0%nat. split.
  + cbn [Nat.iter]. pose proof (perform_events a Hw p) as Hf. unfold frame in Hf.
    by rewrite Hf.
  + lia.
Qed.

(** Short of a new [loadMockData], an event of the collection stays in its
  place for the rest of the session with its id, name, date and position;
  its count never falls, and it rises by no more than the number of
  [joinEvent] calls given its id. *)
Theorem session_events_grow (actions : list Action) (p : Page) (i : nat) (e : Event.t) :
Forall (fun a => is_LoadMockData a = false) actions ->
appState.events (app p) !! i = Some e ->
exists (n : nat) (e' : Event.t),
  appState.events (app (run actions p)) !! i = Some e' /\
  e' = Nat.iter n Event.join e /\
  Event.id e' = Event.id e /\ Event.name e' = Event.name e /\
  Event.date e' = Event.date e /\
  Event.participants e' = Event.participants e + Z.of_nat n /\
  (n <= length (filter (fun a => is_JoinEvent_of (Event.id e) a = true) actions))%nat.
Proof.
intros Hall He.
assert (Hrun : exists n,
           appState.events (app (run actions p)) !! i = Some (Nat.iter n Event.join e) /\
           (n <= length (filter (fun a => is_JoinEvent_of (Event.id e) a = true)
                           actions))%nat).
{ revert p e He. induction Hall as [|a actions Ha Hall IH]; intros p e He.
  - exists 0%nat. by split.
  - destruct (perform_event_step a p i e Ha He) as (k & Hk & Hle).
    destruct (IH _ _ Hk) as (n & Hn & Hle').
    exists (n + k)%nat. cbn [run fold_left]. split.
    + by rewrite Nat.iter_add.
    + rewrite iter_join_id in Hle'. rewrite filter_cons.
      destruct (is_JoinEvent_of (Event.id e) a);
        [rewrite decide_True by done | rewrite decide_False by done]; simpl; lia. }
destruct Hrun as (n & Hn & Hle). exists n, (Nat.iter n Event.join e).
split; [done|]. split; [done|]. split; [apply iter_join_id|].
split; [apply iter_join_fields|]. split; [apply iter_join_fields|].
split; [apply iter_join_participants | done].
Qed.

(** The messages for the screen reader are, in order, one per call of
  [joinNextCleanup], each with the count it reached: 1, 2, ... And once
  there has been a call, the counter on the page shows the number of
  calls. *)
Theorem session_announcements (actions : list Action) :
let p := run actions Page_init in
let k := length (filter (fun a => is_JoinNextCleanup a = true) actions) in
announcements p = (fun i => nextCleanupAnnouncement (Z.of_nat i)) <$> seq 1 k /\
((0 < k)%nat -> document.nextCleanupParticipants (doc p) = show_Z (Z.of_nat k)).
Proof.
assert (Hrun : forall (p : Page) (c : nat),
           appState.nextCleanupParticipants (app p) = Z.of_nat c ->
           let k := length (filter (fun a => is_JoinNextCleanup a = true) actions) in
           announcements (run actions p)
           = announcements p ++
             ((fun i => nextCleanupAnnouncement (Z.of_nat i)) <$> seq (S c) k) /\
           appState.nextCleanupParticipants (app (run actions p)) = Z.of_nat (c + k) /\
           ((0 < k)%nat ->
            document.nextCleanupParticipants (doc (run actions p))
            = show_Z (Z.of_nat (c + k))) /\
           (k = 0%nat ->
            document.nextCleanupParticipants (doc (run actions p))
            = document.nextCleanupParticipants (doc p))).
{ induction actions as [|a actions IH]; intros p c Hc; cbn zeta.
  - cbn. rewrite app_nil_r, Nat.add_0_r. split; [done|]. split; [done|].
    split; [lia|done].
  - change (run (a :: actions) p) with (run actions (exec (perform a) p)).
    rewrite filter_cons.
    destruct (is_JoinNextCleanup a) eqn:Ha.
    + rewrite decide_True by done. destruct a; try discriminate. cbn [perform].
      destruct (joinNextCleanup_exec p) as (Hann & Hn & Hdoc). cbv zeta in *.
      rewrite Hc in Hann, Hn, Hdoc.
      replace (Z.of_nat c + 1) with (Z.of_nat (S c)) in Hann, Hn, Hdoc by lia.
      destruct (IH (exec joinNextCleanup p) (S c) Hn) as (IHa & IHn & IHpos & IHzero).
      cbn [length seq fmap list_fmap].
      split; [by rewrite IHa, Hann, <- app_assoc|].
      split; [rewrite IHn; f_equal; lia|].
      split; [|lia]. intros _.
      destruct (length (filter (fun a => is_JoinNextCleanup a = true) actions))
        as [|k'] eqn:Hk.
      * rewrite (IHzero eq_refl), Hdoc. f_equal. lia.
      * rewrite IHpos by lia. f_equal. lia.
    + rewrite decide_False by done.
      assert (Hn : appState.nextCleanupParticipants (app (exec (perform a) p))
                   = Z.of_nat c).
      { pose proof (perform_counterText a Ha p) as Hf. unfold frame in Hf.
        rewrite <- Hc. congruence. }
      destruct (IH (exec (perform a) p) c Hn) as (IHa & IHn & IHpos & IHzero).
      rewrite (perform_announcements a Ha p) in IHa.
      split; [done|]. split; [done|]. split; [done|].
      intros Hk. rewrite (IHzero Hk).
      pose proof (perform_counterText a Ha p) as Hf. unfold frame in Hf. congruence. }
intros p k. destruct (Hrun Page_init 0%nat eq_refl) as (Ha & _ & Hpos & _).
split; [exact Ha | exact Hpos].
Qed.

End Sessions.

Lemma action_footprints_witness :
  crewPanel (exec (@perform epochDays (JoinEvent "event-2")) seededPage)
  = crewPanel seededPage /\
  weatherPanels (exec (@perform epochDays (JoinEvent "event-2")) seededPage)
  = weatherPanels seededPage.
Proof.
  destruct (@action_footprints epochDays (JoinEvent "event-2") seededPage)
    as (Hc & Hw & _).
  split; [exact (Hc eq_refl) | exact (Hw eq_refl)].
Defined.

Lemma session_events_grow_witness :
  exists (n : nat) (e' : Event.t),
    appState.events
      (app (@run epochDays [JoinEvent "event-2"; RenderCrew; JoinEvent "event-2"]
              seededPage)) !! 1%nat = Some e' /\
    Event.id e' = "event-2" /\
    Event.participants e' = 18 + Z.of_nat n /\ (n <= 2)%nat.
Proof.
  destruct (appState.events (app seededPage) !! 1%nat) as [e|] eqn:He;
    [|vm_compute in He; discriminate].
  assert (Hid : Event.id e = "event-2" /\ Event.participants e = 18)
    by (vm_compute in He; injection He as <-; split; reflexivity).
  destruct Hid as [Hid Hcount].
  destruct (@session_events_grow epochDays
              [JoinEvent "event-2"; RenderCrew; JoinEvent "event-2"] seededPage 1 e)
    as (n & e' & He' & _ & Hid' & _ & _ & Hp & Hle).
  - repeat constructor.
  - exact He.
  - exists n, e'. split; [exact He'|]. split; [congruence|].
    split; [rewrite Hp, Hcount; reflexivity|].
    rewrite Hid in Hle. exact Hle.
Defined.

Lemma session_announcements_witness :
  length (announcements (@run epochDays [JoinNextCleanup; Welcome; JoinNextCleanup]
                           Page_init)) = 2%nat /\
  document.nextCleanupParticipants
    (doc (@run epochDays [JoinNextCleanup; Welcome; JoinNextCleanup] Page_init))
  = "2".
Proof.
  destruct (@session_announcements epochDays [JoinNextCleanup; Welcome; JoinNextCleanup])
    as [Ha Hd].
  split; [rewrite Ha; reflexivity|]. rewrite Hd; [reflexivity|]. vm_compute. lia.
Defined.
